(** * pyredfin: a shallow embedding of [src/pyredfin.py]

    The [Redfin] class is a thin client: every public method builds a
    path and a query-parameter dict, performs one HTTP GET, and decodes
    or reshapes the answer.  The embedding keeps what the Python code
    relies on:

    - dicts are objects on a heap, held by reference (default arguments
      are objects created once, when the [def] is evaluated);
    - exceptions abort a call but keep the heap as it was when raised;
    - the network, [json.loads] and the wall clock are the environment;
      every use of them is recorded in a trace. *)

From Stdlib Require Import ZArith String Ascii List Lia DecimalString.
From Stdlib Require Floats.SpecFloat.
From stdpp Require Import base option gmap strings list fin_maps.

Open Scope string_scope.
Open Scope Z_scope.

(** ** Python values *)

(** Values accepted as query parameters and header values
    ([Union[str, int]] and [bool] in the annotations). *)
Inductive scalar :=
  | SStr (s : string)
  | SInt (z : Z)
  | SBool (b : bool).

Global Instance scalar_eq_dec : EqDecision scalar.
Proof. solve_decision. Defined.

(** What [json.loads] builds: [None], [bool], [int], [float], [str],
    [list] and [dict] with [str] keys.  A decoded dict is only ever read
    by this client, so it is kept by value, in insertion order. *)
#[warnings="-register-all"]
Inductive pyval :=
  | VNone
  | VBool (b : bool)
  | VInt (z : Z)
  | VFloat (f : SpecFloat.spec_float)
  | VStr (s : string)
  | VList (l : list pyval)
  | VDict (items : list (string * pyval)).

(** Exceptions the code under study can raise. *)
Inductive exn :=
  | HTTPError (status : Z)      (* requests.exceptions.HTTPError *)
  | ConnectionError             (* any transport failure of requests.get *)
  | JSONDecodeError
  | IndexError
  | KeyError
  | TypeError
  | AttributeError
  | ValueError.

Global Instance exn_eq_dec : EqDecision exn.
Proof. solve_decision. Defined.

Inductive result (A : Type) :=
  | Ok (a : A)
  | Raise (e : exn).
Arguments Ok {A} a.
Arguments Raise {A} e.

(** [str(x)], as used by an f-string replacement field. *)
Definition str_int (z : Z) : string := NilZero.string_of_int (Z.to_int z).

Definition py_str (x : scalar) : string :=
  match x with
  | SStr s => s
  | SInt z => str_int z
  | SBool true => "True"
  | SBool false => "False"
  end.

(** [s[n:]] on a [str]: never raises, yields [""] when [n] is past the end. *)
Fixpoint str_slice_from (n : nat) (s : string) : string :=
  match n, s with
  | O, _ => s
  | S n', String _ s' => str_slice_from n' s'
  | S _, EmptyString => EmptyString
  end.

(** [s.rsplit(sep)] for a one-character [sep] and no [maxsplit]: the
    fields between the occurrences of [sep], left to right. *)
Fixpoint rsplit_go (sep : ascii) (s : string) (field : string) : list string :=
  match s with
  | EmptyString => [field]
  | String c s' =>
      if Ascii.eqb c sep then field :: rsplit_go sep s' ""
      else rsplit_go sep s' (field +:+ String c "")
  end.

Definition rsplit (sep : ascii) (s : string) : list string := rsplit_go sep s "".

(** [d[k]] for a [str] key. *)
Fixpoint assoc (k : string) (items : list (string * pyval)) : option pyval :=
  match items with
  | [] => None
  | (k', v) :: rest => if String.eqb k k' then Some v else assoc k rest
  end.

Definition getitem_key (v : pyval) (k : string) : result pyval :=
  match v with
  | VDict items =>
      match assoc k items with
      | Some x => Ok x
      | None => Raise KeyError
      end
  | _ => Raise TypeError      (* list/str indices must be integers; the rest is not subscriptable *)
  end.

Fixpoint str_get (n : nat) (s : string) : option ascii :=
  match s, n with
  | EmptyString, _ => None
  | String c _, O => Some c
  | String _ s', S n' => str_get n' s'
  end.

(** [x[i]] for an [int] index [i >= 0]. *)
Definition getitem_idx (v : pyval) (i : nat) : result pyval :=
  match v with
  | VList l =>
      match l !! i with
      | Some x => Ok x
      | None => Raise IndexError
      end
  | VDict _ => Raise KeyError   (* the keys of a decoded dict are all str *)
  | VStr s =>
      match str_get i s with
      | Some c => Ok (VStr (String c ""))
      | None => Raise IndexError
      end
  | _ => Raise TypeError
  end.

(** [len(x)]. *)
Definition py_len (v : pyval) : result nat :=
  match v with
  | VList l => Ok (length l)
  | VDict items => Ok (length items)
  | VStr s => Ok (String.length s)
  | _ => Raise TypeError
  end.

(** [for i in x]: the values the loop variable takes. *)
Definition py_iter (v : pyval) : result (list pyval) :=
  match v with
  | VList l => Ok l
  | VDict items => Ok (map (λ kv, VStr (fst kv)) items)
  | VStr s => Ok (map (λ c, VStr (String c "")) (list_ascii_of_string s))
  | _ => Raise TypeError
  end.

(** [x.rsplit("_")]: only [str] has the method. *)
Definition py_rsplit (v : pyval) (sep : ascii) : result pyval :=
  match v with
  | VStr s => Ok (VList (map VStr (rsplit sep s)))
  | _ => Raise AttributeError
  end.

(** [d[k] = v] on an insertion-ordered dict: an existing key keeps its
    place and takes the new value, a new key goes last. *)
Fixpoint dict_setitem (k : string) (v : pyval) (items : list (string * pyval))
  : list (string * pyval) :=
  match items with
  | [] => [(k, v)]
  | (k', v') :: rest =>
      if String.eqb k k' then (k, v) :: rest else (k', v') :: dict_setitem k v rest
  end.

(** ** Dates: [datetime], [dateutil.relativedelta], [strftime] *)

Record datetime := { year : Z; month : Z; day : Z }.

(** [relativedelta(months=n)] after its constructor's normalisation
    ([_fix]): more than 11 months carry into years, sign preserved. *)
Record relativedelta := { rd_years : Z; rd_months : Z }.

Definition rd_sign (n : Z) : Z := if n <? 0 then -1 else 1.

Definition relativedelta_months (n : Z) : relativedelta :=
  if Z.abs n >? 11 then
    let s := rd_sign n in
    {| rd_years := (n * s / 12) * s; rd_months := ((n * s) mod 12) * s |}
  else {| rd_years := 0; rd_months := n |}.

Definition rd_neg (r : relativedelta) : relativedelta :=
  {| rd_years := - rd_years r; rd_months := - rd_months r |}.

Definition isleap (y : Z) : bool :=
  (y mod 4 =? 0) && (negb (y mod 100 =? 0) || (y mod 400 =? 0)).

(** [calendar.monthrange(y, m)[1]] *)
Definition days_in_month (y m : Z) : Z :=
  if m =? 2 then (if isleap y then 29 else 28)
  else if (m =? 4) || (m =? 6) || (m =? 9) || (m =? 11) then 30
  else 31.

(** [relativedelta.__radd__]: shift year and month, clip the day to the
    target month, then [dt.replace], which rejects a year outside
    [MINYEAR..MAXYEAR]. *)
Definition rd_radd (r : relativedelta) (dt : datetime) : result datetime :=
  let y := year dt + rd_years r in
  let m := month dt in
  let '(y, m) :=
    if rd_months r =? 0 then (y, m)
    else
      let m := m + rd_months r in
      if m >? 12 then (y + 1, m - 12)
      else if m <? 1 then (y - 1, m + 12)
      else (y, m) in
  let d := Z.min (days_in_month y m) (day dt) in
  if (1 <=? y) && (y <=? 9999) then Ok {| year := y; month := m; day := d |}
  else Raise ValueError.

(** [dt - r] is [r.__rsub__(dt)], that is [r.__neg__().__radd__(dt)]. *)
Definition datetime_sub (dt : datetime) (r : relativedelta) : result datetime :=
  rd_radd (rd_neg r) dt.

Definition month_abbr (m : Z) : string :=
  match m with
  | 1 => "Jan" | 2 => "Feb" | 3 => "Mar" | 4 => "Apr"
  | 5 => "May" | 6 => "Jun" | 7 => "Jul" | 8 => "Aug"
  | 9 => "Sep" | 10 => "Oct" | 11 => "Nov" | 12 => "Dec"
  | _ => ""
  end.

Definition digit (d : Z) : ascii := ascii_of_nat (48 + Z.to_nat d).

Definition two_digits (n : Z) : string :=
  String (digit (n / 10)) (String (digit (n mod 10)) "").

(** [dt.strftime("%b %y")] in the C locale. *)
Definition strftime_b_y (dt : datetime) : string :=
  month_abbr (month dt) +:+ " " +:+ two_digits (year dt mod 100).

(** [range(a, b)] *)
Definition py_range (a b : Z) : list Z :=
  map (λ k, a + Z.of_nat k) (seq 0 (Z.to_nat (b - a))).

(** ** The heap of dict objects, the environment, and the monad of calls *)

Definition loc := positive.

Inductive event :=
  | EvGet (url : string) (params headers : gmap string scalar)   (* requests.get *)
  | EvLoads (doc : string).                                      (* json.loads *)

Record state := State {
  heap : gmap loc (gmap string scalar);   (* the dict objects *)
  trace : list event;                     (* calls made to the outside, oldest first *)
  ticks : nat                             (* number of clock readings so far *)
}.

Record Response := {
  status_code : Z;
  text : string;       (* the body, decoded to str *)
  content : string     (* the body, as bytes *)
}.

(** What the client does not control: the server's answer to a GET (or a
    transport failure), the JSON decoder, and the successive readings
    of the wall clock. *)
Record World := {
  http_get : string → gmap string scalar → gmap string scalar → result Response;
  json_loads : string → option pyval;
  clock : nat → datetime
}.

Definition M (A : Type) : Type := state → result A * state.

Definition ret {A} (a : A) : M A := λ σ, (Ok a, σ).

Definition raise {A} (e : exn) : M A := λ σ, (Raise e, σ).

Definition bind {A B} (c : M A) (k : A → M B) : M B :=
  λ σ, match c σ with
       | (Ok a, σ') => k a σ'
       | (Raise e, σ') => (Raise e, σ')
       end.

Definition lift {A} (r : result A) : M A := λ σ, (r, σ).

Notation "x ←' c ;' k" := (bind c (λ x, k))
  (at level 100, c at next level, right associativity,
   format "'[v' x  ←'  c  ;' '/' k ']'").
Notation "c ;;' k" := (bind c (λ _, k))
  (at level 100, right associativity).

Fixpoint mapM {A B} (f : A → M B) (l : list A) : M (list B) :=
  match l with
  | [] => ret []
  | a :: l' => b ←' f a ;' bs ←' mapM f l' ;' ret (b :: bs)
  end.

Fixpoint foldM {A B} (f : B → A → M B) (l : list A) (b : B) : M B :=
  match l with
  | [] => ret b
  | a :: l' => b' ←' f b a ;' foldM f l' b'
  end.

(** Reading a dict object, storing into one, creating one. *)
Definition load (l : loc) : M (gmap string scalar) :=
  λ σ, (Ok (default ∅ (heap σ !! l)), σ).

Definition setitem (l : loc) (k : string) (v : scalar) : M unit :=
  λ σ, (Ok tt,
        State (<[l := <[k := v]> (default ∅ (heap σ !! l))]> (heap σ)) (trace σ) (ticks σ)).

Definition new_dict (d : gmap string scalar) : M loc :=
  λ σ, let l := fresh (dom (heap σ)) in
       (Ok l, State (<[l := d]> (heap σ)) (trace σ) (ticks σ)).

Definition emit (e : event) : M unit :=
  λ σ, (Ok tt, State (heap σ) (trace σ ++ [e])%list (ticks σ)).

(** [a == b] on parameter values: a [str] equals only an equal [str];
    [bool] compares as the int it is. *)
Definition py_eq (a b : scalar) : bool :=
  match a, b with
  | SStr s, SStr t => String.eqb s t
  | SStr _, _ | _, SStr _ => false
  | SInt x, SInt y => x =? y
  | SInt x, SBool c => x =? (if c then 1 else 0)
  | SBool c, SInt y => (if c then 1 else 0) =? y
  | SBool c, SBool d => Bool.eqb c d
  end.

(** [l[i]] on a list of labels. *)
Definition list_getitem (l : list string) (i : nat) : result string :=
  match l !! i with
  | Some x => Ok x
  | None => Raise IndexError
  end.

(** ** The class [Redfin] *)

Record Redfin := { base : string; headers : loc }.

(** The two default-argument dicts, [{"user-agent": ""}] of [__init__]
    and [{}] of [redfin_request], are built once, when the class body is
    executed; [module_state] is the state right after the import. *)
Definition default_headers : loc := 1%positive.
Definition default_params : loc := 2%positive.

Definition module_state : state :=
  State (<[default_headers := {["user-agent" := SStr ""]}]>
           (<[default_params := ∅]> ∅)) [] 0.

Definition __init__ (headers : option loc) : Redfin :=
  {| base := "https://redfin.com/stingray/";
     headers := default default_headers headers |}.

(** The keyword arguments of [get_search_results_table]. *)
Record table_args := {
  al : scalar; has_deal : scalar; has_dishwasher : scalar;
  has_laundry_facility : scalar; has_laundry_hookups : scalar;
  has_parking : scalar; has_pool : scalar; has_short_term_lease : scalar;
  include_pending_homes : scalar; is_rentals : scalar; is_furnished : scalar;
  market : scalar; num_homes : scalar; ord : scalar; page_number : scalar;
  sold_within_days : scalar; status : scalar; travel_with_traffic : scalar;
  travel_within_region : scalar; uipt : scalar; utilities_included : scalar;
  v : scalar
}.


Section Client.

Variable w : World.

(** [requests.get(url, params=params, headers=headers)] *)
Definition requests_get (url : string) (params headers : loc) : M Response :=
  p ←' load params ;'
  h ←' load headers ;'
  emit (EvGet url p h) ;;'
  lift (http_get w url p h).

(** [Response.raise_for_status]: an [HTTPError] for a 4xx client error
    or a 5xx server error, nothing otherwise. *)
Definition raise_for_status (r : Response) : M unit :=
  if (400 <=? status_code r) && (status_code r <? 500) then raise (HTTPError (status_code r))
  else if (500 <=? status_code r) && (status_code r <? 600) then raise (HTTPError (status_code r))
  else ret tt.

Definition loads (doc : string) : M pyval :=
  emit (EvLoads doc) ;;'
  match json_loads w doc with
  | Some x => ret x
  | None => raise JSONDecodeError
  end.

Definition today : M datetime :=
  λ σ, (Ok (clock w (ticks σ)), State (heap σ) (trace σ) (S (ticks σ))).

Definition redfin_request (self : Redfin) (url : string) (params : option loc)
  : M Response :=
  response ←' requests_get (base self +:+ url)
                (default default_params params) (headers self) ;'
  raise_for_status response ;;'
  ret response.

Definition _format_response (self : Redfin) (response : Response) : M pyval :=
  return_dict ←' loads (str_slice_from 4 (text response)) ;'
  ret return_dict.

Definition request_property_data (self : Redfin) (url : string) (params : loc)
    (page : bool) : M pyval :=
  (if page then setitem params "pageType" (SInt 3) else ret tt) ;;'
  unpacked ←' load params ;'
  (* {"accessLevel": 1, **params}: the entries of params are stored
     last, so a key of params replaces the same key written before *)
  query ←' new_dict (unpacked ∪ {["accessLevel" := SInt 1]}) ;'
  response ←' redfin_request self ("api/home/details/" +:+ url) (Some query) ;'
  return_dict ←' _format_response self response ;'
  ret return_dict.

Definition request_region_data (self : Redfin) (url : string)
    (region_type region_id property_type : scalar) : M pyval :=
  let request_url :=
    if py_eq property_type (SStr "") then
      "api/region/" +:+ py_str region_type +:+ "/" +:+ py_str region_id
        +:+ "/" +:+ url
    else
      "api/region/" +:+ py_str region_type +:+ "/" +:+ py_str region_id
        +:+ "/" +:+ py_str property_type +:+ "/" +:+ url in
  response ←' redfin_request self request_url None ;'
  return_dict ←' _format_response self response ;'
  ret return_dict.

Definition search (self : Redfin) (query : string) (kwargs : gmap string scalar)
  : M pyval :=
  params ←' new_dict (kwargs ∪ <["location" := SStr query]> {["v" := SInt 2]}) ;'
  response ←' redfin_request self "do/location-autocomplete" (Some params) ;'
  return_dict ←' _format_response self response ;'
  ret return_dict.

Definition get_region_id (self : Redfin) (search_response : pyval) : M pyval :=
  payload ←' lift (getitem_key search_response "payload") ;'
  sections ←' lift (getitem_key payload "sections") ;'
  section0 ←' lift (getitem_idx sections 0) ;'
  rows ←' lift (getitem_key section0 "rows") ;'
  row0 ←' lift (getitem_idx rows 0) ;'
  id ←' lift (getitem_key row0 "id") ;'
  fields ←' lift (py_rsplit id "_") ;'
  region_id ←' lift (getitem_idx fields 1) ;'
  ret region_id.

Definition get_search_results_table (self : Redfin)
    (region_id region_type : scalar) (a : table_args) : M string :=
  params ←' new_dict (list_to_map
    [("al", al a); ("has_deal", has_deal a); ("has_dishwasher", has_dishwasher a);
     ("has_laundry_facility", has_laundry_facility a);
     ("has_laundry_hookups", has_laundry_hookups a);
     ("has_parking", has_parking a); ("has_pool", has_pool a);
     ("has_short_term_lease", has_short_term_lease a);
     ("include_pending_homes", include_pending_homes a);
     ("isRentals", is_rentals a); ("is_furnished", is_furnished a);
     ("market", market a); ("num_homes", num_homes a); ("ord", ord a);
     ("page_number", page_number a); ("region_id", region_id);
     ("region_type", region_type); ("sold_within_days", sold_within_days a);
     ("status", status a); ("travel_with_traffic", travel_with_traffic a);
     ("travel_within_region", travel_within_region a); ("uipt", uipt a);
     ("utilities_included", utilities_included a); ("v", v a)]) ;'
  response ←' redfin_request self "api/gis-csv" (Some params) ;'
  ret (content response).

Definition primary_region (self : Redfin) (url : string) : M Response :=
  params ←' new_dict {["path" := SStr url]} ;'
  response ←' redfin_request self "api/home/details/primaryRegionInfo" (Some params) ;'
  ret response.

Definition shared_region (self : Redfin) (table_id : scalar)
    (kwargs : gmap string scalar) : M Response :=
  params ←' new_dict (kwargs ∪ <["tableId" := table_id]>
              (<["regionTypeId" := SInt 2]> {["mapPageTypeId" := SInt 1]})) ;'
  response ←' redfin_request self "api/region/shared-region-info" (Some params) ;'
  ret response.

Definition get_recently_sold (self : Redfin) (region_type region_id : scalar)
  : M Response :=
  params ←' new_dict (<["region_type" := region_type]> {["region_id" := region_id]}) ;'
  response ←' redfin_request self "api/gis/recently-sold" (Some params) ;'
  ret response.

(** The dict literal [{"propertyId": property_id, "listingId": listing_id}]. *)
Definition property_params (property_id listing_id : scalar) : M loc :=
  new_dict (<["propertyId" := property_id]> {["listingId" := listing_id]}).

Definition get_property_information (self : Redfin)
    (property_id listing_id : scalar) : M pyval :=
  params ←' property_params property_id listing_id ;'
  response ←' request_property_data self "belowTheFold" params false ;'
  ret response.

Definition get_property_images (self : Redfin)
    (property_id listing_id : scalar) : M pyval :=
  params ←' property_params property_id listing_id ;'
  response ←' request_property_data self "aboveTheFold" params false ;'
  payload ←' lift (getitem_key response "payload") ;'
  media ←' lift (getitem_key payload "mediaBrowserInfo") ;'
  photos ←' lift (getitem_key media "photos") ;'
  photo_seq ←' lift (py_iter photos) ;'
  image_list ←' foldM (λ image_list i,
      urls ←' lift (getitem_key i "photoUrls") ;'
      u ←' lift (getitem_key urls "nonFullScreenPhotoUrlCompressed") ;'
      ret (image_list ++ [u])%list) photo_seq [] ;'
  ret (VList image_list).

Definition month_range : list Z := py_range (-1) (12 * 5).

(** One element of the comprehension: the clock is read anew for
    every [i]. *)
Definition month_label (i : Z) : M string :=
  now ←' today ;'
  dt ←' lift (datetime_sub now (relativedelta_months (i - 1))) ;'
  ret (strftime_b_y dt).

Definition get_property_timeseries_estimate (self : Redfin)
    (property_id listing_id : scalar) : M pyval :=
  params ←' property_params property_id listing_id ;'
  response ←' request_property_data self "avmHistoricalData" params false ;'
  payload ←' lift (getitem_key response "payload") ;'
  estimate_list ←' lift (getitem_key payload "propertyTimeSeries") ;'
  labels ←' mapM month_label month_range ;'
  let month_list := reverse labels in
  n ←' lift (py_len estimate_list) ;'
  ts ←' foldM (λ ts i,
      key ←' lift (list_getitem month_list i) ;'
      value ←' lift (getitem_idx estimate_list i) ;'
      ret (dict_setitem key value ts)) (seq 0 n) [] ;'
  ret (VDict ts).

Definition get_similar_homes (self : Redfin)
    (property_id listing_id : scalar) : M pyval :=
  params ←' property_params property_id listing_id ;'
  response ←' request_property_data self "avm" params false ;'
  ret response.

Definition get_offer_insights (self : Redfin)
    (region_type region_id property_type : scalar) : M pyval :=
  response ←' request_region_data self "offer-insights" region_type region_id property_type ;'
  ret response.

Definition get_best_schools (self : Redfin)
    (region_type region_id property_type : scalar) : M pyval :=
  response ←' request_region_data self "best-schools" region_type region_id property_type ;'
  ret response.

Definition get_walk_score_data (self : Redfin)
    (region_type region_id property_type : scalar) : M pyval :=
  response ←' request_region_data self "walk-score-data" region_type region_id property_type ;'
  ret response.

Definition get_region_trends (self : Redfin)
    (region_type region_id property_type : scalar) : M pyval :=
  response ←' request_region_data self "trends" region_type region_id property_type ;'
  ret response.

Definition get_flood_risk_data (self : Redfin) (region_type region_id : scalar)
  : M pyval :=
  response ←' request_region_data self "floodRisk-data" region_type region_id (SStr "") ;'
  ret response.

Definition get_market_insights_interlinks (self : Redfin)
    (region_type region_id : scalar) : M pyval :=
  response ←' request_region_data self "market-insights-interlinks"
                region_type region_id (SStr "") ;'
  ret response.

Definition get_env_risk_data (self : Redfin) (region_type region_id : scalar)
  : M pyval :=
  response ←' request_region_data self "envRisk-data" region_type region_id (SStr "") ;'
  ret response.

Definition get_home_feature_trends (self : Redfin)
    (region_type region_id : scalar) : M pyval :=
  response ←' request_region_data self "home-feature-trends/entrypoint"
                region_type region_id (SStr "") ;'
  ret response.

Definition get_compete_score (self : Redfin) (region_type region_id : scalar)
  : M pyval :=
  response ←' request_region_data self "compete-score" region_type region_id (SStr "") ;'
  ret response.

Definition get_nearby_compete_scores (self : Redfin)
    (region_type region_id : scalar) : M pyval :=
  response ←' request_region_data self "nearby-compete-scores"
                region_type region_id (SStr "") ;'
  ret response.

End Client.

(** ** Calling a method by name *)

Inductive method :=
  | RedfinRequest (url : string) (params : option loc)
  | RequestPropertyData (url : string) (params : loc) (page : bool)
  | RequestRegionData (url : string) (region_type region_id property_type : scalar)
  | Search (query : string) (kwargs : gmap string scalar)
  | GetSearchResultsTable (region_id region_type : scalar) (a : table_args)
  | PrimaryRegion (url : string)
  | SharedRegion (table_id : scalar) (kwargs : gmap string scalar)
  | GetRecentlySold (region_type region_id : scalar)
  | GetPropertyInformation (property_id listing_id : scalar)
  | GetPropertyImages (property_id listing_id : scalar)
  | GetPropertyTimeseriesEstimate (property_id listing_id : scalar)
  | GetSimilarHomes (property_id listing_id : scalar)
  | GetOfferInsights (region_type region_id property_type : scalar)
  | GetBestSchools (region_type region_id property_type : scalar)
  | GetWalkScoreData (region_type region_id property_type : scalar)
  | GetRegionTrends (region_type region_id property_type : scalar)
  | GetFloodRiskData (region_type region_id : scalar)
  | GetMarketInsightsInterlinks (region_type region_id : scalar)
  | GetEnvRiskData (region_type region_id : scalar)
  | GetHomeFeatureTrends (region_type region_id : scalar)
  | GetCompeteScore (region_type region_id : scalar)
  | GetNearbyCompeteScores (region_type region_id : scalar).

(** What a call hands back: a decoded or reshaped value, the
    [requests.Response] object itself, or the body bytes. *)
Inductive returned :=
  | RVal (x : pyval)
  | RResponse (r : Response)
  | RBytes (b : string).

Definition fmap_M {A B} (f : A → B) (c : M A) : M B := x ←' c ;' ret (f x).

Definition invoke (w : World) (self : Redfin) (m : method) : M returned :=
  match m with
  | RedfinRequest url params => fmap_M RResponse (redfin_request w self url params)
  | RequestPropertyData url params page =>
      fmap_M RVal (request_property_data w self url params page)
  | RequestRegionData url rt rid pt => fmap_M RVal (request_region_data w self url rt rid pt)
  | Search query kwargs => fmap_M RVal (search w self query kwargs)
  | GetSearchResultsTable rid rt a => fmap_M RBytes (get_search_results_table w self rid rt a)
  | PrimaryRegion url => fmap_M RResponse (primary_region w self url)
  | SharedRegion table_id kwargs => fmap_M RResponse (shared_region w self table_id kwargs)
  | GetRecentlySold rt rid => fmap_M RResponse (get_recently_sold w self rt rid)
  | GetPropertyInformation pid lid => fmap_M RVal (get_property_information w self pid lid)
  | GetPropertyImages pid lid => fmap_M RVal (get_property_images w self pid lid)
  | GetPropertyTimeseriesEstimate pid lid =>
      fmap_M RVal (get_property_timeseries_estimate w self pid lid)
  | GetSimilarHomes pid lid => fmap_M RVal (get_similar_homes w self pid lid)
  | GetOfferInsights rt rid pt => fmap_M RVal (get_offer_insights w self rt rid pt)
  | GetBestSchools rt rid pt => fmap_M RVal (get_best_schools w self rt rid pt)
  | GetWalkScoreData rt rid pt => fmap_M RVal (get_walk_score_data w self rt rid pt)
  | GetRegionTrends rt rid pt => fmap_M RVal (get_region_trends w self rt rid pt)
  | GetFloodRiskData rt rid => fmap_M RVal (get_flood_risk_data w self rt rid)
  | GetMarketInsightsInterlinks rt rid =>
      fmap_M RVal (get_market_insights_interlinks w self rt rid)
  | GetEnvRiskData rt rid => fmap_M RVal (get_env_risk_data w self rt rid)
  | GetHomeFeatureTrends rt rid => fmap_M RVal (get_home_feature_trends w self rt rid)
  | GetCompeteScore rt rid => fmap_M RVal (get_compete_score w self rt rid)
  | GetNearbyCompeteScores rt rid => fmap_M RVal (get_nearby_compete_scores w self rt rid)
  end.

(** The three request helpers are public but are not domain methods. *)
Definition is_domain_method (m : method) : bool :=
  match m with
  | RedfinRequest _ _ | RequestPropertyData _ _ _ | RequestRegionData _ _ _ _ => false
  | _ => true
  end.

Definition is_csv_export (m : method) : bool :=
  match m with
  | GetSearchResultsTable _ _ _ => true
  | _ => false
  end.

(** The events a call added to the trace, and the GETs among them. *)
Definition events_since (σ σ' : state) : list event :=
  drop (length (trace σ)) (trace σ').

Definition is_loads (e : event) : bool :=
  match e with
  | EvLoads _ => true
  | EvGet _ _ _ => false
  end.

Definition urls_of (t : list event) : list string :=
  omap (λ e, match e with EvGet url _ _ => Some url | EvLoads _ => None end) t.

Definition params_of (t : list event) : list (gmap string scalar) :=
  omap (λ e, match e with EvGet _ p _ => Some p | EvLoads _ => None end) t.

Definition docs_of (t : list event) : list string :=
  omap (λ e, match e with EvLoads doc => Some doc | EvGet _ _ _ => None end) t.

(** The state after one more event. *)
Definition log (e : event) (σ : state) : state :=
  State (heap σ) (trace σ ++ [e])%list (ticks σ).

(** A request followed by the decoding of its answer: the common tail
    of [request_property_data], [request_region_data] and [search]. *)
Definition fetch (w : World) (self : Redfin) (url : string) (params : option loc)
  : M pyval :=
  response ←' redfin_request w self url params ;'
  return_dict ←' _format_response w self response ;'
  ret return_dict.

(** The caller's dict as [request_property_data] leaves it, and the
    heap in which the query dict is then created. *)
Definition marked (page : bool) (d : gmap string scalar) : gmap string scalar :=
  if page then <["pageType" := SInt 3]> d else d.

Definition marked_heap (page : bool) (params : loc) (σ : state)
  : gmap loc (gmap string scalar) :=
  if page then <[params := marked page (default ∅ (heap σ !! params))]> (heap σ)
  else heap σ.

(** ** A concrete environment

    The results below hold for every [World].  To run the client on
    actual bodies we also give one decoder: a recursive-descent reader
    for JSON documents without string escapes and without fractional or
    exponent parts in numbers.  As [json.loads] does, it lets the last
    of two equal keys win and rejects trailing text. *)

Definition is_ws (c : ascii) : bool :=
  (Ascii.eqb c " " || Ascii.eqb c "009" || Ascii.eqb c "010" || Ascii.eqb c "013")%bool.

Definition digit_val (c : ascii) : option Z :=
  let n := Z.of_nat (nat_of_ascii c) in
  if (48 <=? n) && (n <=? 57) then Some (n - 48) else None.

Fixpoint skip_ws (s : list ascii) : list ascii :=
  match s with
  | c :: s' => if is_ws c then skip_ws s' else s
  | [] => []
  end.

Fixpoint scan_digits (s : list ascii) (acc : Z) : Z * list ascii :=
  match s with
  | c :: s' =>
      match digit_val c with
      | Some d => scan_digits s' (10 * acc + d)
      | None => (acc, s)
      end
  | [] => (acc, [])
  end.

Fixpoint scan_string (s : list ascii) (acc : string) : option (string * list ascii) :=
  match s with
  | [] => None
  | c :: s' =>
      if Ascii.eqb c "034" then Some (acc, s')
      else if Ascii.eqb c "\" then None
      else scan_string s' (acc +:+ String c "")
  end.

Definition scan_number (s : list ascii) : option (pyval * list ascii) :=
  match s with
  | "-"%char :: c :: s' =>
      match digit_val c with
      | Some _ => let '(n, r) := scan_digits (c :: s') 0 in Some (VInt (- n), r)
      | None => None
      end
  | c :: s' =>
      match digit_val c with
      | Some _ => let '(n, r) := scan_digits (c :: s') 0 in Some (VInt n, r)
      | None => None
      end
  | [] => None
  end.

Fixpoint parse_value (fuel : nat) (s : list ascii) : option (pyval * list ascii) :=
  match fuel with
  | O => None
  | S fuel' =>
      match skip_ws s with
      | "n"%char :: "u"%char :: "l"%char :: "l"%char :: r => Some (VNone, r)
      | "t"%char :: "r"%char :: "u"%char :: "e"%char :: r => Some (VBool true, r)
      | "f"%char :: "a"%char :: "l"%char :: "s"%char :: "e"%char :: r => Some (VBool false, r)
      | "034"%char :: r =>
          match scan_string r "" with
          | Some (x, r') => Some (VStr x, r')
          | None => None
          end
      | "["%char :: r =>
          match skip_ws r with
          | "]"%char :: r' => Some (VList [], r')
          | _ => parse_elements fuel' r []
          end
      | "{"%char :: r =>
          match skip_ws r with
          | "}"%char :: r' => Some (VDict [], r')
          | _ => parse_members fuel' r []
          end
      | s' => scan_number s'
      end
  end
with parse_elements (fuel : nat) (s : list ascii) (acc : list pyval)
  : option (pyval * list ascii) :=
  match fuel with
  | O => None
  | S fuel' =>
      match parse_value fuel' s with
      | Some (x, r) =>
          match skip_ws r with
          | ","%char :: r' => parse_elements fuel' r' (acc ++ [x])%list
          | "]"%char :: r' => Some (VList (acc ++ [x])%list, r')
          | _ => None
          end
      | None => None
      end
  end
with parse_members (fuel : nat) (s : list ascii) (acc : list (string * pyval))
  : option (pyval * list ascii) :=
  match fuel with
  | O => None
  | S fuel' =>
      match skip_ws s with
      | "034"%char :: r =>
          match scan_string r "" with
          | Some (k, r1) =>
              match skip_ws r1 with
              | ":"%char :: r2 =>
                  match parse_value fuel' r2 with
                  | Some (x, r3) =>
                      match skip_ws r3 with
                      | ","%char :: r4 => parse_members fuel' r4 (dict_setitem k x acc)
                      | "}"%char :: r4 => Some (VDict (dict_setitem k x acc), r4)
                      | _ => None
                      end
                  | None => None
                  end
              | _ => None
              end
          | None => None
          end
      | _ => None
      end
  end.

Definition loads_plain (doc : string) : option pyval :=
  let s := list_ascii_of_string doc in
  match parse_value (2 * length s + 2) s with
  | Some (x, r) =>
      match skip_ws r with
      | [] => Some x
      | _ => None
      end
  | None => None
  end.

(** A server that answers every GET with the same response, a clock
    that stands still. *)
Definition fixed_world (r : Response) (now : datetime) : World :=
  {| http_get := λ _ _ _, Ok r; json_loads := loads_plain; clock := λ _, now |}.

Definition response_of (code : Z) (body : string) : Response :=
  {| status_code := code; text := body; content := body |}.

(** ** The claims as the specification words them *)

(** The claim that the injected [accessLevel] cannot be overridden. *)
Definition access_level_protected (w : World) (self : Redfin) (url : string)
    (params : loc) (page : bool) (σ : state) : Prop :=
  ∀ q, q ∈ params_of (events_since σ
                        (snd (request_property_data w self url params page σ))) →
       q !! "accessLevel" = Some (SInt 1).

(** A caller's dict [d], created in the state right after the import. *)
Definition with_dict (d : gmap string scalar) : loc * state :=
  (fresh (dom (heap module_state)), snd (new_dict d module_state)).


(** The claim that a call with [page=True] leaves the caller's dict
    different from what it was. *)
Definition page_changes_params (w : World) (self : Redfin) (url : string)
    (params : loc) (σ : state) : Prop :=
  heap (snd (request_property_data w self url params true σ)) !! params
    ≠ heap σ !! params.

(** The subscript chain of [get_region_id]:
    [search_response["payload"]["sections"][0]["rows"][0]["id"]]. *)
Definition row_id (search_response : pyval) : result pyval :=
  match getitem_key search_response "payload" with
  | Ok payload =>
      match getitem_key payload "sections" with
      | Ok sections =>
          match getitem_idx sections 0 with
          | Ok section0 =>
              match getitem_key section0 "rows" with
              | Ok rows =>
                  match getitem_idx rows 0 with
                  | Ok row0 => getitem_key row0 "id"
                  | Raise e => Raise e
                  end
              | Raise e => Raise e
              end
          | Raise e => Raise e
          end
      | Raise e => Raise e
      end
  | Raise e => Raise e
  end.

(** A search response whose sections are [sections]; one whose first
    row of its first section has the id [id]. *)
Definition search_response_of (sections : list pyval) : pyval :=
  VDict [("payload", VDict [("sections", VList sections)])].

Definition search_response_with_id (id : string) : pyval :=
  search_response_of [VDict [("rows", VList [VDict [("id", VStr id)]])]].

Fixpoint has_char (c : ascii) (s : string) : bool :=
  match s with
  | EmptyString => false
  | String c' s' => Ascii.eqb c' c || has_char c s'
  end.

(** Following the specification's words: the suffix of [s] after the
    first occurrence of [sep], if there is one. *)
Fixpoint suffix_after_first (sep : ascii) (s : string) : option string :=
  match s with
  | EmptyString => None
  | String c s' => if Ascii.eqb c sep then Some s' else suffix_after_first sep s'
  end.

(** The claim that [get_region_id] returns that suffix. *)
Definition region_id_is_suffix (self : Redfin) (id : string) : Prop :=
  ∀ t, suffix_after_first "_" id = Some t →
       fst (get_region_id self (search_response_with_id id) module_state) = Ok (VStr t).

(** ** Properties of calls, closed under sequencing *)

Definition no_http {A} (r : result A) : Prop := ∀ s, r ≠ Raise (HTTPError s).

(** [c] talks to nobody and cannot fail. *)
Definition silent {A} (c : M A) : Prop :=
  ∀ σ, (∃ a, fst (c σ) = Ok a) ∧ trace (snd (c σ)) = trace σ.

(** [c] sends nothing; it may decode, and it raises no [HTTPError]. *)
Definition decodes_only {A} (c : M A) : Prop :=
  ∀ σ, (∃ docs, trace (snd (c σ)) = (trace σ ++ map EvLoads docs)%list)
       ∧ no_http (fst (c σ)).

Definition http_failed (r : Response) : bool :=
  (400 <=? status_code r) && (status_code r <? 600).

(** [c] sends exactly one GET, first of all; when the answer has a 4xx
    or 5xx status [c] stops there with an [HTTPError], otherwise it may
    go on to decode and raises no [HTTPError]. *)
Definition one_request (w : World) {A} (c : M A) : Prop :=
  ∀ σ, ∃ url p h docs,
    trace (snd (c σ)) = (trace σ ++ EvGet url p h :: map EvLoads docs)%list
    ∧ match http_get w url p h with
      | Raise e => fst (c σ) = Raise e ∧ docs = []
      | Ok r =>
          if http_failed r
          then fst (c σ) = Raise (HTTPError (status_code r)) ∧ docs = []
          else no_http (fst (c σ))
      end.

(** [c] leaves the dict at [l] as it is, once [l] is allocated. *)
Definition keeps {A} (l : loc) (c : M A) : Prop :=
  ∀ σ, is_Some (heap σ !! l) → heap (snd (c σ)) !! l = heap σ !! l.

(** The claim that a status outside 2xx makes the call raise
    [HTTPError]. *)
Definition non_2xx_raises (w : World) (self : Redfin) (m : method) (σ : state) : Prop :=
  ∀ url p h rest r,
    events_since σ (snd (invoke w self m σ)) = EvGet url p h :: rest →
    http_get w url p h = Ok r →
    ¬ (200 ≤ status_code r < 300) →
    fst (invoke w self m σ) = Raise (HTTPError (status_code r)).

(** The claim that two clients built with the default [headers] have
    independent header dicts: a store through one is not seen through
    the other. *)
Definition default_headers_independent (k : string) (x : scalar) (σ : state) : Prop :=
  let c1 := __init__ None in
  let c2 := __init__ None in
  heap (snd (setitem (headers c1) k x σ)) !! headers c2 = heap σ !! headers c2.

(** A call that can store into the client's own header dict: only
    [request_property_data] with [page=True], given that very dict as
    [params]. *)
Definition marks_headers (self : Redfin) (m : method) : bool :=
  match m with
  | RequestPropertyData _ params true => bool_decide (params = headers self)
  | _ => false
  end.

(** [c] sends nothing and decodes nothing. *)
Definition quiet {A} (c : M A) : Prop := ∀ σ, trace (snd (c σ)) = trace σ.

(** When [c] returns [x], it has sent one GET, the answer was decoded
    once, and [x] is what [json.loads] made of the answer's text past
    its first four characters. *)
Definition payload_call (w : World) (c : M pyval) : Prop :=
  ∀ σ x σ', c σ = (Ok x, σ') →
    ∃ url p h r,
      events_since σ σ' = [EvGet url p h; EvLoads (str_slice_from 4 (text r))]
      ∧ http_get w url p h = Ok r
      ∧ json_loads w (str_slice_from 4 (text r)) = Some x.

(** When [c] returns [r], it has sent one GET, nothing was decoded, and
    [r] is the answer itself. *)
Definition response_call (w : World) (c : M Response) : Prop :=
  ∀ σ r σ', c σ = (Ok r, σ') →
    ∃ url p h, events_since σ σ' = [EvGet url p h] ∧ http_get w url p h = Ok r.

(** The claim that a method returns the decoded payload. *)
Definition returns_decoded_payload (w : World) (self : Redfin) (m : method)
    (σ : state) : Prop :=
  ∀ o σ', invoke w self m σ = (Ok o, σ') →
    ∃ x, o = RVal x
      ∧ ∃ url p h r,
          events_since σ σ' = [EvGet url p h; EvLoads (str_slice_from 4 (text r))]
          ∧ http_get w url p h = Ok r
          ∧ json_loads w (str_slice_from 4 (text r)) = Some x.

(** The methods that hand the decoded payload on as it is, those that
    hand the response object on, and those that reshape the payload. *)
Definition passes_payload (m : method) : bool :=
  match m with
  | RequestPropertyData _ _ _ | RequestRegionData _ _ _ _ | Search _ _
  | GetPropertyInformation _ _ | GetSimilarHomes _ _
  | GetOfferInsights _ _ _ | GetBestSchools _ _ _ | GetWalkScoreData _ _ _
  | GetRegionTrends _ _ _ | GetFloodRiskData _ _ | GetMarketInsightsInterlinks _ _
  | GetEnvRiskData _ _ | GetHomeFeatureTrends _ _ | GetCompeteScore _ _
  | GetNearbyCompeteScores _ _ => true
  | _ => false
  end.

Definition passes_response (m : method) : bool :=
  match m with
  | RedfinRequest _ _ | PrimaryRegion _ | SharedRegion _ _ => true
  | _ => false
  end.

Definition reshapes_payload (m : method) : bool :=
  match m with
  | GetPropertyImages _ _ | GetPropertyTimeseriesEstimate _ _ => true
  | _ => false
  end.

(** ** Month arithmetic, for the time series *)

(** Months counted from year 0: the position of a date's month on the
    line of all months. *)
Definition month_index (dt : datetime) : Z := 12 * year dt + (month dt - 1).

(** The label [strftime("%b %y")] gives to the month at position [idx]. *)
Definition label_of_index (idx : Z) : string :=
  month_abbr (idx mod 12 + 1) +:+ " " +:+ two_digits ((idx / 12) mod 100).

(** The label the comprehension of [get_property_timeseries_estimate]
    computes for [i] from the clock reading number [t]. *)
Definition month_label_at (w : World) (t : nat) (i : Z) : string :=
  match datetime_sub (clock w t) (relativedelta_months (i - 1)) with
  | Ok dt => strftime_b_y dt
  | Raise _ => ""
  end.

(** A clock reading from which all 61 labels can be computed: a real
    month, and a year that stays within [1..9999] five years back and
    a year ahead. *)
Definition reading_ok (dt : datetime) : Prop :=
  1 ≤ month dt ≤ 12 ∧ 6 ≤ year dt ≤ 9998.

(** The state after [n] more clock readings. *)
Definition tick_n (n : nat) (σ : state) : state :=
  State (heap σ) (trace σ) (ticks σ + n).

(** The 61 labels for a clock standing in month [m] of year [y], oldest
    first: from 58 months before that month to 2 months after it. *)
Definition month_labels (y m : Z) : list string :=
  map (λ r : nat, label_of_index (12 * y + (m - 1) - 58 + Z.of_nat r)) (seq 0 61).

(** One step of the dict comprehension
    [{month_list[i]: estimate_list[i] for i in ...}]: the key is
    evaluated first, then the value, then the entry is stored. *)
Definition zip_step (month_list : list string) (estimate_list : pyval)
    (ts : list (string * pyval)) (i : nat) : M (list (string * pyval)) :=
  key ←' lift (list_getitem month_list i) ;'
  value ←' lift (getitem_idx estimate_list i) ;'
  ret (dict_setitem key value ts).

(** The part of [get_property_timeseries_estimate] after the request:
    from the decoded response to the returned dict. *)
Definition timeseries_of (w : World) (response : pyval) : M pyval :=
  payload ←' lift (getitem_key response "payload") ;'
  estimate_list ←' lift (getitem_key payload "propertyTimeSeries") ;'
  labels ←' mapM (month_label w) month_range ;'
  let month_list := reverse labels in
  n ←' lift (py_len estimate_list) ;'
  ts ←' foldM (zip_step month_list estimate_list) (seq 0 n) [] ;'
  ret (VDict ts).

(** Reading a label back: the month whose abbreviation opens [s], and
    the number its two digits after the blank spell. *)
Definition abbr_month (s : string) : Z :=
  default 0 (find (λ m, String.prefix (month_abbr m) s) [1; 2; 3; 4; 5; 6; 7; 8; 9; 10; 11; 12]).

Definition digit_of (c : ascii) : Z := Z.of_nat (nat_of_ascii c) - 48.

Definition label_year (s : string) : Z :=
  match str_slice_from 4 s with
  | String d1 (String d0 _) => 10 * digit_of d1 + digit_of d0
  | _ => -1
  end.

(** The query [get_property_timeseries_estimate] sends. *)
Definition timeseries_url (self : Redfin) : string :=
  base self +:+ "api/home/details/avmHistoricalData".

Definition timeseries_query (property_id listing_id : scalar) : gmap string scalar :=
  <["propertyId" := property_id]> {["listingId" := listing_id]}
    ∪ {["accessLevel" := SInt 1]}.

(** Following the specification's words: 61 labels, the newest of them
    [start] months after the current month, walking backward from
    there, reversed so that the oldest is first. *)
Definition spec_month_labels (y m start : Z) : list string :=
  reverse (map (λ j : nat, label_of_index (12 * y + (m - 1) + start - Z.of_nat j))
             (seq 0 61)).

(** The claim that the keys of the returned dict are the first labels of
    the list that starts one month off the current month (read either
    way: one month after it, or one month before it). *)
Definition keys_start_one_month_off (w : World) (self : Redfin)
    (property_id listing_id : scalar) (σ : state) (y m : Z) : Prop :=
  ∀ items,
    fst (get_property_timeseries_estimate w self property_id listing_id σ)
      = Ok (VDict items) →
    items.*1 = take (length items) (spec_month_labels y m 1)
    ∨ items.*1 = take (length items) (spec_month_labels y m (-1)).

(** Bodies for the concrete environment: a double quote, a quoted name,
    and the answer of the server for a list of estimates. *)
Definition dq : string := String "034" "".

Definition quoted (s : string) : string := dq +:+ s +:+ dq.

Definition timeseries_body (estimates : list string) : string :=
  "{}&&{" +:+ quoted "payload" +:+ ":{" +:+ quoted "propertyTimeSeries" +:+ ":["
    +:+ String.concat "," estimates +:+ "]}}".

(** ** Queries and tails of the domain methods *)


(** The dict literals of [search], [shared_region], [get_recently_sold]
    and [primary_region]. *)
Definition search_query (query : string) (kwargs : gmap string scalar)
  : gmap string scalar :=
  kwargs ∪ <["location" := SStr query]> {["v" := SInt 2]}.

Definition shared_region_query (table_id : scalar) (kwargs : gmap string scalar)
  : gmap string scalar :=
  kwargs ∪ <["tableId" := table_id]>
    (<["regionTypeId" := SInt 2]> {["mapPageTypeId" := SInt 1]}).


(** What a call sent: the URLs, the queries and the header dicts of its
    GETs, and how many documents it decoded. *)
Definition headers_of (t : list event) : list (gmap string scalar) :=
  omap (λ e, match e with EvGet _ _ h => Some h | EvLoads _ => None end) t.

Definition sent (σ σ' : state) : list (string * gmap string scalar) :=
  zip (urls_of (events_since σ σ')) (params_of (events_since σ σ')).

(** The query of the four per-property methods. *)
Definition property_query (property_id listing_id : scalar) : gmap string scalar :=
  <["propertyId" := property_id]> {["listingId" := listing_id]}
    ∪ {["accessLevel" := SInt 1]}.

(** One step of the loop of [get_property_images], and the part of the
    method after the request. *)
Definition image_step (image_list : list pyval) (i : pyval) : M (list pyval) :=
  urls ←' lift (getitem_key i "photoUrls") ;'
  u ←' lift (getitem_key urls "nonFullScreenPhotoUrlCompressed") ;'
  ret (image_list ++ [u])%list.

Definition images_of (response : pyval) : M pyval :=
  payload ←' lift (getitem_key response "payload") ;'
  media ←' lift (getitem_key payload "mediaBrowserInfo") ;'
  photos ←' lift (getitem_key media "photos") ;'
  photo_seq ←' lift (py_iter photos) ;'
  image_list ←' foldM image_step photo_seq [] ;'
  ret (VList image_list).

(** [photo["photoUrls"]["nonFullScreenPhotoUrlCompressed"]] *)
Definition photo_url (photo : pyval) : result pyval :=
  match getitem_key photo "photoUrls" with
  | Ok urls => getitem_key urls "nonFullScreenPhotoUrlCompressed"
  | Raise e => Raise e
  end.

(** The answer of the server for a property with the given photo URLs. *)
Definition photo_json (url : string) : string :=
  "{" +:+ quoted "photoUrls" +:+ ":{" +:+ quoted "nonFullScreenPhotoUrlCompressed"
    +:+ ":" +:+ quoted url +:+ "}}".

Definition images_body (urls : list string) : string :=
  "{}&&{" +:+ quoted "payload" +:+ ":{" +:+ quoted "mediaBrowserInfo" +:+ ":{"
    +:+ quoted "photos" +:+ ":[" +:+ String.concat "," (map photo_json urls) +:+ "]}}}".

Definition photo_of (url : string) : pyval :=
  VDict [("photoUrls", VDict [("nonFullScreenPhotoUrlCompressed", VStr url)])].

(** A call passes its first GET to the fixed base URL with the header
    dict found at [l], and sends nothing else. *)
Definition sends_headers {A} (b : string) (l : loc) (c : M A) : Prop :=
  ∀ σ d, heap σ !! l = Some d →
    ∃ path p docs,
      trace (snd (c σ)) = (trace σ ++ EvGet (b +:+ path) p d :: map EvLoads docs)%list.

(** A network that is down. *)
Definition down_world (now : datetime) : World :=
  {| http_get := λ _ _ _, Raise ConnectionError;
     json_loads := loads_plain; clock := λ _, now |}.

(** The region methods: the sub-path each one asks for, with its
    arguments; the six methods that take no property type pass [""]. *)
Definition region_call (m : method) : option (string * scalar * scalar * scalar) :=
  match m with
  | GetOfferInsights T R P => Some ("offer-insights", T, R, P)
  | GetBestSchools T R P => Some ("best-schools", T, R, P)
  | GetWalkScoreData T R P => Some ("walk-score-data", T, R, P)
  | GetRegionTrends T R P => Some ("trends", T, R, P)
  | GetFloodRiskData T R => Some ("floodRisk-data", T, R, SStr "")
  | GetMarketInsightsInterlinks T R => Some ("market-insights-interlinks", T, R, SStr "")
  | GetEnvRiskData T R => Some ("envRisk-data", T, R, SStr "")
  | GetHomeFeatureTrends T R => Some ("home-feature-trends/entrypoint", T, R, SStr "")
  | GetCompeteScore T R => Some ("compete-score", T, R, SStr "")
  | GetNearbyCompeteScores T R => Some ("nearby-compete-scores", T, R, SStr "")
  | _ => None
  end.

Definition region_path (suffix : string) (T R P : scalar) : string :=
  if decide (P = SStr "")
  then "api/region/" +:+ py_str T +:+ "/" +:+ py_str R +:+ "/" +:+ suffix
  else "api/region/" +:+ py_str T +:+ "/" +:+ py_str R +:+ "/" +:+ py_str P
         +:+ "/" +:+ suffix.

(** The per-property methods: the sub-path each one asks for, with its
    arguments. *)
Definition property_call (m : method) : option (string * scalar * scalar) :=
  match m with
  | GetPropertyInformation pid lid => Some ("belowTheFold", pid, lid)
  | GetPropertyImages pid lid => Some ("aboveTheFold", pid, lid)
  | GetPropertyTimeseriesEstimate pid lid => Some ("avmHistoricalData", pid, lid)
  | GetSimilarHomes pid lid => Some ("avm", pid, lid)
  | _ => None
  end.

(** The 60 distinct labels left when the month changes between the
    first and the second clock reading: from 57 months before the month
    [idx] of the first reading to 2 months after it. *)
Definition rollover_labels (idx : Z) : list string :=
  map (λ r : nat, label_of_index (idx - 57 + Z.of_nat r)) (seq 0 60).

(** A world whose clock stands at [first] for the first reading and at
    [later] for every reading after it. *)
Definition rolling_world (r : Response) (first later : datetime) : World :=
  {| http_get := λ _ _ _, Ok r; json_loads := loads_plain;
     clock := λ n, if (n =? 0)%nat then first else later |}.

(** The methods that hand the answer to [_format_response]. *)
Definition decodes (m : method) : bool := passes_payload m || reshapes_payload m.

(** [c] sends one GET and decodes the answer once: if the answer has no
    4xx or 5xx status and its text past the first four characters is no
    JSON document, [c] raises [JSONDecodeError] right after the decoding;
    and if [c] returns, the answer was a JSON document. *)
Definition decode_request (w : World) {A} (c : M A) : Prop :=
  ∀ σ,
    (∀ url p h rest r,
       events_since σ (snd (c σ)) = EvGet url p h :: rest →
       http_get w url p h = Ok r → http_failed r = false →
       json_loads w (str_slice_from 4 (text r)) = None →
       fst (c σ) = Raise JSONDecodeError
       ∧ rest = [EvLoads (str_slice_from 4 (text r))])
    ∧ (∀ a σ', c σ = (Ok a, σ') →
       ∃ url p h r,
         events_since σ σ' = [EvGet url p h; EvLoads (str_slice_from 4 (text r))]
         ∧ http_get w url p h = Ok r
         ∧ is_Some (json_loads w (str_slice_from 4 (text r)))).

(** [c] returns what the decoder made of the answer to its GET, whenever
    that answer has no 4xx or 5xx status and is a JSON document past its
    first four characters; it reads no clock and decodes once. *)
Definition payload_returned (w : World) (c : M pyval) : Prop :=
  ∀ σ url p h rest r x,
    events_since σ (snd (c σ)) = EvGet url p h :: rest →
    http_get w url p h = Ok r → http_failed r = false →
    json_loads w (str_slice_from 4 (text r)) = Some x →
    ∃ σ', c σ = (Ok x, σ') ∧ ticks σ' = ticks σ
      ∧ rest = [EvLoads (str_slice_from 4 (text r))].

(** [c] returns the answer to its GET itself, whenever that answer has
    no 4xx or 5xx status, and decodes nothing. *)
Definition response_returned (w : World) (c : M Response) : Prop :=
  ∀ σ url p h rest r,
    events_since σ (snd (c σ)) = EvGet url p h :: rest →
    http_get w url p h = Ok r → http_failed r = false →
    fst (c σ) = Ok r ∧ rest = [].
(** * Results *)

(** ** Running the request helpers *)

Lemma events_since_app σ σ' evs :
  trace σ' = (trace σ ++ evs)%list → events_since σ σ' = evs.
Proof.
  intros E. unfold events_since. rewrite E. apply drop_app_length.
Qed.

Lemma events_since_log σ e : events_since σ (log e σ) = [e].
Proof. by apply events_since_app. Qed.

Lemma py_eq_empty_str (x : scalar) : py_eq x (SStr "") = true ↔ x = SStr "".
Proof.
  destruct x as [s| |]; simpl; split; try congruence.
  - intros E. apply String.eqb_eq in E. by subst.
  - intros E. injection E as ->. reflexivity.
Qed.

Lemma str_slice_from_app (a b : string) :
  str_slice_from (String.length a) (a +:+ b) = b.
Proof. induction a as [|c a IH]; simpl; [by destruct b | exact IH]. Qed.

Lemma str_slice_from_short (n : nat) (s : string) :
  (String.length s ≤ n)%nat → str_slice_from n s = "".
Proof.
  revert s. induction n as [|n IH]; intros [|c s] L; simpl in *; try done; try lia.
  apply IH. lia.
Qed.

Section Runs.

Variable w : World.
Variable self : Redfin.

Lemma redfin_request_run url params σ :
  redfin_request w self url params σ =
    let p := default ∅ (heap σ !! default default_params params) in
    let h := default ∅ (heap σ !! headers self) in
    let σ1 := log (EvGet (base self +:+ url) p h) σ in
    match http_get w (base self +:+ url) p h with
    | Raise e => (Raise e, σ1)
    | Ok r =>
        if (400 <=? status_code r) && (status_code r <? 600)
        then (Raise (HTTPError (status_code r)), σ1)
        else (Ok r, σ1)
    end.
Proof.
  unfold redfin_request, requests_get, raise_for_status, bind, load, emit, lift; simpl.
  destruct (http_get w _ _ _) as [r|e]; [|reflexivity].
  destruct (400 <=? status_code r) eqn:E4, (status_code r <? 500) eqn:E5,
           (500 <=? status_code r) eqn:E6, (status_code r <? 600) eqn:E7;
    simpl; try reflexivity; lia.
Qed.

Lemma format_response_run (r : Response) σ :
  _format_response w self r σ =
    let doc := str_slice_from 4 (text r) in
    (match json_loads w doc with
     | Some x => Ok x
     | None => Raise JSONDecodeError
     end, log (EvLoads doc) σ).
Proof.
  unfold _format_response, loads, bind, emit; simpl.
  by destruct (json_loads w _).
Qed.

Lemma fetch_run url params σ :
  fetch w self url params σ =
    let p := default ∅ (heap σ !! default default_params params) in
    let h := default ∅ (heap σ !! headers self) in
    let σ1 := log (EvGet (base self +:+ url) p h) σ in
    match http_get w (base self +:+ url) p h with
    | Raise e => (Raise e, σ1)
    | Ok r =>
        if (400 <=? status_code r) && (status_code r <? 600)
        then (Raise (HTTPError (status_code r)), σ1)
        else
          let doc := str_slice_from 4 (text r) in
          (match json_loads w doc with
           | Some x => Ok x
           | None => Raise JSONDecodeError
           end, log (EvLoads doc) σ1)
    end.
Proof.
  unfold fetch, bind. rewrite redfin_request_run. simpl.
  destruct (http_get w _ _ _) as [r|e]; [|reflexivity].
  destruct (_ && _); [reflexivity|].
  rewrite format_response_run. simpl. by destruct (json_loads w _).
Qed.

Lemma request_region_data_run url T R P σ :
  request_region_data w self url T R P σ =
    fetch w self (if py_eq P (SStr "")
           then "api/region/" +:+ py_str T +:+ "/" +:+ py_str R +:+ "/" +:+ url
           else "api/region/" +:+ py_str T +:+ "/" +:+ py_str R +:+ "/"
                  +:+ py_str P +:+ "/" +:+ url) None σ.
Proof. reflexivity. Qed.

Lemma fetch_urls url params σ :
  urls_of (events_since σ (snd (fetch w self url params σ))) = [base self +:+ url].
Proof.
  rewrite fetch_run. simpl.
  destruct (http_get w _ _ _) as [r|e]; [destruct (_ && _)|]; simpl.
  - by rewrite events_since_log.
  - erewrite events_since_app; [|simpl; rewrite <- app_assoc; reflexivity].
    reflexivity.
  - by rewrite events_since_log.
Qed.

End Runs.

(** ** Region-data paths *)

(** C8. [request_region_data] sends exactly one GET.  With
    [property_type == ""] its path is [api/region/{T}/{R}/{suffix}];
    with any other property type [P] it is
    [api/region/{T}/{R}/{P}/{suffix}].  For region type 2, region 8729
    and suffix [trends] these are [api/region/2/8729/trends] and, with
    property type 1, [api/region/2/8729/1/trends]. *)
Theorem region_data_path (w : World) (self : Redfin) (suffix : string)
    (T R P : scalar) (σ : state) :
  let sent P' :=
    urls_of (events_since σ (snd (request_region_data w self suffix T R P' σ))) in
  (P = SStr "" →
     sent P = [base self +:+ "api/region/" +:+ py_str T +:+ "/" +:+ py_str R
                 +:+ "/" +:+ suffix])
  ∧ (P ≠ SStr "" →
     sent P = [base self +:+ "api/region/" +:+ py_str T +:+ "/" +:+ py_str R
                 +:+ "/" +:+ py_str P +:+ "/" +:+ suffix])
  ∧ urls_of (events_since σ (snd (request_region_data w (__init__ None) "trends"
                                    (SInt 2) (SInt 8729) (SStr "") σ)))
      = ["https://redfin.com/stingray/api/region/2/8729/trends"]
  ∧ urls_of (events_since σ (snd (request_region_data w (__init__ None) "trends"
                                    (SInt 2) (SInt 8729) (SInt 1) σ)))
      = ["https://redfin.com/stingray/api/region/2/8729/1/trends"].
Proof.
  cbv zeta. repeat split.
  - intros ->. rewrite request_region_data_run. apply fetch_urls.
  - intros NE. rewrite request_region_data_run, fetch_urls.
    destruct (py_eq P (SStr "")) eqn:E; [|reflexivity].
    apply py_eq_empty_str in E. contradiction.
  - rewrite request_region_data_run. apply fetch_urls.
  - rewrite request_region_data_run. apply fetch_urls.
Qed.

Lemma region_data_path_witness :
  urls_of (events_since module_state
             (snd (request_region_data
                     (fixed_world (response_of 200 "{}&&{}") (Build_datetime 2026 11 4))
                     (__init__ None) "best-schools" (SStr "6") (SInt 30818) (SInt 3)
                     module_state)))
  = ["https://redfin.com/stingray/api/region/6/30818/3/best-schools"].
Proof.
  apply (region_data_path
           (fixed_world (response_of 200 "{}&&{}") (Build_datetime 2026 11 4))
           (__init__ None) "best-schools" (SStr "6") (SInt 30818) (SInt 3) module_state).
  discriminate.
Defined.

(** ** Decoding *)

(** C6. [_format_response] returns what [json.loads] makes of the body
    text without its first four characters: the decoded value when that
    text is a JSON document, [JSONDecodeError] when it is not.  A body
    of fewer than four characters leaves the empty text, which is not a
    JSON document, so the call raises [JSONDecodeError]; the slice
    itself never fails. *)
Theorem format_response_decodes (w : World) (self : Redfin) (r : Response)
    (σ : state) :
  (∀ preamble doc, String.length preamble = 4%nat → text r = preamble +:+ doc →
     fst (_format_response w self r σ)
       = match json_loads w doc with
         | Some x => Ok x
         | None => Raise JSONDecodeError
         end)
  ∧ (∀ x, json_loads w (str_slice_from 4 (text r)) = Some x →
       fst (_format_response w self r σ) = Ok x)
  ∧ (json_loads w "" = None → (String.length (text r) < 4)%nat →
       fst (_format_response w self r σ) = Raise JSONDecodeError).
Proof.
  rewrite format_response_run; cbv zeta; cbn [fst]. repeat split.
  - intros preamble doc L E. rewrite E.
    by rewrite <- L, str_slice_from_app.
  - by intros x ->.
  - intros E L. rewrite str_slice_from_short by lia. by rewrite E.
Qed.

Lemma format_response_decodes_witness :
  fst (_format_response (fixed_world (response_of 200 "{}&") (Build_datetime 2026 11 4))
         (__init__ None) (response_of 200 "{}&") module_state)
    = Raise JSONDecodeError
  ∧ fst (_format_response (fixed_world (response_of 200 "{}&&[1, null]") (Build_datetime 2026 11 4))
           (__init__ None) (response_of 200 "{}&&[1, null]") module_state)
    = Ok (VList [VInt 1; VNone]).
Proof.
  split.
  - apply (format_response_decodes
             (fixed_world (response_of 200 "{}&") (Build_datetime 2026 11 4))
             (__init__ None) (response_of 200 "{}&") module_state);
      [reflexivity | simpl; lia].
  - apply (format_response_decodes
             (fixed_world (response_of 200 "{}&&[1, null]") (Build_datetime 2026 11 4))
             (__init__ None) (response_of 200 "{}&&[1, null]") module_state).
    reflexivity.
Defined.

(** ** The property-detail helper *)

Section PropertyData.

Variable w : World.
Variable self : Redfin.

Lemma request_property_data_run url params page σ :
  request_property_data w self url params page σ =
    let d' := marked page (default ∅ (heap σ !! params)) in
    let h1 := marked_heap page params σ in
    let q := fresh (dom h1) in
    fetch w self ("api/home/details/" +:+ url) (Some q)
      (State (<[q := d' ∪ {["accessLevel" := SInt 1]}]> h1) (trace σ) (ticks σ)).
Proof.
  unfold request_property_data, marked_heap, marked.
  destruct page; unfold bind at 1, setitem, ret; simpl.
  - unfold bind at 1, load. simpl. rewrite lookup_insert_eq. reflexivity.
  - reflexivity.
Qed.

Lemma marked_heap_lookup page params σ d :
  heap σ !! params = Some d →
  marked_heap page params σ !! params = Some (marked page d).
Proof.
  intros E. unfold marked_heap. destruct page.
  - by rewrite lookup_insert_eq, E.
  - by rewrite E.
Qed.

Lemma property_data_events url params page σ :
  params_of (events_since σ (snd (request_property_data w self url params page σ)))
    = [marked page (default ∅ (heap σ !! params)) ∪ {["accessLevel" := SInt 1]}].
Proof.
  rewrite request_property_data_run. cbv zeta. rewrite fetch_run. cbn [default].
  cbv zeta. cbn [heap trace ticks]. rewrite lookup_insert_eq. cbn [default].
  destruct (http_get w _ _ _) as [r|e]; [destruct (_ && _)|]; cbn [snd].
  - erewrite events_since_app; [|reflexivity]. reflexivity.
  - erewrite events_since_app; [|simpl; rewrite <- app_assoc; reflexivity].
    reflexivity.
  - erewrite events_since_app; [|reflexivity]. reflexivity.
Qed.

Lemma property_data_heap url params page σ d :
  heap σ !! params = Some d →
  heap (snd (request_property_data w self url params page σ)) !! params
    = Some (marked page d).
Proof.
  intros E. rewrite request_property_data_run. cbv zeta. rewrite fetch_run.
  cbv zeta. cbn [heap trace ticks].
  assert (heap (snd (let r := (Ok tt, State (<[fresh (dom (marked_heap page params σ))
               := marked page (default ∅ (heap σ !! params)) ∪ {["accessLevel" := SInt 1]}]>
               (marked_heap page params σ)) (trace σ) (ticks σ)) in r)) !! params
          = Some (marked page d)) as H.
  { cbn. rewrite lookup_insert_ne.
    - by apply marked_heap_lookup.
    - intros F. pose proof (is_fresh (dom (marked_heap page params σ))) as N.
      rewrite F in N. apply N, elem_of_dom. rewrite (marked_heap_lookup _ _ _ d E). eauto. }
  cbn in H.
  destruct (http_get w _ _ _) as [r|e]; [destruct (_ && _)|]; cbn [snd log heap]; exact H.
Qed.

End PropertyData.

(** C1, as stated, fails: a caller's [{"accessLevel": 2}] is sent as
    [accessLevel=2]. *)
Lemma access_level_overridden :
  let '(params, σ) := with_dict {["accessLevel" := SInt 2]} in
  ¬ access_level_protected
      (fixed_world (response_of 200 "{}&&{}") (Build_datetime 2026 11 4))
      (__init__ None) "avm" params false σ.
Proof.
  unfold with_dict, access_level_protected. intros H.
  specialize (H ({["accessLevel" := SInt 2]} ∪ {["accessLevel" := SInt 1]})).
  rewrite property_data_events in H.
  assert (({["accessLevel" := SInt 2]} ∪ {["accessLevel" := SInt 1]}
            : gmap string scalar) !! "accessLevel" = Some (SInt 2)) as E
    by (vm_compute; reflexivity).
  rewrite E in H. enough (Some (SInt 2) = Some (SInt 1)) by discriminate.
  apply H. vm_compute. apply list_elem_of_here.
Qed.

(** C1, amended.  The one GET of [request_property_data] carries the
    caller's entries (with [pageType] set to 3 when [page] is true)
    over the default [accessLevel=1]: [accessLevel] is sent as 1 when
    the caller's dict has no such key and as the caller's own value
    when it has one, and with [page=True] the query has [pageType=3]
    whatever the caller's dict held. *)
Theorem property_data_query (w : World) (self : Redfin) (url : string)
    (params : loc) (page : bool) (σ : state) (d : gmap string scalar) :
  heap σ !! params = Some d →
  ∃ q, params_of (events_since σ
                    (snd (request_property_data w self url params page σ))) = [q]
    ∧ q = marked page d ∪ {["accessLevel" := SInt 1]}
    ∧ q !! "accessLevel" = Some (default (SInt 1) (d !! "accessLevel"))
    ∧ (d !! "accessLevel" = None → q !! "accessLevel" = Some (SInt 1))
    ∧ (page = true → q !! "pageType" = Some (SInt 3))
    ∧ (∀ k, k ≠ "accessLevel" → k ≠ "pageType" → q !! k = d !! k).
Proof.
  intros E. eexists. split; [|split; [reflexivity|]].
  { rewrite property_data_events, E. reflexivity. }
  assert (marked page d !! "accessLevel" = d !! "accessLevel") as A.
  { destruct page; simpl; [by rewrite lookup_insert_ne|done]. }
  repeat split.
  - rewrite lookup_union, A, lookup_singleton_eq.
    by destruct (d !! "accessLevel").
  - intros N. rewrite lookup_union, A, N, lookup_singleton_eq. reflexivity.
  - intros ->. simpl. rewrite lookup_union, lookup_insert_eq. reflexivity.
  - intros k N1 N2. rewrite lookup_union, lookup_singleton_ne by done.
    destruct page; simpl; [rewrite lookup_insert_ne by done|];
      by destruct (d !! k).
Qed.

Lemma property_data_query_witness :
  ∃ q, params_of (events_since (with_dict {["propertyId" := SInt 9701815]}).2
          (snd (request_property_data
                  (fixed_world (response_of 200 "{}&&{}") (Build_datetime 2026 11 4))
                  (__init__ None) "tourInsights"
                  (with_dict {["propertyId" := SInt 9701815]}).1 true
                  (with_dict {["propertyId" := SInt 9701815]}).2))) = [q]
    ∧ q !! "accessLevel" = Some (SInt 1)
    ∧ q !! "pageType" = Some (SInt 3)
    ∧ q !! "propertyId" = Some (SInt 9701815).
Proof.
  destruct (property_data_query
              (fixed_world (response_of 200 "{}&&{}") (Build_datetime 2026 11 4))
              (__init__ None) "tourInsights"
              (with_dict {["propertyId" := SInt 9701815]}).1 true
              (with_dict {["propertyId" := SInt 9701815]}).2
              {["propertyId" := SInt 9701815]})
    as (q & Hq & _ & _ & Ha & Hp & Hk).
  - vm_compute. reflexivity.
  - exists q. repeat split.
    + exact Hq.
    + apply Ha. vm_compute. reflexivity.
    + apply Hp. reflexivity.
    + rewrite Hk by done. vm_compute. reflexivity.
Defined.

(** C9, as stated, fails: a dict that already maps [pageType] to 3 is
    the same after a call with [page=True]. *)
Lemma page_type_already_three :
  let '(params, σ) := with_dict {["pageType" := SInt 3]} in
  ¬ page_changes_params
      (fixed_world (response_of 200 "{}&&{}") (Build_datetime 2026 11 4))
      (__init__ None) "avm" params σ.
Proof.
  unfold with_dict, page_changes_params. intros H. apply H.
  rewrite (property_data_heap _ _ _ _ _ _ {["pageType" := SInt 3]})
    by (vm_compute; reflexivity).
  simpl. rewrite insert_singleton_eq. vm_compute. reflexivity.
Qed.

(** C9, amended.  With [page=True], [request_property_data] stores
    [pageType=3] into the caller's own dict before it sends the request
    (the GET already carries it), and the store outlasts the call,
    whether it returns or raises: afterwards the caller's dict is the
    one passed in with [pageType] set to 3, which differs from the one
    passed in exactly when that did not already map [pageType] to 3.
    With [page=False] the caller's dict is unchanged. *)
Theorem page_type_written_in_place (w : World) (self : Redfin) (url : string)
    (params : loc) (σ : state) (d : gmap string scalar) :
  heap σ !! params = Some d →
  let after page := heap (snd (request_property_data w self url params page σ)) !! params in
  after true = Some (<["pageType" := SInt 3]> d)
  ∧ (∀ q, q ∈ params_of (events_since σ
                           (snd (request_property_data w self url params true σ))) →
          q !! "pageType" = Some (SInt 3))
  ∧ (after true ≠ heap σ !! params ↔ d !! "pageType" ≠ Some (SInt 3))
  ∧ after false = Some d.
Proof.
  intros E. cbv beta zeta.
  rewrite !(property_data_heap _ _ _ _ _ _ d E). simpl. repeat split.
  - intros q. rewrite property_data_events, E. simpl.
    intros ->%list_elem_of_singleton.
    rewrite lookup_union, lookup_insert_eq. reflexivity.
  - intros N F. apply N. rewrite E. f_equal. by apply insert_id.
  - intros N F. apply N. rewrite E in F. injection F as F.
    rewrite <- F. apply lookup_insert_eq.
Qed.

Lemma page_type_written_in_place_witness :
  heap (snd (request_property_data
               (fixed_world (response_of 503 "busy") (Build_datetime 2026 11 4))
               (__init__ None) "tourInsights"
               (with_dict {["propertyId" := SInt 9701815]}).1 true
               (with_dict {["propertyId" := SInt 9701815]}).2))
    !! (with_dict {["propertyId" := SInt 9701815]}).1
  = Some (<["pageType" := SInt 3]> {["propertyId" := SInt 9701815]}).
Proof.
  pose proof (page_type_written_in_place
                (fixed_world (response_of 503 "busy") (Build_datetime 2026 11 4))
                (__init__ None) "tourInsights"
                (with_dict {["propertyId" := SInt 9701815]}).1
                (with_dict {["propertyId" := SInt 9701815]}).2
                {["propertyId" := SInt 9701815]}) as H.
  cbv beta zeta in H. destruct H as [H _]; [vm_compute; reflexivity|].
  exact H.
Defined.

(** ** Region-id extraction *)

Lemma str_app_empty_r (s : string) : s +:+ "" = s.
Proof.
  induction s as [|c s IH]; [done|].
  change (String c (s +:+ "") = String c s). by rewrite IH.
Qed.

Lemma str_app_assoc (a b c : string) : (a +:+ b) +:+ c = a +:+ (b +:+ c).
Proof.
  induction a as [|x a IH]; [done|].
  change (String x ((a +:+ b) +:+ c) = String x (a +:+ (b +:+ c))). by rewrite IH.
Qed.

Lemma rsplit_go_no_sep sep s field :
  has_char sep s = false → rsplit_go sep s field = [field +:+ s].
Proof.
  revert field. induction s as [|c s IH]; intros field H; simpl in *.
  - by rewrite str_app_empty_r.
  - apply orb_false_iff in H as [Hc Hs]. rewrite Hc, (IH _ Hs).
    by rewrite str_app_assoc.
Qed.

Lemma rsplit_go_first sep a b field :
  has_char sep a = false →
  rsplit_go sep (a +:+ String sep b) field = (field +:+ a) :: rsplit_go sep b "".
Proof.
  revert field. induction a as [|c a IH]; intros field H; simpl in *.
  - by rewrite Ascii.eqb_refl, str_app_empty_r.
  - apply orb_false_iff in H as [Hc Ha]. rewrite Hc, (IH _ Ha).
    by rewrite str_app_assoc.
Qed.

Lemma suffix_after_first_app sep a b :
  has_char sep a = false → suffix_after_first sep (a +:+ String sep b) = Some b.
Proof.
  induction a as [|c a IH]; intros H; simpl in *.
  - by rewrite Ascii.eqb_refl.
  - apply orb_false_iff in H as [Hc Ha]. rewrite Hc. by apply IH.
Qed.

Lemma get_region_id_run self resp σ :
  get_region_id self resp σ =
    (match row_id resp with
     | Ok id =>
         match py_rsplit id "_" with
         | Ok fields => getitem_idx fields 1
         | Raise e => Raise e
         end
     | Raise e => Raise e
     end, σ).
Proof.
  unfold get_region_id, row_id, bind, lift, ret.
  repeat (match goal with
          | |- context [match ?r with Ok _ => _ | Raise _ => _ end] =>
              lazymatch r with
              | getitem_key _ _ => destruct r
              | getitem_idx _ _ => destruct r
              | py_rsplit _ _ => destruct r
              end
          end; try reflexivity).
Qed.

(** C4, as stated, fails: for the id [6_30818_1] the suffix after the
    first underscore is [30818_1], the code returns [30818]. *)
Lemma region_id_two_underscores :
  ¬ region_id_is_suffix (__init__ None) "6_30818_1".
Proof.
  intros H. specialize (H "30818_1" eq_refl). vm_compute in H. discriminate H.
Qed.

(** C4, amended.  [get_region_id] reads the [id] of the first row of the
    first section and returns its second underscore-separated field:
    the whole suffix after the underscore when the id has exactly one
    (so [123_456] gives [456]), the text between the first and the
    second underscore when it has more.  With an empty [sections] list,
    or an empty [rows] list, it raises [IndexError]. *)
Theorem get_region_id_second_field (self : Redfin) (resp : pyval)
    (σ : state) (a b c : string) :
  has_char "_" a = false → has_char "_" b = false →
  (row_id resp = Ok (VStr (a +:+ "_" +:+ b)) →
     suffix_after_first "_" (a +:+ "_" +:+ b) = Some b
     ∧ get_region_id self resp σ = (Ok (VStr b), σ))
  ∧ (row_id resp = Ok (VStr (a +:+ "_" +:+ b +:+ "_" +:+ c)) →
     get_region_id self resp σ = (Ok (VStr b), σ))
  ∧ get_region_id self (search_response_with_id "123_456") σ = (Ok (VStr "456"), σ)
  ∧ get_region_id self (search_response_of []) σ = (Raise IndexError, σ)
  ∧ get_region_id self (search_response_of [VDict [("rows", VList [])]]) σ
      = (Raise IndexError, σ).
Proof.
  intros Ha Hb. repeat split.
  - by apply (suffix_after_first_app "_" a b).
  - rewrite get_region_id_run, H. simpl. unfold rsplit.
    change (a +:+ "_" +:+ b) with (a +:+ String "_" b).
    rewrite rsplit_go_first, rsplit_go_no_sep by done. reflexivity.
  - intros H. rewrite get_region_id_run, H. simpl. unfold rsplit.
    change (a +:+ "_" +:+ b +:+ "_" +:+ c) with (a +:+ String "_" (b +:+ String "_" c)).
    rewrite !rsplit_go_first by done. reflexivity.
Qed.

Lemma get_region_id_second_field_witness :
  get_region_id (__init__ None) (search_response_with_id "2_8729") module_state
  = (Ok (VStr "8729"), module_state).
Proof.
  destruct (get_region_id_second_field (__init__ None)
              (search_response_with_id "2_8729") module_state "2" "8729" ""
              eq_refl eq_refl) as [H _].
  destruct (H eq_refl) as [_ E]. exact E.
Defined.

(** ** One request per call *)

Lemma bind_run {A B} (c : M A) (k : A → M B) σ :
  bind c k σ = match c σ with
               | (Ok a, σ') => k a σ'
               | (Raise e, σ') => (Raise e, σ')
               end.
Proof. reflexivity. Qed.

Lemma no_http_ok {A} (a : A) : no_http (Ok a).
Proof. intros s. discriminate. Qed.

Lemma no_http_getitem_key x k : no_http (getitem_key x k).
Proof. intros s. destruct x; simpl; try discriminate. by destruct (assoc k items). Qed.

Lemma no_http_getitem_idx x i : no_http (getitem_idx x i).
Proof.
  intros s. destruct x; simpl; try discriminate.
  - by destruct (str_get i s0).
  - by destruct (l !! i).
Qed.

Lemma no_http_py_len x : no_http (py_len x).
Proof. intros s. by destruct x. Qed.

Lemma no_http_py_iter x : no_http (py_iter x).
Proof. intros s. by destruct x. Qed.

Lemma no_http_list_getitem l i : no_http (list_getitem l i).
Proof. intros s. unfold list_getitem. by destruct (l !! i). Qed.

Lemma no_http_datetime_sub dt r : no_http (datetime_sub dt r).
Proof.
  intros s. unfold datetime_sub, rd_radd.
  destruct (if rd_months (rd_neg r) =? 0 then _ else _) as [y m].
  by destruct (_ && _).
Qed.

Create HintDb calls.

#[local] Hint Resolve no_http_ok no_http_getitem_key no_http_getitem_idx
  no_http_py_len no_http_py_iter no_http_list_getitem no_http_datetime_sub : calls.

Lemma decodes_only_ret {A} (a : A) : decodes_only (ret a).
Proof.
  intros σ. split; [exists []; simpl; by rewrite app_nil_r | apply no_http_ok].
Qed.

Lemma decodes_only_lift {A} (r : result A) : no_http r → decodes_only (lift r).
Proof.
  intros H σ. split; [exists []; simpl; by rewrite app_nil_r | exact H].
Qed.

Lemma decodes_only_bind {A B} (c : M A) (k : A → M B) :
  decodes_only c → (∀ a, decodes_only (k a)) → decodes_only (bind c k).
Proof.
  intros Hc Hk σ. rewrite bind_run.
  destruct (Hc σ) as [[docs Ht] Hn]. destruct (c σ) as [[a|e] σ1]; simpl in *.
  - destruct (Hk a σ1) as [[docs' Ht'] Hn']. split; [|exact Hn'].
    exists (docs ++ docs')%list. rewrite Ht', Ht, map_app, app_assoc. reflexivity.
  - split; [by exists docs|]. intros s F. apply (Hn s). congruence.
Qed.

Lemma decodes_only_format w self r : decodes_only (_format_response w self r).
Proof.
  intros σ. rewrite format_response_run. simpl. split.
  - by exists [str_slice_from 4 (text r)].
  - intros s. by destruct (json_loads w _).
Qed.

Lemma decodes_only_today w : decodes_only (today w).
Proof.
  intros σ. split; [exists []; simpl; by rewrite app_nil_r | apply no_http_ok].
Qed.

Lemma decodes_only_mapM {A B} (f : A → M B) (l : list A) :
  (∀ a, decodes_only (f a)) → decodes_only (mapM f l).
Proof.
  intros Hf. induction l as [|a l IH]; simpl.
  - apply decodes_only_ret.
  - apply decodes_only_bind; [apply Hf|]. intros b.
    apply decodes_only_bind; [apply IH|]. intros bs. apply decodes_only_ret.
Qed.

Lemma decodes_only_foldM {A B} (f : B → A → M B) (l : list A) (b : B) :
  (∀ b a, decodes_only (f b a)) → decodes_only (foldM f l b).
Proof.
  intros Hf. revert b. induction l as [|a l IH]; intros b; simpl.
  - apply decodes_only_ret.
  - apply decodes_only_bind; [apply Hf | apply IH].
Qed.

#[local] Hint Resolve decodes_only_ret decodes_only_lift decodes_only_format
  decodes_only_today : calls.

Ltac decodes_only_tac :=
  repeat first
    [ apply decodes_only_ret
    | apply decodes_only_format
    | apply decodes_only_today
    | apply decodes_only_lift; solve [auto with calls]
    | apply decodes_only_mapM; intros
    | apply decodes_only_foldM; intros
    | apply decodes_only_bind; [|intros] ].

Lemma silent_new_dict d : silent (new_dict d).
Proof. intros σ. split; [by eexists | reflexivity]. Qed.

Lemma silent_setitem l k x : silent (setitem l k x).
Proof. intros σ. split; [by eexists | reflexivity]. Qed.

Lemma silent_ret {A} (a : A) : silent (ret a).
Proof. intros σ. split; [by eexists | reflexivity]. Qed.

Lemma silent_load l : silent (load l).
Proof. intros σ. split; [by eexists | reflexivity]. Qed.

Lemma one_request_redfin w self url params :
  one_request w (redfin_request w self url params).
Proof.
  intros σ. rewrite redfin_request_run. cbv zeta.
  eexists _, _, _, []. split.
  - destruct (http_get w _ _ _) as [r|e]; [destruct (_ && _)|]; reflexivity.
  - destruct (http_get w _ _ _) as [r|e]; [|done].
    unfold http_failed. destruct (_ && _); [done|]. apply no_http_ok.
Qed.

Lemma one_request_then {A B} w (c : M A) (k : A → M B) :
  one_request w c → (∀ a, decodes_only (k a)) → one_request w (bind c k).
Proof.
  intros Hc Hk σ. rewrite bind_run.
  destruct (Hc σ) as (url & p & h & docs & Ht & Hr).
  destruct (c σ) as [[a|e] σ1]; simpl in *.
  - destruct (Hk a σ1) as [[docs' Ht'] Hn'].
    exists url, p, h, (docs ++ docs')%list. split.
    + rewrite Ht', Ht, map_app, <- app_assoc. reflexivity.
    + destruct (http_get w url p h) as [r|e]; [|by destruct Hr].
      destruct (http_failed r); [by destruct Hr | exact Hn'].
  - exists url, p, h, docs. split; [exact Ht|].
    destruct (http_get w url p h) as [r|e0].
    + destruct (http_failed r).
      * destruct Hr as [Hr ->]. split; [congruence | done].
      * intros s F. apply (Hr s). congruence.
    + destruct Hr as [Hr ->]. split; [congruence | done].
Qed.

Lemma one_request_after {A B} w (c : M A) (k : A → M B) :
  silent c → (∀ a, one_request w (k a)) → one_request w (bind c k).
Proof.
  intros Hc Hk σ. rewrite bind_run.
  destruct (Hc σ) as [[a Ha] Ht]. destruct (c σ) as [[a'|e] σ1]; simpl in *; [|done].
  destruct (Hk a' σ1) as (url & p & h & docs & Ht' & Hr).
  exists url, p, h, docs. rewrite <- Ht. split; [exact Ht' | exact Hr].
Qed.

Ltac one_request_tac :=
  repeat first
    [ apply one_request_redfin
    | apply one_request_after;
        [ first [ apply silent_new_dict | apply silent_setitem
                | apply silent_ret | apply silent_load ] | intros ]
    | apply one_request_then; [| intros; decodes_only_tac ] ].

Lemma one_request_property_data w self url params page :
  one_request w (request_property_data w self url params page).
Proof.
  unfold request_property_data.
  apply one_request_after; [destruct page; [apply silent_setitem|apply silent_ret]|].
  intros _. one_request_tac.
Qed.

Lemma one_request_region_data w self url T R P :
  one_request w (request_region_data w self url T R P).
Proof. unfold request_region_data. one_request_tac. Qed.

(** Every public method that reaches the server sends exactly one GET. *)
Lemma one_request_invoke w self m : one_request w (invoke w self m).
Proof.
  destruct m; unfold invoke, fmap_M;
    (apply one_request_then; [|intros; decodes_only_tac]);
    try apply one_request_property_data; try apply one_request_region_data;
    unfold search, get_search_results_table, primary_region, shared_region,
      get_recently_sold, get_property_information, get_property_images,
      get_property_timeseries_estimate, get_similar_homes, get_offer_insights,
      get_best_schools, get_walk_score_data, get_region_trends, get_flood_risk_data,
      get_market_insights_interlinks, get_env_risk_data, get_home_feature_trends,
      get_compete_score, get_nearby_compete_scores, property_params, month_label;
    repeat first
      [ apply one_request_redfin
      | apply one_request_property_data
      | apply one_request_region_data
      | apply one_request_after; [apply silent_new_dict | intros]
      | apply one_request_then; [| intros; decodes_only_tac ] ].
Qed.

(** ** Failed requests *)

(** C7, as stated, fails: a 304 answer is not in 2xx, yet
    [primary_region] raises nothing and hands the response back. *)
Lemma not_modified_is_returned :
  ¬ non_2xx_raises (fixed_world (response_of 304 "") (Build_datetime 2026 11 4))
      (__init__ None) (PrimaryRegion "/NY/Albany/363-Elk-St-12206/home/97942731")
      module_state.
Proof.
  intros H.
  specialize (H _ _ _ _ (response_of 304 "") eq_refl eq_refl).
  assert (¬ 200 ≤ status_code (response_of 304 "") < 300) as N by (simpl; lia).
  specialize (H N). vm_compute in H. discriminate H.
Qed.

(** C7, amended.  Every method sends its one GET first.  When the
    answer has a status from 400 to 599 the call raises [HTTPError]
    with that status, and it has decoded nothing: the GET is the only
    event of the call.  For any other status, inside 2xx or not, the
    call raises no [HTTPError]. *)
Theorem http_error_iff_4xx_5xx (w : World) (self : Redfin) (m : method) (σ : state)
    (url : string) (p h : gmap string scalar) (rest : list event) (r : Response) :
  events_since σ (snd (invoke w self m σ)) = EvGet url p h :: rest →
  http_get w url p h = Ok r →
  (400 ≤ status_code r < 600 ↔ ∃ s, fst (invoke w self m σ) = Raise (HTTPError s))
  ∧ (400 ≤ status_code r < 600 →
       fst (invoke w self m σ) = Raise (HTTPError (status_code r)) ∧ rest = []).
Proof.
  intros Hev Hr.
  destruct (one_request_invoke w self m σ) as (url' & p' & h' & docs & Ht & Hres).
  rewrite (events_since_app _ _ _ Ht) in Hev. injection Hev as -> -> -> <-.
  rewrite Hr in Hres. unfold http_failed in Hres.
  destruct ((400 <=? status_code r) && (status_code r <? 600)) eqn:E.
  - destruct Hres as [Hf ->]. apply andb_true_iff in E as [E1 E2].
    split; [split; [eauto | intros _; lia] | done].
  - assert (¬ 400 ≤ status_code r < 600) as N.
    { intros [N1 N2]. apply andb_false_iff in E as [E|E]; lia. }
    split; [split; [done | intros [s Hs]; by destruct (Hres s)] | done].
Qed.

Lemma http_error_iff_4xx_5xx_witness :
  fst (invoke (fixed_world (response_of 404 "{}&&{}") (Build_datetime 2026 11 4))
         (__init__ None) (GetRegionTrends (SInt 2) (SInt 8729) (SStr "")) module_state)
    = Raise (HTTPError 404)
  ∧ events_since module_state
      (snd (invoke (fixed_world (response_of 404 "{}&&{}") (Build_datetime 2026 11 4))
              (__init__ None) (GetRegionTrends (SInt 2) (SInt 8729) (SStr ""))
              module_state))
    = [EvGet "https://redfin.com/stingray/api/region/2/8729/trends" ∅
         {["user-agent" := SStr ""]}].
Proof.
  destruct (http_error_iff_4xx_5xx
              (fixed_world (response_of 404 "{}&&{}") (Build_datetime 2026 11 4))
              (__init__ None) (GetRegionTrends (SInt 2) (SInt 8729) (SStr ""))
              module_state
              "https://redfin.com/stingray/api/region/2/8729/trends" ∅
              {["user-agent" := SStr ""]} [] (response_of 404 "{}&&{}"))
    as [_ H].
  - vm_compute. reflexivity.
  - reflexivity.
  - destruct H as [H _]; [simpl; lia|]. split; [exact H|].
    vm_compute. reflexivity.
Defined.

(** ** The client's configuration *)

Lemma keeps_ret {A} l (a : A) : keeps l (ret a).
Proof. by intros σ _. Qed.

Lemma keeps_lift {A} l (r : result A) : keeps l (lift r).
Proof. by intros σ _. Qed.

Lemma keeps_load l l' : keeps l (load l').
Proof. by intros σ _. Qed.

Lemma keeps_emit l e : keeps l (emit e).
Proof. by intros σ _. Qed.

Lemma keeps_today w l : keeps l (today w).
Proof. by intros σ _. Qed.

Lemma keeps_new_dict l d : keeps l (new_dict d).
Proof.
  intros σ Hl. simpl. apply lookup_insert_ne. intros F.
  pose proof (is_fresh (dom (heap σ))) as N. rewrite F in N.
  by apply N, elem_of_dom.
Qed.

Lemma keeps_setitem l l' k x : l' ≠ l → keeps l (setitem l' k x).
Proof. intros N σ _. simpl. by apply lookup_insert_ne. Qed.

Lemma keeps_bind {A B} l (c : M A) (k : A → M B) :
  keeps l c → (∀ a, keeps l (k a)) → keeps l (bind c k).
Proof.
  intros Hc Hk σ Hl. rewrite bind_run. specialize (Hc σ Hl).
  destruct (c σ) as [[a|e] σ1]; simpl in *; [|exact Hc].
  rewrite <- Hc. apply Hk. by rewrite Hc.
Qed.

Lemma keeps_mapM {A B} l (f : A → M B) (xs : list A) :
  (∀ a, keeps l (f a)) → keeps l (mapM f xs).
Proof.
  intros Hf. induction xs as [|a xs IH]; simpl; [apply keeps_ret|].
  apply keeps_bind; [apply Hf|]. intros b.
  apply keeps_bind; [apply IH|]. intros bs. apply keeps_ret.
Qed.

Lemma keeps_foldM {A B} l (f : B → A → M B) (xs : list A) (b : B) :
  (∀ b a, keeps l (f b a)) → keeps l (foldM f xs b).
Proof.
  intros Hf. revert b. induction xs as [|a xs IH]; intros b; simpl; [apply keeps_ret|].
  apply keeps_bind; [apply Hf | apply IH].
Qed.

Lemma keeps_raise_for_status l r : keeps l (raise_for_status r).
Proof.
  intros σ _. unfold raise_for_status.
  destruct (_ && _); [reflexivity|]. destruct (_ && _); reflexivity.
Qed.

Lemma keeps_loads w l doc : keeps l (loads w doc).
Proof.
  unfold loads. apply keeps_bind; [apply keeps_emit|]. intros _ σ _.
  by destruct (json_loads w doc).
Qed.

Ltac keeps_tac :=
  repeat first
    [ apply keeps_ret | apply keeps_lift | apply keeps_load | apply keeps_emit
    | apply keeps_today | apply keeps_new_dict | apply keeps_raise_for_status
    | apply keeps_loads
    | apply keeps_mapM; intros
    | apply keeps_foldM; intros
    | apply keeps_bind; [|intros] ].

Lemma keeps_redfin_request w self l url params :
  keeps l (redfin_request w self url params).
Proof. unfold redfin_request, requests_get. keeps_tac. Qed.

Lemma keeps_format_response w self l r : keeps l (_format_response w self r).
Proof. unfold _format_response. keeps_tac. Qed.

Lemma keeps_region_data w self l url T R P :
  keeps l (request_region_data w self url T R P).
Proof.
  unfold request_region_data.
  apply keeps_bind; [apply keeps_redfin_request|]. intros r.
  apply keeps_bind; [apply keeps_format_response|]. intros x. apply keeps_ret.
Qed.

Lemma keeps_property_data w self l url params page :
  (page = true → params ≠ l) →
  keeps l (request_property_data w self url params page).
Proof.
  intros N. unfold request_property_data.
  apply keeps_bind.
  { destruct page; [apply keeps_setitem; by apply N | apply keeps_ret]. }
  intros _. apply keeps_bind; [apply keeps_load|]. intros d.
  apply keeps_bind; [apply keeps_new_dict|]. intros q.
  apply keeps_bind; [apply keeps_redfin_request|]. intros r.
  apply keeps_bind; [apply keeps_format_response|]. intros x. apply keeps_ret.
Qed.

Lemma keeps_invoke w self l m :
  (∀ url params, m = RequestPropertyData url params true → params ≠ l) →
  keeps l (invoke w self m).
Proof.
  intros N.
  destruct m; unfold invoke, fmap_M, search, get_search_results_table,
      primary_region, shared_region,
      get_recently_sold, get_property_information, get_property_images,
      get_property_timeseries_estimate, get_similar_homes, get_offer_insights,
      get_best_schools, get_walk_score_data, get_region_trends, get_flood_risk_data,
      get_market_insights_interlinks, get_env_risk_data, get_home_feature_trends,
      get_compete_score, get_nearby_compete_scores, property_params, month_label;
    repeat lazymatch goal with
      | |- keeps _ (bind _ _) => apply keeps_bind; [|intros]
      | |- keeps _ (ret _) => apply keeps_ret
      | |- keeps _ (lift _) => apply keeps_lift
      | |- keeps _ (new_dict _) => apply keeps_new_dict
      | |- keeps _ (today _) => apply keeps_today
      | |- keeps _ (mapM _ _) => apply keeps_mapM; intros
      | |- keeps _ (foldM _ _ _) => apply keeps_foldM; intros
      | |- keeps _ (redfin_request _ _ _ _) => apply keeps_redfin_request
      | |- keeps _ (_format_response _ _ _) => apply keeps_format_response
      | |- keeps _ (request_region_data _ _ _ _ _ _) => apply keeps_region_data
      | |- keeps _ (request_property_data _ _ _ _ false) =>
          apply keeps_property_data; discriminate
      | |- keeps _ (request_property_data _ _ _ _ _) =>
          apply keeps_property_data; intros ->; by eapply N
      end.
Qed.

(** C5, as stated, fails: two clients built with the default argument
    hold the same dict, so a store through the first shows through the
    second. *)
Lemma default_headers_leak :
  ¬ default_headers_independent "user-agent" (SStr "Mozilla/5.0") module_state.
Proof.
  unfold default_headers_independent. cbv zeta.
  change (headers (__init__ None)) with default_headers.
  unfold setitem, module_state. cbn [snd heap].
  rewrite !lookup_insert_eq. cbn [default]. intros F. apply (inj Some) in F.
  apply (f_equal (λ d : gmap string scalar, d !! "user-agent")) in F.
  rewrite lookup_insert_eq, lookup_singleton_eq in F. discriminate F.
Qed.

(** C5, amended.  No method rebinds the base URL or the header dict of
    a client, and a call leaves the contents of the header dict as they
    were unless it is [request_property_data] with [page=True] given
    that very dict as [params].  The dict is held by reference: clients
    built with the default argument all hold the one default dict, so a
    store through one is seen through every other, while clients built
    from two different dicts do not see each other's stores. *)
Theorem headers_held_by_reference (w : World) (self : Redfin) (m : method)
    (σ : state) (h1 h2 : loc) (k : string) (x : scalar) :
  is_Some (heap σ !! headers self) →
  (marks_headers self m = false →
     heap (snd (invoke w self m σ)) !! headers self = heap σ !! headers self)
  ∧ headers (__init__ None) = default_headers
  ∧ base (__init__ (Some h1)) = base (__init__ None)
  ∧ heap (snd (setitem (headers (__init__ None)) k x σ)) !! headers (__init__ None)
      = Some (<[k := x]> (default ∅ (heap σ !! default_headers)))
  ∧ (h1 ≠ h2 →
     heap (snd (setitem (headers (__init__ (Some h1))) k x σ))
       !! headers (__init__ (Some h2)) = heap σ !! h2).
Proof.
  intros Hh. repeat split.
  - intros Hm. apply keeps_invoke; [|exact Hh].
    intros url params -> ->. simpl in Hm. by rewrite bool_decide_eq_true_2 in Hm.
  - simpl. apply lookup_insert_eq.
  - intros N. simpl. by apply lookup_insert_ne.
Qed.

Lemma headers_held_by_reference_witness :
  heap (snd (invoke (fixed_world (response_of 200 "{}&&{}") (Build_datetime 2026 11 4))
               (__init__ None) (GetSimilarHomes (SInt 9701815) (SStr "")) module_state))
    !! headers (__init__ None)
  = heap module_state !! headers (__init__ None).
Proof.
  destruct (headers_held_by_reference
              (fixed_world (response_of 200 "{}&&{}") (Build_datetime 2026 11 4))
              (__init__ None) (GetSimilarHomes (SInt 9701815) (SStr "")) module_state
              default_headers default_params "user-agent" (SStr "")) as [H _].
  - exists {["user-agent" := SStr ""]}. apply lookup_insert_eq.
  - apply H. reflexivity.
Defined.

(** ** What the methods return *)

Lemma bind_ok_inv {A B} (c : M A) (k : A → M B) σ b σ' :
  bind c k σ = (Ok b, σ') → ∃ a σ1, c σ = (Ok a, σ1) ∧ k a σ1 = (Ok b, σ').
Proof.
  rewrite bind_run. destruct (c σ) as [[a|e] σ1]; [eauto | discriminate].
Qed.

Lemma events_since_same σ σ1 σ' :
  trace σ1 = trace σ → events_since σ1 σ' = events_since σ σ'.
Proof. unfold events_since. by intros ->. Qed.

Lemma quiet_ret {A} (a : A) : quiet (ret a).
Proof. by intros σ. Qed.

Lemma quiet_lift {A} (r : result A) : quiet (lift r).
Proof. by intros σ. Qed.

Lemma quiet_today w : quiet (today w).
Proof. by intros σ. Qed.

Lemma quiet_new_dict d : quiet (new_dict d).
Proof. by intros σ. Qed.

Lemma quiet_bind {A B} (c : M A) (k : A → M B) :
  quiet c → (∀ a, quiet (k a)) → quiet (bind c k).
Proof.
  intros Hc Hk σ. rewrite bind_run. specialize (Hc σ).
  destruct (c σ) as [[a|e] σ1]; simpl in *; [|exact Hc].
  by rewrite Hk.
Qed.

Lemma quiet_mapM {A B} (f : A → M B) (xs : list A) :
  (∀ a, quiet (f a)) → quiet (mapM f xs).
Proof.
  intros Hf. induction xs as [|a xs IH]; simpl; [apply quiet_ret|].
  apply quiet_bind; [apply Hf|]. intros b.
  apply quiet_bind; [apply IH|]. intros bs. apply quiet_ret.
Qed.

Lemma quiet_foldM {A B} (f : B → A → M B) (xs : list A) (b : B) :
  (∀ b a, quiet (f b a)) → quiet (foldM f xs b).
Proof.
  intros Hf. revert b. induction xs as [|a xs IH]; intros b; simpl; [apply quiet_ret|].
  apply quiet_bind; [apply Hf | apply IH].
Qed.

Ltac quiet_tac :=
  repeat first
    [ apply quiet_ret | apply quiet_lift | apply quiet_today | apply quiet_new_dict
    | apply quiet_mapM; intros
    | apply quiet_foldM; intros
    | apply quiet_bind; [|intros] ].

Lemma quiet_run {A} (c : M A) σ r σ' : quiet c → c σ = (r, σ') → trace σ' = trace σ.
Proof. intros Hc E. specialize (Hc σ). by rewrite E in Hc. Qed.

Lemma response_call_redfin w self url params :
  response_call w (redfin_request w self url params).
Proof.
  intros σ r σ'. rewrite redfin_request_run. cbv zeta.
  destruct (http_get w _ _ _) as [r0|e] eqn:E; [|discriminate].
  destruct (_ && _); [discriminate|]. intros [= -> <-].
  eexists _, _, _. split; [apply events_since_log | exact E].
Qed.

Lemma response_call_after {A} w (c : M A) (k : A → M Response) :
  quiet c → (∀ a, response_call w (k a)) → response_call w (bind c k).
Proof.
  intros Hc Hk σ r σ' (a & σ1 & E1 & E2)%bind_ok_inv.
  destruct (Hk a σ1 r σ' E2) as (url & p & h & Hev & Hget).
  exists url, p, h. split; [|exact Hget].
  rewrite <- Hev. symmetry. apply events_since_same. by eapply quiet_run.
Qed.

Lemma response_call_eta w (c : M Response) :
  response_call w c → response_call w (bind c (λ r, ret r)).
Proof.
  intros Hc σ r σ' (a & σ1 & E1 & E2)%bind_ok_inv. injection E2 as -> ->.
  by apply Hc.
Qed.

Lemma payload_call_fetch w self url params : payload_call w (fetch w self url params).
Proof.
  intros σ x σ'. rewrite fetch_run. cbv zeta.
  destruct (http_get w _ _ _) as [r|e] eqn:E; [|discriminate].
  destruct (_ && _); [discriminate|].
  destruct (json_loads w _) as [y|] eqn:J; [|discriminate]. intros [= -> <-].
  eexists _, _, _, r. split; [|split; [exact E | exact J]].
  apply events_since_app. simpl. by rewrite <- app_assoc.
Qed.

Lemma payload_call_after {A} w (c : M A) (k : A → M pyval) :
  quiet c → (∀ a, payload_call w (k a)) → payload_call w (bind c k).
Proof.
  intros Hc Hk σ x σ' (a & σ1 & E1 & E2)%bind_ok_inv.
  destruct (Hk a σ1 x σ' E2) as (url & p & h & r & Hev & Hget & Hj).
  exists url, p, h, r. split; [|by split].
  rewrite <- Hev. symmetry. apply events_since_same. by eapply quiet_run.
Qed.

Lemma payload_call_eta w (c : M pyval) :
  payload_call w c → payload_call w (bind c (λ x, ret x)).
Proof.
  intros Hc σ x σ' (a & σ1 & E1 & E2)%bind_ok_inv. injection E2 as -> ->.
  by apply Hc.
Qed.

Lemma payload_call_property_data w self url params page :
  payload_call w (request_property_data w self url params page).
Proof.
  intros σ x σ' E. rewrite request_property_data_run in E. cbv zeta in E.
  destruct (payload_call_fetch _ _ _ _ _ _ _ E) as (u & p & h & r & Hev & H).
  exists u, p, h, r. split; [|exact H]. rewrite <- Hev. reflexivity.
Qed.

Lemma payload_call_region_data w self url T R P :
  payload_call w (request_region_data w self url T R P).
Proof. intros σ x σ'. rewrite request_region_data_run. apply payload_call_fetch. Qed.

Lemma payload_call_search w self query kwargs : payload_call w (search w self query kwargs).
Proof.
  unfold search. apply payload_call_after; [apply quiet_new_dict|].
  intros params. apply (payload_call_fetch w self _ (Some params)).
Qed.

(** A reshaping tail keeps the trace and the one decoded payload. *)
Lemma payload_call_reshaped w (c : M pyval) (k : pyval → M pyval) σ y σ' :
  payload_call w c → (∀ x, quiet (k x)) → bind c k σ = (Ok y, σ') →
  ∃ x σ1 url p h r,
    k x σ1 = (Ok y, σ')
    ∧ events_since σ σ' = [EvGet url p h; EvLoads (str_slice_from 4 (text r))]
    ∧ http_get w url p h = Ok r
    ∧ json_loads w (str_slice_from 4 (text r)) = Some x.
Proof.
  intros Hc Hk (x & σ1 & E1 & E2)%bind_ok_inv.
  destruct (Hc σ x σ1 E1) as (url & p & h & r & Hev & Hget & Hj).
  exists x, σ1, url, p, h, r. split; [exact E2|]. split; [|by split].
  rewrite <- Hev. unfold events_since.
  rewrite (quiet_run _ _ _ _ (Hk x) E2). reflexivity.
Qed.

Ltac payload_call_tac :=
  repeat lazymatch goal with
    | |- payload_call _ (bind (new_dict _) _) =>
        apply payload_call_after; [apply quiet_new_dict | intros]
    | |- payload_call _ (bind _ (λ x, ret x)) => apply payload_call_eta
    | |- payload_call _ (request_property_data _ _ _ _ _) =>
        apply payload_call_property_data
    | |- payload_call _ (request_region_data _ _ _ _ _ _) =>
        apply payload_call_region_data
    | |- payload_call _ (search _ _ _ _) => apply payload_call_search
    end.

Ltac response_call_tac :=
  repeat lazymatch goal with
    | |- response_call _ (bind (new_dict _) _) =>
        apply response_call_after; [apply quiet_new_dict | intros]
    | |- response_call _ (bind _ (λ x, ret x)) => apply response_call_eta
    | |- response_call _ (redfin_request _ _ _ _) => apply response_call_redfin
    end.

Lemma fmap_ok_inv {A B} (f : A → B) (c : M A) σ o σ' :
  fmap_M f c σ = (Ok o, σ') → ∃ a, c σ = (Ok a, σ') ∧ o = f a.
Proof.
  intros (a & σ1 & E1 & E2)%bind_ok_inv. injection E2 as <- <-. eauto.
Qed.

Lemma invoke_response w self m :
  passes_response m = true →
  ∃ c, invoke w self m = fmap_M RResponse c ∧ response_call w c.
Proof.
  intros Hm. destruct m; try discriminate Hm;
    eexists; (split; [reflexivity|]);
    unfold primary_region, shared_region; response_call_tac.
Qed.

(** C2, as stated, fails: [primary_region] returns the response object
    itself, decoded by nobody. *)
Lemma primary_region_returns_response :
  ¬ returns_decoded_payload
      (fixed_world (response_of 200 "{}&&{}") (Build_datetime 2026 11 4))
      (__init__ None) (PrimaryRegion "/NY/Albany/363-Elk-St-12206/home/97942731")
      module_state.
Proof.
  intros H.
  destruct (H (RResponse (response_of 200 "{}&&{}"))
              (snd (invoke (fixed_world (response_of 200 "{}&&{}") (Build_datetime 2026 11 4))
                      (__init__ None)
                      (PrimaryRegion "/NY/Albany/363-Elk-St-12206/home/97942731")
                      module_state)))
    as (x & F & _); [reflexivity | discriminate F].
Qed.

(** ** Month labels *)

(** Subtracting [relativedelta(months=k)] moves a date [k] months back
    on the line of months, for any [k], and fails exactly when the year
    leaves [1..9999]. *)
Lemma datetime_sub_months (dt : datetime) (k : Z) :
  1 ≤ month dt ≤ 12 →
  let idx := month_index dt - k in
  datetime_sub dt (relativedelta_months k)
    = if (1 <=? idx / 12) && (idx / 12 <=? 9999)
      then Ok {| year := idx / 12; month := idx mod 12 + 1;
                 day := Z.min (days_in_month (idx / 12) (idx mod 12 + 1)) (day dt) |}
      else Raise ValueError.
Proof.
  intros Hm idx. subst idx. unfold month_index, datetime_sub, rd_radd, rd_neg,
    relativedelta_months, rd_sign.
  destruct dt as [y m d]. simpl in *.
  assert (∀ y' m', 1 ≤ m' ≤ 12 → 12 * y' + (m' - 1) = 12 * y + (m - 1) - k →
            (12 * y + (m - 1) - k) / 12 = y' ∧ (12 * y + (m - 1) - k) mod 12 + 1 = m') as Hdiv.
  { intros y' m' Hm' E. rewrite <- E. split.
    - symmetry. apply (Z.div_unique _ 12 y' (m' - 1)); lia.
    - replace (12 * y' + (m' - 1)) with ((m' - 1) + y' * 12) by lia.
      rewrite Z.mod_add by lia. rewrite Z.mod_small; lia. }
  destruct (Z.abs k >? 11) eqn:Ek; simpl.
  - destruct (k <? 0) eqn:Es; simpl.
    + pose proof (Z.div_mod (k * -1) 12 ltac:(lia)) as Hk.
      pose proof (Z.mod_pos_bound (k * -1) 12 ltac:(lia)) as Hb.
      set (q := k * -1 / 12) in *. set (r := (k * -1) mod 12) in *.
      destruct (- (r * -1) =? 0) eqn:E0.
      * destruct (Hdiv (y + - (q * -1)) m Hm ltac:(lia)) as [-> ->]. reflexivity.
      * destruct (m + - (r * -1) >? 12) eqn:E1.
        -- destruct (Hdiv (y + - (q * -1) + 1) (m + - (r * -1) - 12) ltac:(lia) ltac:(lia))
             as [-> ->]. reflexivity.
        -- destruct (m + - (r * -1) <? 1) eqn:E2; [lia|].
           destruct (Hdiv (y + - (q * -1)) (m + - (r * -1)) ltac:(lia) ltac:(lia))
             as [-> ->]. reflexivity.
    + pose proof (Z.div_mod (k * 1) 12 ltac:(lia)) as Hk.
      pose proof (Z.mod_pos_bound (k * 1) 12 ltac:(lia)) as Hb.
      set (q := k * 1 / 12) in *. set (r := (k * 1) mod 12) in *.
      destruct (- (r * 1) =? 0) eqn:E0.
      * destruct (Hdiv (y + - (q * 1)) m Hm ltac:(lia)) as [-> ->]. reflexivity.
      * destruct (m + - (r * 1) >? 12) eqn:E1; [lia|].
        destruct (m + - (r * 1) <? 1) eqn:E2.
        -- destruct (Hdiv (y + - (q * 1) - 1) (m + - (r * 1) + 12) ltac:(lia) ltac:(lia))
             as [-> ->]. reflexivity.
        -- destruct (Hdiv (y + - (q * 1)) (m + - (r * 1)) ltac:(lia) ltac:(lia))
             as [-> ->]. reflexivity.
  - destruct (- k =? 0) eqn:E0.
    + destruct (Hdiv (y + - 0) m Hm ltac:(lia)) as [-> ->]. reflexivity.
    + destruct (m + - k >? 12) eqn:E1.
      * destruct (Hdiv (y + - 0 + 1) (m + - k - 12) ltac:(lia) ltac:(lia)) as [-> ->].
        reflexivity.
      * destruct (m + - k <? 1) eqn:E2.
        -- destruct (Hdiv (y + - 0 - 1) (m + - k + 12) ltac:(lia) ltac:(lia)) as [-> ->].
           reflexivity.
        -- destruct (Hdiv (y + - 0) (m + - k) ltac:(lia) ltac:(lia)) as [-> ->].
           reflexivity.
Qed.

Lemma strftime_label (y m d : Z) (idx : Z) :
  y = idx / 12 → m = idx mod 12 + 1 →
  strftime_b_y {| year := y; month := m; day := d |} = label_of_index idx.
Proof. intros -> ->. reflexivity. Qed.

(** The label computed for [i] from a good reading is the label of the
    month [i - 1] months before the month of the reading. *)
Lemma month_label_at_index (w : World) (t : nat) (i : Z) :
  reading_ok (clock w t) → -1 ≤ i ≤ 59 →
  datetime_sub (clock w t) (relativedelta_months (i - 1))
    = Ok {| year := (month_index (clock w t) - (i - 1)) / 12;
            month := (month_index (clock w t) - (i - 1)) mod 12 + 1;
            day := Z.min (days_in_month ((month_index (clock w t) - (i - 1)) / 12)
                            ((month_index (clock w t) - (i - 1)) mod 12 + 1))
                         (day (clock w t)) |}
  ∧ month_label_at w t i = label_of_index (month_index (clock w t) - (i - 1)).
Proof.
  intros [Hm Hy] Hi. unfold month_label_at.
  rewrite datetime_sub_months by exact Hm. cbv zeta.
  assert (1 ≤ (month_index (clock w t) - (i - 1)) / 12 ≤ 9999) as [H1 H2].
  { unfold month_index. split.
    - apply Z.div_le_lower_bound; lia.
    - apply Z.lt_succ_r, Z.div_lt_upper_bound; lia. }
  apply Z.leb_le in H1, H2. rewrite H1, H2. simpl. split; reflexivity.
Qed.

Lemma month_label_run (w : World) (i : Z) (σ : state) :
  -1 ≤ i ≤ 59 → reading_ok (clock w (ticks σ)) →
  month_label w i σ = (Ok (month_label_at w (ticks σ) i), tick_n 1 σ).
Proof.
  intros Hi Hok. destruct (month_label_at_index w (ticks σ) i Hok Hi) as [E1 E2].
  unfold month_label, bind, today, lift, ret, month_label_at, tick_n. simpl.
  rewrite E1. rewrite Nat.add_1_r. reflexivity.
Qed.

Lemma tick_n_tick_n a b σ : tick_n a (tick_n b σ) = tick_n (b + a) σ.
Proof. unfold tick_n. simpl. by rewrite Nat.add_assoc. Qed.

(** The comprehension reads the clock once per element, in order. *)
Lemma mapM_month_label (w : World) (idxs : list Z) (σ : state) :
  (∀ i, i ∈ idxs → -1 ≤ i ≤ 59) →
  (∀ j, (j < length idxs)%nat → reading_ok (clock w (ticks σ + j))) →
  mapM (month_label w) idxs σ
    = (Ok (imap (λ j i, month_label_at w (ticks σ + j) i) idxs), tick_n (length idxs) σ).
Proof.
  revert σ. induction idxs as [|i idxs IH]; intros σ Hi Hok.
  - simpl. unfold ret, tick_n. rewrite Nat.add_0_r. by destruct σ.
  - cbn [mapM]. rewrite bind_run, month_label_run; cycle 1.
    { apply Hi. left. }
    { specialize (Hok 0%nat). rewrite Nat.add_0_r in Hok. apply Hok. simpl. lia. }
    rewrite bind_run, IH; cycle 1.
    { intros i' Hi'. apply Hi. by right. }
    { intros j Hj. simpl. rewrite <- Nat.add_assoc. apply Hok. simpl. lia. }
    unfold ret. rewrite tick_n_tick_n. cbn [imap length]. rewrite Nat.add_0_r.
    f_equal. f_equal. f_equal. apply imap_ext. intros j x _. simpl.
    by rewrite <- Nat.add_assoc.
Qed.

Lemma month_range_spec : month_range = map (λ j : nat, Z.of_nat j - 1) (seq 0 61).
Proof. reflexivity. Qed.

Lemma month_range_bounds i : i ∈ month_range → -1 ≤ i ≤ 59.
Proof.
  rewrite month_range_spec. intros (j & -> & Hj%elem_of_seq)%list_elem_of_fmap. lia.
Qed.

(** With the clock standing in month [m] of year [y] during the 61
    readings, the reversed list of labels is [month_labels y m]. *)
Lemma month_list_stable (w : World) (t : nat) (y m : Z) :
  1 ≤ m ≤ 12 → 6 ≤ y ≤ 9998 →
  (∀ j, (j < 61)%nat → year (clock w (t + j)) = y ∧ month (clock w (t + j)) = m) →
  reverse (imap (λ j i, month_label_at w (t + j) i) month_range) = month_labels y m.
Proof.
  intros Hm Hy Hst. unfold month_labels.
  assert (length month_range = 61%nat) as Hlen by reflexivity.
  assert (∀ j, (j < 61)%nat → month_range !! j = Some (Z.of_nat j - 1)) as Hlk.
  { intros j Hj. rewrite month_range_spec, list_lookup_fmap, lookup_seq_lt by lia.
    reflexivity. }
  remember month_range as mr eqn:Emr. clear Emr.
  apply list_eq. intros r. rewrite list_lookup_fmap.
  destruct (decide (r < 61)%nat) as [Hr|Hr].
  - rewrite lookup_seq_lt by exact Hr.
    rewrite reverse_lookup by (rewrite length_imap; lia).
    rewrite length_imap, Hlen, list_lookup_imap, Hlk by lia.
    cbn [fmap option_fmap option_map]. f_equal.
    destruct (Hst (61 - S r)%nat ltac:(lia)) as [Ey Em].
    destruct (month_label_at_index w (t + (61 - S r)) (Z.of_nat (61 - S r) - 1))
      as [_ ->]; [split; lia | lia |].
    f_equal. unfold month_index. rewrite Ey, Em. lia.
  - rewrite lookup_seq_ge by lia. cbn [fmap option_fmap option_map].
    apply lookup_ge_None. rewrite length_reverse, length_imap. lia.
Qed.

Lemma timeseries_split w self pid lid :
  get_property_timeseries_estimate w self pid lid
    = (params ←' property_params pid lid ;'
       response ←' request_property_data w self "avmHistoricalData" params false ;'
       timeseries_of w response).
Proof. reflexivity. Qed.

Lemma mod12_cases (idx : Z) :
  idx mod 12 = 0 ∨ idx mod 12 = 1 ∨ idx mod 12 = 2 ∨ idx mod 12 = 3
  ∨ idx mod 12 = 4 ∨ idx mod 12 = 5 ∨ idx mod 12 = 6 ∨ idx mod 12 = 7
  ∨ idx mod 12 = 8 ∨ idx mod 12 = 9 ∨ idx mod 12 = 10 ∨ idx mod 12 = 11.
Proof. pose proof (Z.mod_pos_bound idx 12). lia. Qed.

Lemma abbr_month_label (idx : Z) : abbr_month (label_of_index idx) = idx mod 12 + 1.
Proof.
  unfold label_of_index.
  destruct (mod12_cases idx) as [H|[H|[H|[H|[H|[H|[H|[H|[H|[H|[H|H]]]]]]]]]]];
    rewrite H; reflexivity.
Qed.

Lemma label_tail (idx : Z) :
  str_slice_from 4 (label_of_index idx) = two_digits ((idx / 12) mod 100).
Proof.
  unfold label_of_index.
  destruct (mod12_cases idx) as [H|[H|[H|[H|[H|[H|[H|[H|[H|[H|[H|H]]]]]]]]]]];
    rewrite H; reflexivity.
Qed.

Lemma digit_of_digit (d : Z) : 0 ≤ d ≤ 9 → digit_of (digit d) = d.
Proof.
  intros Hd. unfold digit_of, digit. rewrite nat_ascii_embedding by lia. lia.
Qed.

Lemma label_year_label (idx : Z) : label_year (label_of_index idx) = (idx / 12) mod 100.
Proof.
  unfold label_year. rewrite label_tail. unfold two_digits.
  pose proof (Z.mod_pos_bound (idx / 12) 100 ltac:(lia)) as Hb.
  set (n := (idx / 12) mod 100) in *.
  rewrite !digit_of_digit.
  - pose proof (Z.div_mod n 10 ltac:(lia)). lia.
  - pose proof (Z.mod_pos_bound n 10 ltac:(lia)). lia.
  - split; [apply Z.div_pos; lia | apply Z.lt_succ_r, Z.div_lt_upper_bound; lia].
Qed.

(** Within a century no two months share a label. *)
Lemma label_of_index_inj (a b : Z) :
  label_of_index a = label_of_index b → Z.abs (a - b) < 1200 → a = b.
Proof.
  intros E Hab.
  pose proof (f_equal abbr_month E) as Em. rewrite !abbr_month_label in Em.
  pose proof (f_equal label_year E) as Ey. rewrite !label_year_label in Ey.
  pose proof (Z.div_mod a 12 ltac:(lia)) as Ha.
  pose proof (Z.div_mod b 12 ltac:(lia)) as Hb.
  pose proof (Z.div_mod (a / 12) 100 ltac:(lia)) as Ha'.
  pose proof (Z.div_mod (b / 12) 100 ltac:(lia)) as Hb'.
  lia.
Qed.

Lemma month_labels_length y m : length (month_labels y m) = 61%nat.
Proof. unfold month_labels. by rewrite length_map, length_seq. Qed.

Lemma month_labels_NoDup y m : NoDup (month_labels y m).
Proof.
  unfold month_labels. apply (NoDup_fmap_2_strong _ (seq 0 61)); [|apply NoDup_seq].
  intros r1 r2 H1%elem_of_seq H2%elem_of_seq E.
  apply label_of_index_inj in E; lia.
Qed.

(** ** The positional zip *)

Lemma dict_setitem_new k x items :
  k ∉ items.*1 → dict_setitem k x items = (items ++ [(k, x)])%list.
Proof.
  induction items as [|[k' x'] items IH]; intros N; simpl; [done|].
  destruct (String.eqb k k') eqn:E.
  - apply String.eqb_eq in E. subst. exfalso. apply N. simpl. left.
  - rewrite IH; [done|]. intros F. apply N. simpl. by right.
Qed.

Section Zip.

Variable month_list : list string.
Variable ests : list pyval.

Lemma zip_step_run ts i σ key value :
  month_list !! i = Some key → ests !! i = Some value →
  zip_step month_list (VList ests) ts i σ = (Ok (dict_setitem key value ts), σ).
Proof.
  intros Hk Hv. unfold zip_step, bind, lift, ret, list_getitem, getitem_idx.
  by rewrite Hk, Hv.
Qed.

Lemma zip_step_overflow ts i σ :
  (length month_list ≤ i)%nat →
  zip_step month_list (VList ests) ts i σ = (Raise IndexError, σ).
Proof.
  intros Hi. unfold zip_step, bind, lift, list_getitem.
  by rewrite (proj2 (lookup_ge_None _ _) Hi).
Qed.

(** While both lists last and the labels are distinct, the loop
    extends the zip of the prefixes by one pair per step. *)
Lemma foldM_zip (k a : nat) σ :
  NoDup month_list →
  (a + k ≤ length month_list)%nat → (a + k ≤ length ests)%nat →
  foldM (zip_step month_list (VList ests)) (seq a k)
    (zip (take a month_list) (take a ests)) σ
  = (Ok (zip (take (a + k) month_list) (take (a + k) ests)), σ).
Proof.
  intros Hnd. revert a. induction k as [|k IH]; intros a Hm He.
  - simpl. by rewrite Nat.add_0_r.
  - cbn [seq foldM].
    destruct (lookup_lt_is_Some_2 month_list a ltac:(lia)) as [key Hk].
    destruct (lookup_lt_is_Some_2 ests a ltac:(lia)) as [value Hv].
    rewrite bind_run, (zip_step_run _ _ _ key value Hk Hv).
    rewrite dict_setitem_new; cycle 1.
    { rewrite fst_zip by (rewrite !length_take; lia).
      intros (j & Hj)%list_elem_of_lookup. apply lookup_take_Some in Hj as [Hj Hlt].
      pose proof (NoDup_lookup _ _ _ _ Hnd Hj Hk). lia. }
    replace (zip (take a month_list) (take a ests) ++ [(key, value)])%list
      with (zip (take (S a) month_list) (take (S a) ests)).
    + rewrite IH by lia. by rewrite Nat.add_succ_r.
    + rewrite (take_S_r _ _ _ Hk), (take_S_r _ _ _ Hv).
      rewrite zip_with_app by (rewrite !length_take; lia). reflexivity.
Qed.

(** Once the index reaches the end of the label list the loop stops
    with [IndexError], whatever it had built. *)
Lemma foldM_zip_overflow (k a : nat) ts σ :
  (a ≤ length month_list)%nat → (length month_list < a + k)%nat →
  (length month_list ≤ length ests)%nat →
  foldM (zip_step month_list (VList ests)) (seq a k) ts σ = (Raise IndexError, σ).
Proof.
  revert a ts. induction k as [|k IH]; intros a ts Ha Hk He; [lia|].
  cbn [seq foldM]. rewrite bind_run.
  destruct (decide (a = length month_list)) as [->|Hne].
  - by rewrite zip_step_overflow.
  - destruct (lookup_lt_is_Some_2 month_list a ltac:(lia)) as [key Hkey].
    destruct (lookup_lt_is_Some_2 ests a ltac:(lia)) as [value Hv].
    rewrite (zip_step_run _ _ _ key value Hkey Hv). apply IH; lia.
Qed.

End Zip.

(** ** The time series *)


Lemma timeseries_request w self pid lid σ r resp :
  (∀ h, http_get w (timeseries_url self) (timeseries_query pid lid) h = Ok r) →
  ¬ (400 ≤ status_code r < 600) →
  json_loads w (str_slice_from 4 (text r)) = Some resp →
  ∃ σ2, ticks σ2 = ticks σ
    ∧ get_property_timeseries_estimate w self pid lid σ = timeseries_of w resp σ2.
Proof.
  intros Hget Hst Hj. rewrite timeseries_split. unfold property_params.
  rewrite bind_run. unfold new_dict at 1. rewrite bind_run.
  rewrite request_property_data_run. cbv zeta. rewrite fetch_run.
  cbn [default heap trace ticks marked marked_heap]. cbv zeta.
  rewrite !lookup_insert_eq. cbn [default].
  repeat match goal with
    | |- context [http_get w ?u ?p ?h] =>
        lazymatch u with
        | timeseries_url self => fail
        | _ => change (http_get w u p h)
                 with (http_get w (timeseries_url self) (timeseries_query pid lid) h)
        end
    end.
  rewrite Hget.
  destruct ((400 <=? status_code r) && (status_code r <? 600)) eqn:E.
  { apply andb_true_iff in E as [E1 E2]. lia. }
  rewrite Hj. eexists. split; [|reflexivity]. reflexivity.
Qed.

Lemma timeseries_of_run w resp payload ests σ :
  getitem_key resp "payload" = Ok payload →
  getitem_key payload "propertyTimeSeries" = Ok (VList ests) →
  (∀ j, (j < 61)%nat → reading_ok (clock w (ticks σ + j))) →
  timeseries_of w resp σ
    = match foldM (zip_step
                     (reverse (imap (λ j i, month_label_at w (ticks σ + j) i) month_range))
                     (VList ests))
              (seq 0 (length ests)) [] (tick_n 61 σ) with
      | (Ok ts, σ') => (Ok (VDict ts), σ')
      | (Raise e, σ') => (Raise e, σ')
      end.
Proof.
  intros Hp He Hok. unfold timeseries_of.
  rewrite bind_run. unfold lift at 1. rewrite Hp.
  rewrite bind_run. unfold lift at 1. rewrite He.
  rewrite bind_run, mapM_month_label; [|apply month_range_bounds|exact Hok].
  change (length month_range) with 61%nat.
  rewrite bind_run. unfold lift at 1. cbn [py_len].
  rewrite bind_run. destruct (foldM _ _ _ _) as [[ts|e] σ']; reflexivity.
Qed.

(** C3, as stated, fails: on 4 November 2026, with one estimate
    returned, the only key is [Jan 22], the label of the month 58 months
    back; a list whose newest label is one month off the current month
    would start with [Dec 21] or [Oct 21]. *)
Lemma month_labels_start_two_ahead :
  ¬ keys_start_one_month_off
      (fixed_world (response_of 200 (timeseries_body ["412000"])) (Build_datetime 2026 11 4))
      (__init__ None) (SInt 9701815) (SStr "") module_state 2026 11.
Proof.
  intros H. specialize (H [("Jan 22", VInt 412000)]).
  destruct H as [H|H]; [vm_compute; reflexivity | |]; vm_compute in H; discriminate H.
Qed.

(** C3, amended.  With the clock standing in month [m] of year [y]
    while the labels are computed, [get_property_timeseries_estimate]
    builds 61 distinct labels ["Mon YY"], oldest first, from the month
    58 months before the current one to the month two months after it
    (the comprehension starts at [i = -1] and subtracts [i - 1]
    months), and pairs them with the estimates by position: for a list
    of [n ≤ 61] estimates the result has exactly [n] entries, keyed by
    the first [n] labels in order, the [i]-th holding the [i]-th
    estimate.  The labels do not depend on the estimates. *)
Theorem timeseries_zip (w : World) (self : Redfin) (pid lid : scalar) (σ : state)
    (r : Response) (resp payload : pyval) (ests : list pyval) (y m : Z) :
  (∀ h, http_get w (timeseries_url self) (timeseries_query pid lid) h = Ok r) →
  ¬ (400 ≤ status_code r < 600) →
  json_loads w (str_slice_from 4 (text r)) = Some resp →
  getitem_key resp "payload" = Ok payload →
  getitem_key payload "propertyTimeSeries" = Ok (VList ests) →
  1 ≤ m ≤ 12 → 6 ≤ y ≤ 9998 →
  (∀ j, (j < 61)%nat →
     year (clock w (ticks σ + j)) = y ∧ month (clock w (ticks σ + j)) = m) →
  (length ests ≤ 61)%nat →
  let labels := month_labels y m in
  let ts := zip (take (length ests) labels) ests in
  fst (get_property_timeseries_estimate w self pid lid σ) = Ok (VDict ts)
  ∧ length ts = length ests
  ∧ ts.*1 = take (length ests) labels
  ∧ ts.*2 = ests
  ∧ length labels = 61%nat
  ∧ NoDup labels
  ∧ labels !! 0%nat = Some (label_of_index (12 * y + (m - 1) - 58))
  ∧ labels !! 60%nat = Some (label_of_index (12 * y + (m - 1) + 2)).
Proof.
  intros Hget Hst Hj Hp He Hm Hy Hclock Hn labels ts.
  assert (length labels = 61%nat) as Hlen by apply month_labels_length.
  assert (length (take (length ests) labels) = length ests) as Htake
    by (rewrite length_take; lia).
  repeat split.
  - destruct (timeseries_request w self pid lid σ r resp Hget Hst Hj) as (σ2 & Ht & ->).
    rewrite (timeseries_of_run w resp payload ests σ2 Hp He); cycle 1.
    { intros j Hj'. rewrite Ht. destruct (Hclock j Hj') as [Ey Em].
      unfold reading_ok. rewrite Ey, Em. done. }
    rewrite Ht, (month_list_stable w (ticks σ) y m Hm Hy Hclock).
    pose proof (foldM_zip (month_labels y m) ests (length ests) 0 (tick_n 61 σ2)
                  (month_labels_NoDup y m)) as Hz.
    rewrite !take_0 in Hz. simpl in Hz. rewrite Hz; [|fold labels; lia|lia].
    simpl. by rewrite (take_ge ests).
  - unfold ts. rewrite length_zip_with, Htake. lia.
  - unfold ts. apply fst_zip. lia.
  - unfold ts. apply snd_zip. lia.
  - apply month_labels_NoDup.
  - unfold labels, month_labels. simpl. do 2 f_equal. lia.
  - unfold labels, month_labels. rewrite list_lookup_fmap, lookup_seq_lt by lia.
    simpl. do 2 f_equal. lia.
Qed.

Lemma timeseries_zip_witness :
  fst (get_property_timeseries_estimate
         (fixed_world (response_of 200 (timeseries_body ["412000"; "null"; "415500"]))
            (Build_datetime 2026 11 4))
         (__init__ None) (SInt 9701815) (SStr "") module_state)
  = Ok (VDict [("Jan 22", VInt 412000); ("Feb 22", VNone); ("Mar 22", VInt 415500)]).
Proof.
  refine (proj1 (timeseries_zip
           (fixed_world (response_of 200 (timeseries_body ["412000"; "null"; "415500"]))
              (Build_datetime 2026 11 4))
           (__init__ None) (SInt 9701815) (SStr "") module_state
           (response_of 200 (timeseries_body ["412000"; "null"; "415500"]))
           (VDict [("payload",
                    VDict [("propertyTimeSeries",
                            VList [VInt 412000; VNone; VInt 415500])])])
           (VDict [("propertyTimeSeries", VList [VInt 412000; VNone; VInt 415500])])
           [VInt 412000; VNone; VInt 415500] 2026 11 _ _ _ _ _ _ _ _ _)).
  - intros h. reflexivity.
  - simpl. lia.
  - vm_compute. reflexivity.
  - reflexivity.
  - reflexivity.
  - lia.
  - lia.
  - intros j _. split; reflexivity.
  - simpl. lia.
Defined.

(** C10.  When the decoded estimate list has more than 61 elements (and
    the 61 labels could be computed), [get_property_timeseries_estimate]
    returns no dict: the comprehension reaches index 61 of the
    61-element label list and the call raises [IndexError]. *)
Theorem timeseries_overflow (w : World) (self : Redfin) (pid lid : scalar) (σ : state)
    (r : Response) (resp payload : pyval) (ests : list pyval) :
  (∀ h, http_get w (timeseries_url self) (timeseries_query pid lid) h = Ok r) →
  ¬ (400 ≤ status_code r < 600) →
  json_loads w (str_slice_from 4 (text r)) = Some resp →
  getitem_key resp "payload" = Ok payload →
  getitem_key payload "propertyTimeSeries" = Ok (VList ests) →
  (∀ j, (j < 61)%nat → reading_ok (clock w (ticks σ + j))) →
  (61 < length ests)%nat →
  fst (get_property_timeseries_estimate w self pid lid σ) = Raise IndexError.
Proof.
  intros Hget Hst Hj Hp He Hclock Hn.
  destruct (timeseries_request w self pid lid σ r resp Hget Hst Hj) as (σ2 & Ht & ->).
  rewrite (timeseries_of_run w resp payload ests σ2 Hp He); cycle 1.
  { intros j Hj'. rewrite Ht. by apply Hclock. }
  rewrite foldM_zip_overflow; [reflexivity|..];
    rewrite length_reverse, length_imap; change (length month_range) with 61%nat; lia.
Qed.

Lemma timeseries_overflow_witness :
  fst (get_property_timeseries_estimate
         (fixed_world (response_of 200 (timeseries_body (replicate 62 "1")))
            (Build_datetime 2026 11 4))
         (__init__ None) (SInt 9701815) (SStr "") module_state)
  = Raise IndexError.
Proof.
  refine (timeseries_overflow
           (fixed_world (response_of 200 (timeseries_body (replicate 62 "1")))
              (Build_datetime 2026 11 4))
           (__init__ None) (SInt 9701815) (SStr "") module_state
           (response_of 200 (timeseries_body (replicate 62 "1")))
           (VDict [("payload",
                    VDict [("propertyTimeSeries", VList (replicate 62 (VInt 1)))])])
           (VDict [("propertyTimeSeries", VList (replicate 62 (VInt 1)))])
           (replicate 62 (VInt 1)) _ _ _ _ _ _ _).
  - intros h. reflexivity.
  - simpl. lia.
  - vm_compute. reflexivity.
  - reflexivity.
  - reflexivity.
  - intros j _. unfold reading_ok. simpl. lia.
  - simpl. lia.
Defined.

(** * More of the client *)

(** ** Requests built from a fresh dict *)

Lemma new_dict_request_run w self url d σ :
  (params ←' new_dict d ;'
   response ←' redfin_request w self url (Some params) ;'
   ret response) σ
  = let σ1 := State (<[fresh (dom (heap σ)) := d]> (heap σ)) (trace σ) (ticks σ) in
    let h := default ∅ (heap σ1 !! headers self) in
    let σ2 := log (EvGet (base self +:+ url) d h) σ1 in
    match http_get w (base self +:+ url) d h with
    | Raise e => (Raise e, σ2)
    | Ok r =>
        if (400 <=? status_code r) && (status_code r <? 600)
        then (Raise (HTTPError (status_code r)), σ2)
        else (Ok r, σ2)
    end.
Proof.
  rewrite bind_run. unfold new_dict at 1. rewrite bind_run, redfin_request_run.
  cbv zeta. cbn [default heap trace ticks]. rewrite lookup_insert_eq. cbn [default].
  destruct (http_get w _ _ _) as [r|e]; [|reflexivity].
  destruct (_ && _); reflexivity.
Qed.

Lemma new_dict_fetch_run w self url d σ :
  (params ←' new_dict d ;' fetch w self url (Some params)) σ
  = let σ1 := State (<[fresh (dom (heap σ)) := d]> (heap σ)) (trace σ) (ticks σ) in
    let h := default ∅ (heap σ1 !! headers self) in
    let σ2 := log (EvGet (base self +:+ url) d h) σ1 in
    match http_get w (base self +:+ url) d h with
    | Raise e => (Raise e, σ2)
    | Ok r =>
        if (400 <=? status_code r) && (status_code r <? 600)
        then (Raise (HTTPError (status_code r)), σ2)
        else
          let doc := str_slice_from 4 (text r) in
          (match json_loads w doc with
           | Some x => Ok x
           | None => Raise JSONDecodeError
           end, log (EvLoads doc) σ2)
    end.
Proof.
  rewrite bind_run. unfold new_dict at 1. rewrite fetch_run.
  cbv zeta. cbn [default heap trace ticks]. rewrite lookup_insert_eq. cbn [default].
  reflexivity.
Qed.

Lemma events_since_log2 σ0 σ e1 e2 :
  trace σ = trace σ0 → events_since σ0 (log e2 (log e1 σ)) = [e1; e2].
Proof.
  intros E. apply events_since_app. simpl. rewrite E, <- app_assoc. reflexivity.
Qed.

Lemma events_since_log1 σ0 σ e :
  trace σ = trace σ0 → events_since σ0 (log e σ) = [e].
Proof. intros E. apply events_since_app. simpl. by rewrite E. Qed.



Lemma sent_new_dict_fetch w self url d σ :
  sent σ (snd ((params ←' new_dict d ;' fetch w self url (Some params)) σ))
    = [(base self +:+ url, d)].
Proof.
  rewrite new_dict_fetch_run. cbv zeta. unfold sent.
  destruct (http_get w _ _ _) as [r|e]; [destruct (_ && _)|]; cbn [snd].
  - by rewrite events_since_log1.
  - by rewrite events_since_log2.
  - by rewrite events_since_log1.
Qed.

Lemma sent_new_dict_request w self url d σ :
  sent σ (snd ((params ←' new_dict d ;'
                response ←' redfin_request w self url (Some params) ;'
                ret response) σ))
    = [(base self +:+ url, d)].
Proof.
  rewrite new_dict_request_run. cbv zeta. unfold sent.
  destruct (http_get w _ _ _) as [r|e]; [destruct (_ && _)|]; cbn [snd];
    by rewrite events_since_log1.
Qed.



(** X3.  [search] sends one GET to [do/location-autocomplete].  Its
    query is the keyword arguments laid over [location=query] and
    [v=2]: a keyword argument named [location] or [v] replaces the
    method's own value, every other keyword argument is passed on as it
    is, and nothing else is sent. *)
Theorem search_query_precedence (w : World) (self : Redfin) (query : string)
    (kwargs : gmap string scalar) (σ : state) :
  let q := search_query query kwargs in
  sent σ (snd (search w self query kwargs σ))
    = [(base self +:+ "do/location-autocomplete", q)]
  ∧ q !! "location" = Some (default (SStr query) (kwargs !! "location"))
  ∧ q !! "v" = Some (default (SInt 2) (kwargs !! "v"))
  ∧ (∀ k, k ≠ "location" → k ≠ "v" → q !! k = kwargs !! k)
  ∧ (kwargs = ∅ → q = <["location" := SStr query]> {["v" := SInt 2]}).
Proof.
  cbv zeta. repeat split.
  - apply (sent_new_dict_fetch w self "do/location-autocomplete").
  - unfold search_query. rewrite lookup_union, lookup_insert_eq.
    by destruct (kwargs !! "location").
  - unfold search_query.
    rewrite lookup_union, lookup_insert_ne, lookup_singleton_eq by done.
    by destruct (kwargs !! "v").
  - intros k N1 N2. unfold search_query.
    rewrite lookup_union, lookup_insert_ne, lookup_singleton_ne by done.
    by destruct (kwargs !! k).
  - intros ->. unfold search_query. by rewrite (left_id_L ∅ (∪)).
Qed.

Lemma search_query_precedence_witness :
  search_query "Albany, NY" ∅ = <["location" := SStr "Albany, NY"]> {["v" := SInt 2]}.
Proof.
  refine (proj2 (proj2 (proj2 (proj2 (search_query_precedence
           (fixed_world (response_of 200 "{}&&{}") (Build_datetime 2026 11 4))
           (__init__ None) "Albany, NY" ∅ module_state)))) eq_refl).
Defined.

(** X4.  [shared_region] sends one GET to [api/region/shared-region-info]
    and returns the response object undecoded.  Its query is the
    keyword arguments laid over [tableId], [regionTypeId=2] and
    [mapPageTypeId=1]: a keyword argument of one of these names
    replaces the method's own value. *)
Theorem shared_region_query_precedence (w : World) (self : Redfin) (table_id : scalar)
    (kwargs : gmap string scalar) (σ : state) :
  let q := shared_region_query table_id kwargs in
  let out := shared_region w self table_id kwargs σ in
  sent σ (snd out) = [(base self +:+ "api/region/shared-region-info", q)]
  ∧ q !! "tableId" = Some (default table_id (kwargs !! "tableId"))
  ∧ q !! "regionTypeId" = Some (default (SInt 2) (kwargs !! "regionTypeId"))
  ∧ q !! "mapPageTypeId" = Some (default (SInt 1) (kwargs !! "mapPageTypeId"))
  ∧ (∀ k, k ≠ "tableId" → k ≠ "regionTypeId" → k ≠ "mapPageTypeId" →
          q !! k = kwargs !! k)
  ∧ (∀ r, fst out = Ok r → docs_of (events_since σ (snd out)) = []
          ∧ ∃ h, http_get w (base self +:+ "api/region/shared-region-info") q h = Ok r).
Proof.
  cbv zeta. repeat split.
  - apply (sent_new_dict_request w self "api/region/shared-region-info").
  - unfold shared_region_query. rewrite lookup_union, lookup_insert_eq.
    by destruct (kwargs !! "tableId").
  - unfold shared_region_query.
    rewrite lookup_union, lookup_insert_ne, lookup_insert_eq by done.
    by destruct (kwargs !! "regionTypeId").
  - unfold shared_region_query.
    rewrite lookup_union, !lookup_insert_ne, lookup_singleton_eq by done.
    by destruct (kwargs !! "mapPageTypeId").
  - intros k N1 N2 N3. unfold shared_region_query.
    rewrite lookup_union, !lookup_insert_ne, lookup_singleton_ne by done.
    by destruct (kwargs !! k).
  - revert H. unfold shared_region. fold (shared_region_query table_id kwargs).
    rewrite new_dict_request_run. cbv zeta.
    destruct (http_get w _ _ _) as [r0|e]; [destruct (_ && _)|]; cbn [fst snd];
      try discriminate.
    intros _. by rewrite events_since_log1.
  - revert H. unfold shared_region. fold (shared_region_query table_id kwargs).
    rewrite new_dict_request_run. cbv zeta.
    destruct (http_get w _ _ _) as [r0|e] eqn:E; [destruct (_ && _)|]; cbn [fst];
      try discriminate.
    intros [= ->]. eauto.
Qed.

Lemma shared_region_query_precedence_witness :
  shared_region_query (SInt 8729) {["regionTypeId" := SInt 6]} !! "regionTypeId"
  = Some (SInt 6).
Proof.
  refine (proj1 (proj2 (proj2 (shared_region_query_precedence
           (fixed_world (response_of 200 "{}&&{}") (Build_datetime 2026 11 4))
           (__init__ None) (SInt 8729) {["regionTypeId" := SInt 6]} module_state)))).
Defined.

(** ** The per-property methods *)

(** A per-property method whose request succeeds and decodes goes on
    with the decoded value. *)
Lemma property_request {A} w self suffix pid lid (k : pyval → M A) σ r resp :
  (∀ h, http_get w (base self +:+ "api/home/details/" +:+ suffix)
          (property_query pid lid) h = Ok r) →
  ¬ (400 ≤ status_code r < 600) →
  json_loads w (str_slice_from 4 (text r)) = Some resp →
  ∃ σ2, ticks σ2 = ticks σ
    ∧ sent σ σ2 = [(base self +:+ "api/home/details/" +:+ suffix, property_query pid lid)]
    ∧ docs_of (events_since σ σ2) = [str_slice_from 4 (text r)]
    ∧ (params ←' property_params pid lid ;'
       response ←' request_property_data w self suffix params false ;'
       k response) σ = k resp σ2.
Proof.
  intros Hget Hst Hj. unfold property_params.
  rewrite bind_run. unfold new_dict at 1. rewrite bind_run.
  rewrite request_property_data_run. cbv zeta. rewrite fetch_run.
  cbn [default heap trace ticks marked marked_heap]. cbv zeta.
  rewrite !lookup_insert_eq. cbn [default].
  repeat match goal with
    | |- context [http_get w ?u ?p ?h] =>
        lazymatch p with
        | property_query pid lid => fail
        | _ => change (http_get w u p h)
                 with (http_get w (base self +:+ "api/home/details/" +:+ suffix)
                         (property_query pid lid) h)
        end
    end.
  rewrite Hget.
  destruct ((400 <=? status_code r) && (status_code r <? 600)) eqn:E.
  { apply andb_true_iff in E as [E1 E2]. lia. }
  rewrite Hj. eexists. split; [|split; [|split; [|reflexivity]]].
  - reflexivity.
  - unfold sent. rewrite events_since_log2 by reflexivity. reflexivity.
  - rewrite events_since_log2 by reflexivity. reflexivity.
Qed.

Lemma images_split w self pid lid :
  get_property_images w self pid lid
    = (params ←' property_params pid lid ;'
       response ←' request_property_data w self "aboveTheFold" params false ;'
       images_of response).
Proof. reflexivity. Qed.

Lemma image_step_run acc photo σ :
  image_step acc photo σ
    = (match photo_url photo with
       | Ok u => Ok (acc ++ [u])%list
       | Raise e => Raise e
       end, σ).
Proof.
  unfold image_step, photo_url, bind, lift, ret.
  destruct (getitem_key photo "photoUrls") as [urls|e]; [|reflexivity].
  by destruct (getitem_key urls _).
Qed.

Lemma foldM_images photos urls acc σ :
  Forall2 (λ photo u, photo_url photo = Ok u) photos urls →
  foldM image_step photos acc σ = (Ok (acc ++ urls)%list, σ).
Proof.
  intros H. revert acc. induction H as [|photo u photos urls Hu _ IH]; intros acc.
  - simpl. by rewrite app_nil_r.
  - cbn [foldM]. rewrite bind_run, image_step_run, Hu, IH, <- app_assoc. reflexivity.
Qed.

Lemma foldM_images_fails photos urls bad rest e acc σ :
  Forall2 (λ photo u, photo_url photo = Ok u) photos urls →
  photo_url bad = Raise e →
  foldM image_step (photos ++ bad :: rest)%list acc σ = (Raise e, σ).
Proof.
  intros H Hb. revert acc. induction H as [|photo u photos urls Hu _ IH]; intros acc.
  - cbn [app foldM]. by rewrite bind_run, image_step_run, Hb.
  - cbn [app foldM]. by rewrite bind_run, image_step_run, Hu, IH.
Qed.

(** X5.  When its request succeeds and decodes and
    [payload.mediaBrowserInfo.photos] is a list,
    [get_property_images] returns the list of the photos'
    [photoUrls.nonFullScreenPhotoUrlCompressed] values, one per photo
    and in the order of the photos (the empty list for no photos).  It
    stops with the error of the first photo that lacks one of the two
    keys, and with the error of the lookup when [payload],
    [mediaBrowserInfo] or [photos] is missing. *)
Theorem property_images_in_order (w : World) (self : Redfin) (pid lid : scalar)
    (σ : state) (r : Response) (resp : pyval) :
  (∀ h, http_get w (base self +:+ "api/home/details/" +:+ "aboveTheFold")
          (property_query pid lid) h = Ok r) →
  ¬ (400 ≤ status_code r < 600) →
  json_loads w (str_slice_from 4 (text r)) = Some resp →
  let out := fst (get_property_images w self pid lid σ) in
  (∀ payload media photos urls,
     getitem_key resp "payload" = Ok payload →
     getitem_key payload "mediaBrowserInfo" = Ok media →
     getitem_key media "photos" = Ok (VList photos) →
     Forall2 (λ photo u, photo_url photo = Ok u) photos urls →
     out = Ok (VList urls) ∧ length urls = length photos)
  ∧ (∀ payload media good urls bad rest e,
     getitem_key resp "payload" = Ok payload →
     getitem_key payload "mediaBrowserInfo" = Ok media →
     getitem_key media "photos" = Ok (VList (good ++ bad :: rest)) →
     Forall2 (λ photo u, photo_url photo = Ok u) good urls →
     photo_url bad = Raise e →
     out = Raise e)
  ∧ (∀ payload e,
     getitem_key resp "payload" = Ok payload →
     getitem_key payload "mediaBrowserInfo" = Raise e →
     out = Raise e)
  ∧ (∀ e, getitem_key resp "payload" = Raise e → out = Raise e).
Proof.
  intros Hget Hst Hj out. subst out. rewrite images_split.
  destruct (property_request w self "aboveTheFold" pid lid images_of σ r resp Hget Hst Hj)
    as (σ2 & _ & _ & _ & ->).
  unfold images_of. repeat split.
  - rewrite bind_run. unfold lift at 1. rewrite H.
    rewrite bind_run. unfold lift at 1. rewrite H0.
    rewrite bind_run. unfold lift at 1. rewrite H1.
    rewrite bind_run. unfold lift at 1. cbn [py_iter].
    rewrite bind_run, (foldM_images _ _ _ _ H2). reflexivity.
  - symmetry. by eapply Forall2_length.
  - intros payload media good urls bad rest e Hp Hm Hph Hgood Hbad.
    rewrite bind_run. unfold lift at 1. rewrite Hp.
    rewrite bind_run. unfold lift at 1. rewrite Hm.
    rewrite bind_run. unfold lift at 1. rewrite Hph.
    rewrite bind_run. unfold lift at 1. cbn [py_iter].
    rewrite bind_run, (foldM_images_fails _ _ _ _ _ _ _ Hgood Hbad). reflexivity.
  - intros payload e Hp Hm.
    rewrite bind_run. unfold lift at 1. rewrite Hp.
    rewrite bind_run. unfold lift at 1. rewrite Hm. reflexivity.
  - intros e Hp. rewrite bind_run. unfold lift at 1. rewrite Hp. reflexivity.
Qed.

Lemma property_images_in_order_witness :
  fst (get_property_images
         (fixed_world (response_of 200 (images_body ["a.jpg"; "b.jpg"]))
            (Build_datetime 2026 11 4))
         (__init__ None) (SInt 9701815) (SStr "") module_state)
  = Ok (VList [VStr "a.jpg"; VStr "b.jpg"]).
Proof.
  destruct (property_images_in_order
              (fixed_world (response_of 200 (images_body ["a.jpg"; "b.jpg"]))
                 (Build_datetime 2026 11 4))
              (__init__ None) (SInt 9701815) (SStr "") module_state
              (response_of 200 (images_body ["a.jpg"; "b.jpg"]))
              (VDict [("payload",
                 VDict [("mediaBrowserInfo",
                   VDict [("photos", VList [photo_of "a.jpg"; photo_of "b.jpg"])])])]))
    as [H _].
  - intros h. reflexivity.
  - simpl. lia.
  - vm_compute. reflexivity.
  - destruct (H (VDict [("mediaBrowserInfo",
                   VDict [("photos", VList [photo_of "a.jpg"; photo_of "b.jpg"])])])
                (VDict [("photos", VList [photo_of "a.jpg"; photo_of "b.jpg"])])
                [photo_of "a.jpg"; photo_of "b.jpg"] [VStr "a.jpg"; VStr "b.jpg"]
                eq_refl eq_refl eq_refl) as [E _].
    + repeat constructor.
    + exact E.
Defined.

(** ** Errors of the region-id extraction *)

(** X8.  [get_region_id] changes nothing and sends nothing, and fails
    in four ways: with [KeyError] when the response lacks [payload]
    (or a later key of the chain), with [IndexError] when the id has
    no underscore at all, with [AttributeError] when the id is not a
    string, and with [TypeError] when the response is not a dict. *)
Theorem get_region_id_errors (self : Redfin) (resp : pyval) (σ : state) :
  snd (get_region_id self resp σ) = σ
  ∧ (∀ e, row_id resp = Raise e → fst (get_region_id self resp σ) = Raise e)
  ∧ (∀ items, resp = VDict items → assoc "payload" items = None →
       fst (get_region_id self resp σ) = Raise KeyError)
  ∧ (∀ id, row_id resp = Ok (VStr id) → has_char "_" id = false →
       fst (get_region_id self resp σ) = Raise IndexError)
  ∧ (∀ id, row_id resp = Ok id → (∀ s, id ≠ VStr s) →
       fst (get_region_id self resp σ) = Raise AttributeError)
  ∧ ((∀ items, resp ≠ VDict items) →
       fst (get_region_id self resp σ) = Raise TypeError).
Proof.
  rewrite get_region_id_run. cbn [fst snd]. repeat split.
  - by intros e ->.
  - intros items -> Hp. unfold row_id. simpl. by rewrite Hp.
  - intros id -> Hid. simpl. unfold rsplit. rewrite rsplit_go_no_sep by exact Hid.
    reflexivity.
  - intros id -> Hid. destruct id; try reflexivity. by destruct (Hid s).
  - intros Hr. unfold row_id. destruct resp; try reflexivity. by destruct (Hr items).
Qed.

Lemma get_region_id_errors_witness :
  fst (get_region_id (__init__ None) (search_response_with_id "8729") module_state)
  = Raise IndexError.
Proof.
  refine (proj1 (proj2 (proj2 (proj2 (get_region_id_errors (__init__ None)
           (search_response_with_id "8729") module_state)))) "8729" eq_refl eq_refl).
Defined.

(** ** What every call sends *)

Lemma sends_headers_redfin w self url params :
  sends_headers (base self) (headers self) (redfin_request w self url params).
Proof.
  intros σ d Hd. rewrite redfin_request_run. cbv zeta. rewrite Hd. cbn [default].
  exists url, (default ∅ (heap σ !! default default_params params)), [].
  destruct (http_get w _ _ _) as [r|e]; [destruct (_ && _)|]; reflexivity.
Qed.

Lemma sends_headers_then {A B} b l (c : M A) (k : A → M B) :
  sends_headers b l c → (∀ a, decodes_only (k a)) → sends_headers b l (bind c k).
Proof.
  intros Hc Hk σ d Hd. rewrite bind_run.
  destruct (Hc σ d Hd) as (path & p & docs & Ht).
  destruct (c σ) as [[a|e] σ1]; simpl in *.
  - destruct (Hk a σ1) as [[docs' Ht'] _].
    exists path, p, (docs ++ docs')%list.
    rewrite Ht', Ht, map_app, <- app_assoc. reflexivity.
  - by exists path, p, docs.
Qed.

Lemma sends_headers_after {A B} b l (c : M A) (k : A → M B) :
  silent c → keeps l c → (∀ a, sends_headers b l (k a)) → sends_headers b l (bind c k).
Proof.
  intros Hs Hk Hc σ d Hd. rewrite bind_run.
  destruct (Hs σ) as [[a Ha] Ht]. specialize (Hk σ ltac:(by eexists)).
  destruct (c σ) as [[a'|e] σ1]; simpl in *; [|discriminate].
  destruct (Hc a' σ1 d) as (path & p & docs & Ht'); [by rewrite Hk|].
  exists path, p, docs. by rewrite <- Ht.
Qed.

Lemma sends_headers_property_data w self url params page :
  (page = true → params ≠ headers self) →
  sends_headers (base self) (headers self)
    (request_property_data w self url params page).
Proof.
  intros N. unfold request_property_data.
  apply sends_headers_after.
  { destruct page; [apply silent_setitem | apply silent_ret]. }
  { destruct page; [apply keeps_setitem; by apply N | apply keeps_ret]. }
  intros _. apply sends_headers_after; [apply silent_load | apply keeps_load|].
  intros d. apply sends_headers_after; [apply silent_new_dict | apply keeps_new_dict|].
  intros q. apply sends_headers_then; [apply sends_headers_redfin|].
  intros r. decodes_only_tac.
Qed.

Lemma sends_headers_region_data w self url T R P :
  sends_headers (base self) (headers self) (request_region_data w self url T R P).
Proof.
  unfold request_region_data.
  apply sends_headers_then; [apply sends_headers_redfin|]. intros r. decodes_only_tac.
Qed.

Lemma sends_headers_invoke w self m :
  marks_headers self m = false →
  sends_headers (base self) (headers self) (invoke w self m).
Proof.
  intros Hm.
  destruct m; unfold invoke, fmap_M, search, get_search_results_table,
      primary_region, shared_region,
      get_recently_sold, get_property_information, get_property_images,
      get_property_timeseries_estimate, get_similar_homes, get_offer_insights,
      get_best_schools, get_walk_score_data, get_region_trends, get_flood_risk_data,
      get_market_insights_interlinks, get_env_risk_data, get_home_feature_trends,
      get_compete_score, get_nearby_compete_scores, property_params, month_label;
    repeat lazymatch goal with
      | |- sends_headers _ _ (bind (new_dict _) _) =>
          apply sends_headers_after;
            [apply silent_new_dict | apply keeps_new_dict | intros]
      | |- sends_headers _ _ (bind _ _) =>
          apply sends_headers_then; [| intros; decodes_only_tac]
      | |- sends_headers _ _ (redfin_request _ _ _ _) => apply sends_headers_redfin
      | |- sends_headers _ _ (request_region_data _ _ _ _ _ _) =>
          apply sends_headers_region_data
      | |- sends_headers _ _ (request_property_data _ _ _ _ false) =>
          apply sends_headers_property_data; discriminate
      | |- sends_headers _ _ (request_property_data _ _ _ _ _) =>
          apply sends_headers_property_data; intros ->; simpl in Hm;
          by apply bool_decide_eq_false in Hm
      end.
Qed.

Lemma urls_of_loads docs : urls_of (map EvLoads docs) = [].
Proof. induction docs as [|doc docs IH]; [reflexivity | exact IH]. Qed.

Lemma headers_of_loads docs : headers_of (map EvLoads docs) = [].
Proof. induction docs as [|doc docs IH]; [reflexivity | exact IH]. Qed.

(** X7.  Whatever the method and the answer, a call sends exactly one
    GET and sends it first; its URL is the client's base URL followed
    by a path, and its headers are the contents of the client's header
    dict at the time of the call.  (The one exception is
    [request_property_data] with [page=True] given the header dict
    itself as [params].) *)
Theorem one_get_with_client_headers (w : World) (self : Redfin) (m : method)
    (σ : state) (d : gmap string scalar) :
  heap σ !! headers self = Some d →
  marks_headers self m = false →
  ∃ path p docs,
    events_since σ (snd (invoke w self m σ))
      = EvGet (base self +:+ path) p d :: map EvLoads docs
    ∧ urls_of (events_since σ (snd (invoke w self m σ))) = [base self +:+ path]
    ∧ headers_of (events_since σ (snd (invoke w self m σ))) = [d].
Proof.
  intros Hd Hm.
  destruct (sends_headers_invoke w self m Hm σ d Hd) as (path & p & docs & Ht).
  exists path, p, docs. rewrite (events_since_app _ _ _ Ht).
  split; [reflexivity|]. split.
  - change ((base self +:+ path) :: urls_of (map EvLoads docs) = [base self +:+ path]).
    by rewrite urls_of_loads.
  - change (d :: headers_of (map EvLoads docs) = [d]).
    by rewrite headers_of_loads.
Qed.

Lemma one_get_with_client_headers_witness :
  ∃ path p docs,
    events_since module_state
      (snd (invoke (fixed_world (response_of 200 "{}&&{}") (Build_datetime 2026 11 4))
              (__init__ None) (GetWalkScoreData (SInt 6) (SInt 30818) (SInt 1))
              module_state))
    = EvGet ("https://redfin.com/stingray/" +:+ path) p {["user-agent" := SStr ""]}
        :: map EvLoads docs.
Proof.
  destruct (one_get_with_client_headers
              (fixed_world (response_of 200 "{}&&{}") (Build_datetime 2026 11 4))
              (__init__ None) (GetWalkScoreData (SInt 6) (SInt 30818) (SInt 1))
              module_state {["user-agent" := SStr ""]})
    as (path & p & docs & H & _).
  - apply lookup_insert_eq.
  - reflexivity.
  - exists path, p, docs. exact H.
Defined.

(** X12.  A failure of the transport is passed on as it is: the call
    raises the very exception of [requests.get], it has sent that one
    GET and no other (there is no retry), and it has decoded nothing. *)
Theorem transport_failure_passed_on (w : World) (self : Redfin) (m : method)
    (σ : state) (url : string) (p h : gmap string scalar) (rest : list event)
    (e : exn) :
  events_since σ (snd (invoke w self m σ)) = EvGet url p h :: rest →
  http_get w url p h = Raise e →
  fst (invoke w self m σ) = Raise e ∧ rest = [].
Proof.
  intros Hev Hr.
  destruct (one_request_invoke w self m σ) as (url' & p' & h' & docs & Ht & Hres).
  rewrite (events_since_app _ _ _ Ht) in Hev. injection Hev as -> -> -> <-.
  rewrite Hr in Hres. destruct Hres as [-> ->]. done.
Qed.

Lemma transport_failure_passed_on_witness :
  fst (invoke (down_world (Build_datetime 2026 11 4)) (__init__ None)
         (Search "Albany, NY" ∅) module_state)
  = Raise ConnectionError.
Proof.
  refine (proj1 (transport_failure_passed_on
           (down_world (Build_datetime 2026 11 4)) (__init__ None)
           (Search "Albany, NY" ∅) module_state
           "https://redfin.com/stingray/do/location-autocomplete"
           (search_query "Albany, NY" ∅) {["user-agent" := SStr ""]} []
           ConnectionError _ _)).
  - vm_compute. reflexivity.
  - reflexivity.
Defined.

(** ** Paths and queries of the domain methods *)

Lemma snd_bind_ret {A B} (c : M A) (f : A → B) σ :
  snd (bind c (λ x, ret (f x)) σ) = snd (c σ).
Proof. rewrite bind_run. by destruct (c σ) as [[a|e] σ1]. Qed.

Lemma trace_bind_quiet {A B} (c : M A) (k : A → M B) σ :
  (∀ a, quiet (k a)) → trace (snd (bind c k σ)) = trace (snd (c σ)).
Proof.
  intros Hk. rewrite bind_run. destruct (c σ) as [[a|e] σ1]; [apply Hk | reflexivity].
Qed.

Lemma sent_same σ σ1 σ2 : trace σ1 = trace σ2 → sent σ σ1 = sent σ σ2.
Proof. unfold sent, events_since. by intros ->. Qed.

Lemma sent_from σ σ1 σ' : trace σ1 = trace σ → sent σ1 σ' = sent σ σ'.
Proof. intros E. unfold sent. by rewrite (events_since_same _ _ _ E). Qed.

Lemma sent_fetch w self url params σ :
  sent σ (snd (fetch w self url params σ))
    = [(base self +:+ url, default ∅ (heap σ !! default default_params params))].
Proof.
  rewrite fetch_run. cbv zeta. unfold sent.
  destruct (http_get w _ _ _) as [r|e]; [destruct (_ && _)|]; cbn [snd].
  - by rewrite events_since_log1.
  - by rewrite events_since_log2.
  - by rewrite events_since_log1.
Qed.

Lemma fetch_params w self url params σ :
  params_of (events_since σ (snd (fetch w self url params σ)))
    = [default ∅ (heap σ !! default default_params params)].
Proof.
  rewrite fetch_run. cbv zeta.
  destruct (http_get w _ _ _) as [r|e]; [destruct (_ && _)|]; cbn [snd].
  - by rewrite events_since_log1.
  - by rewrite events_since_log2.
  - by rewrite events_since_log1.
Qed.

Lemma sent_property_data w self url params page σ :
  sent σ (snd (request_property_data w self url params page σ))
    = [(base self +:+ ("api/home/details/" +:+ url),
        marked page (default ∅ (heap σ !! params)) ∪ {["accessLevel" := SInt 1]})].
Proof.
  rewrite request_property_data_run. cbv zeta.
  set (σ1 := State _ (trace σ) (ticks σ)).
  rewrite <- (sent_from σ σ1) by reflexivity.
  rewrite sent_fetch. subst σ1. cbn [default heap]. by rewrite lookup_insert_eq.
Qed.

Lemma py_eq_not_empty P : P ≠ SStr "" → py_eq P (SStr "") = false.
Proof.
  intros N. destruct (py_eq P (SStr "")) eqn:E; [|reflexivity].
  apply py_eq_empty_str in E. contradiction.
Qed.

(** X6.  Each of the ten region methods is one call of
    [request_region_data] with its own sub-path: it sends one GET to
    [api/region/{T}/{R}/{suffix}], with the property type as a fourth
    segment before the suffix only for the four methods that take one
    and only when it is not [""].  The query is the content of the
    shared default dict of [redfin_request], so it is empty as long as
    nobody stored into that dict. *)
Theorem region_methods_paths (w : World) (self : Redfin) (m : method) (σ : state)
    (suffix : string) (T R P : scalar) :
  region_call m = Some (suffix, T, R, P) →
  invoke w self m σ
    = fmap_M RVal (request_region_data w self suffix T R P) σ
  ∧ sent σ (snd (invoke w self m σ))
      = [(base self +:+ region_path suffix T R P, default ∅ (heap σ !! default_params))]
  ∧ (match m with
     | GetOfferInsights _ _ _ | GetBestSchools _ _ _
     | GetWalkScoreData _ _ _ | GetRegionTrends _ _ _ => True
     | _ => region_path suffix T R P
            = "api/region/" +:+ py_str T +:+ "/" +:+ py_str R +:+ "/" +:+ suffix
     end)
  ∧ (heap σ !! default_params = Some ∅ →
     params_of (events_since σ (snd (invoke w self m σ))) = [∅]).
Proof.
  intros Hm.
  assert (invoke w self m σ = fmap_M RVal (request_region_data w self suffix T R P) σ)
    as Hi.
  { destruct m; try discriminate Hm; injection Hm as <- <- <- <-;
      unfold invoke, fmap_M, get_offer_insights, get_best_schools, get_walk_score_data,
        get_region_trends, get_flood_risk_data, get_market_insights_interlinks,
        get_env_risk_data, get_home_feature_trends, get_compete_score,
        get_nearby_compete_scores;
      rewrite !bind_run; by destruct (request_region_data _ _ _ _ _ _ _) as [[x|e] σ1]. }
  assert (sent σ (snd (invoke w self m σ))
          = [(base self +:+ region_path suffix T R P, default ∅ (heap σ !! default_params))])
    as Hs.
  { rewrite Hi. unfold fmap_M. rewrite snd_bind_ret, request_region_data_run, sent_fetch.
    unfold region_path. destruct (decide (P = SStr "")) as [->|N].
    - reflexivity.
    - by rewrite py_eq_not_empty. }
  split; [exact Hi|]. split; [exact Hs|]. split.
  - destruct m; try discriminate Hm; try exact I; injection Hm as <- <- <- <-;
      reflexivity.
  - intros H0. rewrite Hi. unfold fmap_M.
    rewrite snd_bind_ret, request_region_data_run, fetch_params.
    cbn [default]. by rewrite H0.
Qed.

Lemma region_methods_paths_witness :
  sent module_state
    (snd (invoke (fixed_world (response_of 200 "{}&&{}") (Build_datetime 2026 11 4))
            (__init__ None) (GetFloodRiskData (SInt 2) (SInt 8729)) module_state))
  = [("https://redfin.com/stingray/api/region/2/8729/floodRisk-data", ∅)].
Proof.
  refine (proj1 (proj2 (region_methods_paths
           (fixed_world (response_of 200 "{}&&{}") (Build_datetime 2026 11 4))
           (__init__ None) (GetFloodRiskData (SInt 2) (SInt 8729)) module_state
           "floodRisk-data" (SInt 2) (SInt 8729) (SStr "") eq_refl))).
Defined.

Lemma sent_property_method {A} w self suffix pid lid (k : pyval → M A) σ :
  (∀ x, quiet (k x)) →
  sent σ (snd ((params ←' property_params pid lid ;'
                response ←' request_property_data w self suffix params false ;'
                k response) σ))
    = [(base self +:+ ("api/home/details/" +:+ suffix), property_query pid lid)].
Proof.
  intros Hk. unfold property_params. rewrite bind_run. unfold new_dict at 1.
  set (σ1 := State _ (trace σ) (ticks σ)).
  rewrite (sent_same σ _ _ (trace_bind_quiet _ k σ1 Hk)).
  rewrite <- (sent_from σ σ1) by reflexivity.
  rewrite sent_property_data. subst σ1. cbn [default heap marked].
  by rewrite lookup_insert_eq.
Qed.

(** X9.  Each of the four per-property methods sends one GET to
    [api/home/details/] followed by its own sub-path, with a query of
    exactly three entries: [propertyId] and [listingId] as given and
    [accessLevel=1].  None of them ever sends [pageType]. *)
Theorem property_methods_query (w : World) (self : Redfin) (m : method) (σ : state)
    (suffix : string) (pid lid : scalar) :
  property_call m = Some (suffix, pid, lid) →
  let q := property_query pid lid in
  sent σ (snd (invoke w self m σ)) = [(base self +:+ ("api/home/details/" +:+ suffix), q)]
  ∧ size q = 3%nat
  ∧ q !! "propertyId" = Some pid
  ∧ q !! "listingId" = Some lid
  ∧ q !! "accessLevel" = Some (SInt 1)
  ∧ q !! "pageType" = None.
Proof.
  intros Hm q. split.
  - destruct m; try discriminate Hm; injection Hm as <- <- <-;
      unfold invoke, fmap_M;
      rewrite (sent_same σ _ _ (trace_bind_quiet _ _ σ (λ x, quiet_ret _)));
      apply sent_property_method; intros x; quiet_tac.
  - subst q. unfold property_query. repeat split.
Qed.

Lemma property_methods_query_witness :
  sent module_state
    (snd (invoke (fixed_world (response_of 200 "{}&&{}") (Build_datetime 2026 11 4))
            (__init__ None) (GetSimilarHomes (SInt 9701815) (SStr "104431105"))
            module_state))
  = [("https://redfin.com/stingray/api/home/details/avm",
      property_query (SInt 9701815) (SStr "104431105"))].
Proof.
  refine (proj1 (property_methods_query
           (fixed_world (response_of 200 "{}&&{}") (Build_datetime 2026 11 4))
           (__init__ None) (GetSimilarHomes (SInt 9701815) (SStr "104431105"))
           module_state "avm" (SInt 9701815) (SStr "104431105") eq_refl)).
Defined.

(** ** Edges of the time series *)

Lemma timeseries_of_ticks w resp payload ests σ :
  getitem_key resp "payload" = Ok payload →
  getitem_key payload "propertyTimeSeries" = Ok (VList ests) →
  (∀ j, (j < 61)%nat → reading_ok (clock w (ticks σ + j))) →
  ticks (snd (timeseries_of w resp σ)) = (ticks σ + 61)%nat.
Proof.
  intros Hp He Hok. rewrite (timeseries_of_run w resp payload ests σ Hp He Hok).
  set (ml := reverse _).
  assert (∀ l acc σ0, ticks (snd (foldM (zip_step ml (VList ests)) l acc σ0)) = ticks σ0)
    as Hf.
  { induction l as [|i l IH]; intros acc σ0; [reflexivity|].
    cbn [foldM]. rewrite bind_run. unfold zip_step at 1, bind, lift, ret.
    destruct (list_getitem ml i); [|reflexivity].
    destruct (getitem_idx (VList ests) i); [apply IH | reflexivity]. }
  specialize (Hf (seq 0 (length ests)) [] (tick_n 61 σ)).
  destruct (foldM _ _ _ _) as [[ts|e] σ']; exact Hf.
Qed.

(** X10.  After a request that succeeds and decodes,
    [get_property_timeseries_estimate] raises the error of the lookup,
    without reading the clock, when [payload] or [propertyTimeSeries]
    is missing.  Otherwise it first reads the clock 61 times, whatever
    the estimates are: for the empty list it then returns the empty
    dict, and for [null] in place of the list it raises [TypeError]. *)
Theorem timeseries_edges (w : World) (self : Redfin) (pid lid : scalar) (σ : state)
    (r : Response) (resp : pyval) :
  (∀ h, http_get w (timeseries_url self) (timeseries_query pid lid) h = Ok r) →
  ¬ (400 ≤ status_code r < 600) →
  json_loads w (str_slice_from 4 (text r)) = Some resp →
  let out := get_property_timeseries_estimate w self pid lid σ in
  (∀ e, getitem_key resp "payload" = Raise e →
     fst out = Raise e ∧ ticks (snd out) = ticks σ)
  ∧ (∀ payload e, getitem_key resp "payload" = Ok payload →
     getitem_key payload "propertyTimeSeries" = Raise e →
     fst out = Raise e ∧ ticks (snd out) = ticks σ)
  ∧ (∀ payload ests, getitem_key resp "payload" = Ok payload →
     getitem_key payload "propertyTimeSeries" = Ok (VList ests) →
     (∀ j, (j < 61)%nat → reading_ok (clock w (ticks σ + j))) →
     ticks (snd out) = (ticks σ + 61)%nat
     ∧ (ests = [] → fst out = Ok (VDict [])))
  ∧ (∀ payload, getitem_key resp "payload" = Ok payload →
     getitem_key payload "propertyTimeSeries" = Ok VNone →
     (∀ j, (j < 61)%nat → reading_ok (clock w (ticks σ + j))) →
     fst out = Raise TypeError ∧ ticks (snd out) = (ticks σ + 61)%nat).
Proof.
  intros Hget Hst Hj out. subst out.
  destruct (timeseries_request w self pid lid σ r resp Hget Hst Hj) as (σ2 & Ht & ->).
  split; [|split; [|split]].
  - intros e Hp.
    assert (timeseries_of w resp σ2 = (Raise e, σ2)) as ->.
    { unfold timeseries_of. rewrite bind_run. unfold lift at 1. by rewrite Hp. }
    split; [reflexivity | exact Ht].
  - intros payload e Hp He.
    assert (timeseries_of w resp σ2 = (Raise e, σ2)) as ->.
    { unfold timeseries_of. rewrite bind_run. unfold lift at 1. rewrite Hp.
      rewrite bind_run. unfold lift at 1. by rewrite He. }
    split; [reflexivity | exact Ht].
  - intros payload ests Hp He Hok.
    assert (∀ j, (j < 61)%nat → reading_ok (clock w (ticks σ2 + j))) as Hok2.
    { intros j Hj'. rewrite Ht. by apply Hok. }
    split.
    + rewrite (timeseries_of_ticks w resp payload ests σ2 Hp He Hok2). by rewrite Ht.
    + intros ->. rewrite (timeseries_of_run w resp payload [] σ2 Hp He Hok2).
      reflexivity.
  - intros payload Hp He Hok.
    assert (∀ j, (j < 61)%nat → reading_ok (clock w (ticks σ2 + j))) as Hok2.
    { intros j Hj'. rewrite Ht. by apply Hok. }
    assert (timeseries_of w resp σ2 = (Raise TypeError, tick_n 61 σ2)) as ->.
    { unfold timeseries_of. rewrite bind_run. unfold lift at 1. rewrite Hp.
      rewrite bind_run. unfold lift at 1. rewrite He.
      rewrite bind_run, mapM_month_label; [|apply month_range_bounds|exact Hok2].
      rewrite bind_run. unfold lift at 1. reflexivity. }
    split; [reflexivity|]. unfold tick_n. cbn [snd ticks]. by rewrite Ht.
Qed.

Lemma timeseries_edges_witness :
  fst (get_property_timeseries_estimate
         (fixed_world (response_of 200 (timeseries_body [])) (Build_datetime 2026 11 4))
         (__init__ None) (SInt 9701815) (SStr "") module_state)
  = Ok (VDict []).
Proof.
  destruct (timeseries_edges
              (fixed_world (response_of 200 (timeseries_body [])) (Build_datetime 2026 11 4))
              (__init__ None) (SInt 9701815) (SStr "") module_state
              (response_of 200 (timeseries_body []))
              (VDict [("payload", VDict [("propertyTimeSeries", VList [])])]))
    as (_ & _ & H & _).
  - intros h. reflexivity.
  - simpl. lia.
  - vm_compute. reflexivity.
  - destruct (H (VDict [("propertyTimeSeries", VList [])]) [] eq_refl eq_refl) as [_ E].
    + intros j _. unfold reading_ok. simpl. lia.
    + exact (E eq_refl).
Defined.

(** ** A month change during the call *)

Lemma month_list_lookup (w : World) (t r : nat) :
  (r < 61)%nat →
  (∀ j, (j < 61)%nat → reading_ok (clock w (t + j))) →
  reverse (imap (λ j i, month_label_at w (t + j) i) month_range) !! r
    = Some (label_of_index (month_index (clock w (t + (60 - r)))
                            - (Z.of_nat (60 - r) - 2))).
Proof.
  intros Hr Hok.
  assert (length month_range = 61%nat) as Hlen by reflexivity.
  assert (∀ j, (j < 61)%nat → month_range !! j = Some (Z.of_nat j - 1)) as Hlk.
  { intros j Hj. rewrite month_range_spec, list_lookup_fmap, lookup_seq_lt by lia.
    reflexivity. }
  remember month_range as mr eqn:Emr. clear Emr.
  rewrite reverse_lookup by (rewrite length_imap; lia).
  rewrite length_imap, Hlen, list_lookup_imap, Hlk by lia.
  cbn [fmap option_fmap option_map]. f_equal.
  replace (61 - S r)%nat with (60 - r)%nat by lia.
  destruct (month_label_at_index w (t + (60 - r)) (Z.of_nat (60 - r) - 1))
    as [_ ->]; [apply Hok; lia | lia |].
  f_equal. lia.
Qed.

Lemma foldM_zip_agree ml ml' ests l acc σ :
  (∀ i, i ∈ l → ml !! i = ml' !! i) →
  foldM (zip_step ml ests) l acc σ = foldM (zip_step ml' ests) l acc σ.
Proof.
  revert acc σ. induction l as [|i l IH]; intros acc σ H; [reflexivity|].
  cbn [foldM]. rewrite !bind_run.
  assert (zip_step ml ests acc i σ = zip_step ml' ests acc i σ) as ->.
  { unfold zip_step, bind, lift, list_getitem. rewrite (H i); [reflexivity | left]. }
  destruct (zip_step ml' ests acc i σ) as [[acc'|e] σ1]; [|reflexivity].
  apply IH. intros j Hj. apply H. by right.
Qed.

Lemma foldM_app {A B} (f : B → A → M B) (l1 l2 : list A) (b : B) σ :
  foldM f (l1 ++ l2)%list b σ = bind (foldM f l1 b) (λ b', foldM f l2 b') σ.
Proof.
  revert b σ. induction l1 as [|a l1 IH]; intros b σ; [reflexivity|].
  cbn [app foldM]. rewrite !bind_run.
  destruct (f b a σ) as [[b'|e] σ1]; [|reflexivity].
  rewrite IH, bind_run. reflexivity.
Qed.

Lemma dict_setitem_last k x x' items :
  k ∉ items.*1 →
  dict_setitem k x (items ++ [(k, x')])%list = (items ++ [(k, x)])%list.
Proof.
  induction items as [|[k0 x0] items IH]; intros N.
  - simpl. by rewrite String.eqb_refl.
  - simpl. destruct (String.eqb k k0) eqn:E.
    + apply String.eqb_eq in E. subst. exfalso. apply N. simpl. left.
    + rewrite IH; [done|]. intros F. apply N. simpl. by right.
Qed.

Lemma rollover_labels_NoDup idx : NoDup (rollover_labels idx).
Proof.
  unfold rollover_labels. apply (NoDup_fmap_2_strong _ (seq 0 60)); [|apply NoDup_seq].
  intros r1 r2 H1%elem_of_seq H2%elem_of_seq E.
  apply label_of_index_inj in E; lia.
Qed.

(** X11.  The clock is read anew for each of the 61 labels.  When the
    month changes between the first and the second reading, the first
    two labels computed are the same month, so the label list holds
    only 60 different labels and ends with a repeated one: for 61
    estimates the returned dict has 60 entries, the last label holding
    the 61st estimate, and the 60th estimate is overwritten. *)
Theorem labels_repeat_on_rollover (w : World) (self : Redfin) (pid lid : scalar)
    (σ : state) (r : Response) (resp payload : pyval) (ests : list pyval)
    (e60 : pyval) (idx : Z) :
  (∀ h, http_get w (timeseries_url self) (timeseries_query pid lid) h = Ok r) →
  ¬ (400 ≤ status_code r < 600) →
  json_loads w (str_slice_from 4 (text r)) = Some resp →
  getitem_key resp "payload" = Ok payload →
  getitem_key payload "propertyTimeSeries" = Ok (VList ests) →
  length ests = 61%nat → ests !! 60%nat = Some e60 →
  (∀ j, (j < 61)%nat → reading_ok (clock w (ticks σ + j))) →
  month_index (clock w (ticks σ)) = idx →
  (∀ j, (1 ≤ j < 61)%nat → month_index (clock w (ticks σ + j)) = idx + 1) →
  let ts := (zip (take 59 (rollover_labels idx)) (take 59 ests)
               ++ [(label_of_index (idx + 2), e60)])%list in
  fst (get_property_timeseries_estimate w self pid lid σ) = Ok (VDict ts)
  ∧ length ts = 60%nat
  ∧ ts.*1 = rollover_labels idx.
Proof.
  intros Hget Hst Hj Hp He Hlen H60 Hok H0 H1 ts.
  assert (length (rollover_labels idx) = 60%nat) as HL
    by (unfold rollover_labels; by rewrite length_map, length_seq).
  assert (rollover_labels idx !! 59%nat = Some (label_of_index (idx + 2))) as H59.
  { unfold rollover_labels. rewrite list_lookup_fmap, lookup_seq_lt by lia.
    simpl. do 2 f_equal. lia. }
  split; [|split].
  - destruct (timeseries_request w self pid lid σ r resp Hget Hst Hj) as (σ2 & Ht & ->).
    rewrite (timeseries_of_run w resp payload ests σ2 Hp He); cycle 1.
    { intros j Hj'. rewrite Ht. by apply Hok. }
    rewrite Ht, Hlen. set (ml := reverse _).
    assert (∀ i, (i < 60)%nat → ml !! i = rollover_labels idx !! i) as Hag.
    { intros i Hi. unfold ml. rewrite month_list_lookup by (done || lia).
      rewrite H1 by lia. unfold rollover_labels.
      rewrite list_lookup_fmap, lookup_seq_lt by lia. simpl. do 2 f_equal; lia. }
    assert (ml !! 60%nat = Some (label_of_index (idx + 2))) as Hml.
    { unfold ml. rewrite month_list_lookup by (done || lia).
      rewrite Nat.sub_diag, Nat.add_0_r, H0. do 2 f_equal; lia. }
    change (seq 0 61) with (seq 0 60 ++ [60%nat])%list.
    rewrite foldM_app, bind_run.
    rewrite (foldM_zip_agree ml (rollover_labels idx)); cycle 1.
    { intros i Hi%elem_of_seq. apply Hag. lia. }
    pose proof (foldM_zip (rollover_labels idx) ests 60 0 (tick_n 61 σ2)
                  (rollover_labels_NoDup idx)) as Hz.
    rewrite !take_0 in Hz. change (zip [] []) with (@nil (string * pyval)) in Hz.
    change (0 + 60)%nat with 60%nat in Hz. rewrite Hz by lia.
    cbn [foldM]. rewrite bind_run, (zip_step_run ml ests _ _ _ _ e60 Hml H60).
    cbn [ret fst]. do 2 f_equal.
    destruct (lookup_lt_is_Some_2 ests 59 ltac:(lia)) as [e59 H59e].
    rewrite (take_ge (rollover_labels idx)) by lia.
    rewrite <- (take_ge (rollover_labels idx) 60) at 1 by lia.
    rewrite (take_S_r _ _ _ H59), (take_S_r _ _ _ H59e).
    rewrite zip_with_app by (rewrite !length_take; lia).
    apply dict_setitem_last.
    rewrite fst_zip by (rewrite !length_take; lia).
    intros (j & Hjl)%list_elem_of_lookup. apply lookup_take_Some in Hjl as [Hjl Hlt].
    pose proof (NoDup_lookup _ _ _ _ (rollover_labels_NoDup idx) Hjl H59). lia.
  - unfold ts. rewrite length_app, length_zip_with, !length_take, HL, Hlen. reflexivity.
  - unfold ts. rewrite fmap_app, fst_zip by (rewrite !length_take; lia).
    change ([(label_of_index (idx + 2), e60)].*1) with [label_of_index (idx + 2)].
    rewrite <- (take_S_r _ _ _ H59). apply take_ge. lia.
Qed.

Lemma labels_repeat_on_rollover_witness :
  ∃ ts,
    fst (get_property_timeseries_estimate
           (rolling_world (response_of 200 (timeseries_body (replicate 61 "1")))
              (Build_datetime 2026 11 30) (Build_datetime 2026 12 1))
           (__init__ None) (SInt 9701815) (SStr "") module_state)
    = Ok (VDict ts)
    ∧ length ts = 60%nat.
Proof.
  destruct (labels_repeat_on_rollover
              (rolling_world (response_of 200 (timeseries_body (replicate 61 "1")))
                 (Build_datetime 2026 11 30) (Build_datetime 2026 12 1))
              (__init__ None) (SInt 9701815) (SStr "") module_state
              (response_of 200 (timeseries_body (replicate 61 "1")))
              (VDict [("payload",
                       VDict [("propertyTimeSeries", VList (replicate 61 (VInt 1)))])])
              (VDict [("propertyTimeSeries", VList (replicate 61 (VInt 1)))])
              (replicate 61 (VInt 1)) (VInt 1) 24322) as (H1 & H2 & _).
  - intros h. reflexivity.
  - simpl. lia.
  - vm_compute. reflexivity.
  - reflexivity.
  - reflexivity.
  - reflexivity.
  - reflexivity.
  - intros j _. destruct j; split; simpl; lia.
  - reflexivity.
  - intros j Hj. destruct j; [lia | reflexivity].
  - eexists. split; [exact H1 | exact H2].
Defined.

(** ** An answer that is no JSON document *)

Lemma decode_request_fetch w self url params :
  decode_request w (fetch w self url params).
Proof.
  intros σ. rewrite fetch_run. cbv zeta. split.
  - intros u p h rest r.
    destruct (http_get w (base self +:+ url) _ _) as [r'|e] eqn:E.
    + fold (http_failed r'). destruct (http_failed r') eqn:F.
      * cbn [snd]. rewrite events_since_log. intros [= <- <- <- <-]. congruence.
      * cbn [snd fst]. rewrite events_since_log2 by reflexivity.
        intros [= <- <- <- <-] Hget _ Hj.
        rewrite E in Hget. injection Hget as ->. by rewrite Hj.
    + cbn [snd]. rewrite events_since_log. intros [= <- <- <- <-]. congruence.
  - intros a σ'.
    destruct (http_get w _ _ _) as [r'|e] eqn:E; [|discriminate].
    fold (http_failed r'). destruct (http_failed r'); [discriminate|].
    destruct (json_loads w _) as [y|] eqn:J; [|discriminate]. intros [= -> <-].
    eexists _, _, _, r'. split; [by apply events_since_log2|]. split; [exact E|].
    rewrite J. by eexists.
Qed.

Lemma decode_request_after {A B} w (c : M A) (k : A → M B) :
  quiet c → (∀ a, decode_request w (k a)) → decode_request w (bind c k).
Proof.
  intros Hc Hk σ. pose proof (Hc σ) as Ht. rewrite bind_run.
  destruct (c σ) as [[a|e] σ1]; cbn [snd] in Ht.
  - destruct (Hk a σ1) as [H1 H2]. split.
    + intros u p h rest r. rewrite <- (events_since_same σ σ1) by exact Ht. apply H1.
    + intros b σ'. rewrite <- (events_since_same σ σ1) by exact Ht. apply H2.
  - split; [|discriminate]. intros u p h rest r. cbn [snd].
    unfold events_since. rewrite Ht, drop_all. discriminate.
Qed.

Lemma decode_request_then {A B} w (c : M A) (k : A → M B) :
  decode_request w c → (∀ a, quiet (k a)) → decode_request w (bind c k).
Proof.
  intros Hc Hk σ. destruct (Hc σ) as [H1 H2]. rewrite bind_run.
  destruct (c σ) as [[a|e] σ1] eqn:E.
  - destruct (H2 a σ1 eq_refl) as (u' & p' & h' & r' & Hev' & Hget' & Hj').
    assert (∀ σ', σ' = snd (k a σ1) → events_since σ σ' = events_since σ σ1) as Hsame.
    { intros σ' ->. unfold events_since. by rewrite (Hk a σ1). }
    split.
    + intros u p h rest r. rewrite (Hsame _ eq_refl), Hev'. intros [= <- <- <- <-] Hget.
      rewrite Hget' in Hget. injection Hget as ->. intros _ Hj.
      rewrite Hj in Hj'. by destruct Hj'.
    + intros b σ' Ek. exists u', p', h', r'. split; [|by split].
      rewrite (Hsame σ') by (by rewrite Ek). exact Hev'.
  - split; [|discriminate]. intros u p h rest r Hev Hget Hf Hj.
    destruct (H1 u p h rest r Hev Hget Hf Hj) as [F ->].
    cbn [fst] in F. injection F as ->. by split.
Qed.

Lemma decode_request_property_data w self url params page :
  decode_request w (request_property_data w self url params page).
Proof.
  intros σ. rewrite request_property_data_run. cbv zeta.
  match goal with |- context [fetch w self ?u ?q ?s] =>
    destruct (decode_request_fetch w self u q s) as [H1 H2] end.
  split; [exact H1 | exact H2].
Qed.

Lemma decode_request_region_data w self url T R P :
  decode_request w (request_region_data w self url T R P).
Proof. intros σ. rewrite request_region_data_run. apply decode_request_fetch. Qed.

Lemma decode_request_search w self query kwargs :
  decode_request w (search w self query kwargs).
Proof.
  unfold search. apply decode_request_after; [apply quiet_new_dict|].
  intros params. apply (decode_request_fetch w self _ (Some params)).
Qed.

Ltac decode_request_tac :=
  repeat lazymatch goal with
    | |- decode_request _ (bind (new_dict _) _) =>
        apply decode_request_after; [apply quiet_new_dict | intros]
    | |- decode_request _ (request_property_data _ _ _ _ _) =>
        apply decode_request_property_data
    | |- decode_request _ (request_region_data _ _ _ _ _ _) =>
        apply decode_request_region_data
    | |- decode_request _ (search _ _ _ _) => apply decode_request_search
    | |- decode_request _ (bind _ _) =>
        apply decode_request_then; [| intros; quiet_tac]
    end.

Lemma decode_request_invoke w self m :
  decodes m = true → decode_request w (invoke w self m).
Proof.
  intros Hm. destruct m; try discriminate Hm;
    unfold invoke, fmap_M, get_property_information, get_property_images,
      get_property_timeseries_estimate, get_similar_homes, get_offer_insights,
      get_best_schools, get_walk_score_data, get_region_trends, get_flood_risk_data,
      get_market_insights_interlinks, get_env_risk_data, get_home_feature_trends,
      get_compete_score, get_nearby_compete_scores, property_params;
    decode_request_tac.
Qed.

(** X13.  An answer whose status is not 4xx or 5xx but whose text, past
    its first four characters, is no JSON document (an HTML page, an
    empty body) makes every decoding method raise [JSONDecodeError]:
    the error of [json.loads] is not caught, the one GET is followed by
    that one decoding and by nothing else. *)
Theorem undecodable_answer (w : World) (self : Redfin) (m : method) (σ : state)
    (url : string) (p h : gmap string scalar) (rest : list event) (r : Response) :
  decodes m = true →
  events_since σ (snd (invoke w self m σ)) = EvGet url p h :: rest →
  http_get w url p h = Ok r →
  ¬ (400 ≤ status_code r < 600) →
  json_loads w (str_slice_from 4 (text r)) = None →
  fst (invoke w self m σ) = Raise JSONDecodeError
  ∧ rest = [EvLoads (str_slice_from 4 (text r))].
Proof.
  intros Hm Hev Hget Hst Hj.
  destruct (decode_request_invoke w self m Hm σ) as [H _].
  apply (H url p h rest r Hev Hget); [|exact Hj].
  unfold http_failed. lia.
Qed.

Lemma undecodable_answer_witness :
  fst (invoke (fixed_world (response_of 200 "<html>blocked</html>")
                 (Build_datetime 2026 11 4))
         (__init__ None) (GetFloodRiskData (SInt 2) (SInt 30749)) module_state)
  = Raise JSONDecodeError.
Proof.
  refine (proj1 (undecodable_answer
           (fixed_world (response_of 200 "<html>blocked</html>")
              (Build_datetime 2026 11 4))
           (__init__ None) (GetFloodRiskData (SInt 2) (SInt 30749)) module_state
           "https://redfin.com/stingray/api/region/2/30749/floodRisk-data"
           ∅ {["user-agent" := SStr ""]} [EvLoads "l>blocked</html>"]
           (response_of 200 "<html>blocked</html>") _ _ _ _ _)).
  - reflexivity.
  - vm_compute. reflexivity.
  - reflexivity.
  - simpl. lia.
  - vm_compute. reflexivity.
Defined.

(** * What the methods return *)

Lemma fmap_M_run {A B} (f : A → B) (c : M A) σ :
  fmap_M f c σ = match c σ with
                 | (Ok a, σ') => (Ok (f a), σ')
                 | (Raise e, σ') => (Raise e, σ')
                 end.
Proof. reflexivity. Qed.

Lemma payload_returned_fetch w self url params :
  payload_returned w (fetch w self url params).
Proof.
  intros σ u p h rest r x. rewrite fetch_run. cbv zeta.
  destruct (http_get w (base self +:+ url) _ _) as [r'|e] eqn:E.
  - fold (http_failed r'). destruct (http_failed r') eqn:F.
    + cbn [snd]. rewrite events_since_log. intros [= <- <- <- <-]. congruence.
    + cbn [snd]. rewrite events_since_log2 by reflexivity.
      intros [= <- <- <- <-] Hget _ Hj.
      rewrite E in Hget. injection Hget as ->. rewrite Hj.
      eexists. split; [reflexivity|]. by split.
  - cbn [snd]. rewrite events_since_log. intros [= <- <- <- <-]. congruence.
Qed.

Lemma payload_returned_new_dict w d (k : loc → M pyval) :
  (∀ l, payload_returned w (k l)) → payload_returned w (bind (new_dict d) k).
Proof.
  intros Hk σ.
  exact (Hk (fresh (dom (heap σ)))
            (State (<[fresh (dom (heap σ)) := d]> (heap σ)) (trace σ) (ticks σ))).
Qed.

Lemma payload_returned_eta w (c : M pyval) :
  payload_returned w c → payload_returned w (bind c (λ x, ret x)).
Proof.
  intros Hc σ u p h rest r x Hev Hget Hf Hj.
  rewrite (snd_bind_ret c (λ y, y)) in Hev.
  destruct (Hc σ u p h rest r x Hev Hget Hf Hj) as (σ' & E & Ht & ->).
  exists σ'. rewrite bind_run, E. done.
Qed.

Lemma payload_returned_property_data w self url params page :
  payload_returned w (request_property_data w self url params page).
Proof.
  intros σ. rewrite request_property_data_run. cbv zeta.
  match goal with |- context [fetch w self ?u ?q ?s] =>
    exact (payload_returned_fetch w self u q s) end.
Qed.

Lemma payload_returned_region_data w self url T R P :
  payload_returned w (request_region_data w self url T R P).
Proof. intros σ. rewrite request_region_data_run. apply payload_returned_fetch. Qed.

Lemma payload_returned_search w self query kwargs :
  payload_returned w (search w self query kwargs).
Proof.
  unfold search. apply payload_returned_new_dict.
  intros params. apply (payload_returned_fetch w self _ (Some params)).
Qed.

Ltac payload_returned_tac :=
  repeat lazymatch goal with
    | |- payload_returned _ (bind (new_dict _) _) =>
        apply payload_returned_new_dict; intros
    | |- payload_returned _ (bind _ (λ x, ret x)) => apply payload_returned_eta
    | |- payload_returned _ (request_property_data _ _ _ _ _) =>
        apply payload_returned_property_data
    | |- payload_returned _ (request_region_data _ _ _ _ _ _) =>
        apply payload_returned_region_data
    | |- payload_returned _ (search _ _ _ _) => apply payload_returned_search
    end.

Lemma invoke_payload w self m :
  passes_payload m = true →
  ∃ c, invoke w self m = fmap_M RVal c ∧ payload_call w c ∧ payload_returned w c.
Proof.
  intros Hm. destruct m; try discriminate Hm;
    eexists; (split; [reflexivity|]);
    unfold get_property_information, get_similar_homes, get_offer_insights,
      get_best_schools, get_walk_score_data, get_region_trends, get_flood_risk_data,
      get_market_insights_interlinks, get_env_risk_data, get_home_feature_trends,
      get_compete_score, get_nearby_compete_scores, property_params;
    (split; [payload_call_tac | payload_returned_tac]).
Qed.

Lemma response_returned_redfin w self url params :
  response_returned w (redfin_request w self url params).
Proof.
  intros σ u p h rest r. rewrite redfin_request_run. cbv zeta.
  destruct (http_get w (base self +:+ url) _ _) as [r'|e] eqn:E.
  - fold (http_failed r'). destruct (http_failed r') eqn:F.
    + cbn [snd]. rewrite events_since_log. intros [= <- <- <- <-]. congruence.
    + cbn [snd fst]. rewrite events_since_log. intros [= <- <- <- <-] Hget _.
      rewrite E in Hget. injection Hget as ->. done.
  - cbn [snd]. rewrite events_since_log. intros [= <- <- <- <-]. congruence.
Qed.

Lemma response_returned_new_dict w d (k : loc → M Response) :
  (∀ l, response_returned w (k l)) → response_returned w (bind (new_dict d) k).
Proof.
  intros Hk σ.
  exact (Hk (fresh (dom (heap σ)))
            (State (<[fresh (dom (heap σ)) := d]> (heap σ)) (trace σ) (ticks σ))).
Qed.

Lemma response_returned_eta w (c : M Response) :
  response_returned w c → response_returned w (bind c (λ x, ret x)).
Proof.
  intros Hc σ u p h rest r Hev Hget Hf.
  rewrite (snd_bind_ret c (λ y, y)) in Hev.
  destruct (Hc σ u p h rest r Hev Hget Hf) as [E ->].
  split; [|reflexivity]. rewrite bind_run.
  destruct (c σ) as [[a|e] σ1]; cbn [fst] in E;
    [injection E as ->; reflexivity | discriminate E].
Qed.

Ltac response_returned_tac :=
  repeat lazymatch goal with
    | |- response_returned _ (bind (new_dict _) _) =>
        apply response_returned_new_dict; intros
    | |- response_returned _ (bind _ (λ x, ret x)) => apply response_returned_eta
    | |- response_returned _ (redfin_request _ _ _ _) => apply response_returned_redfin
    end.

Lemma invoke_response_returned w self m :
  passes_response m = true →
  ∃ c, invoke w self m = fmap_M RResponse c ∧ response_returned w c.
Proof.
  intros Hm. destruct m; try discriminate Hm;
    eexists; (split; [reflexivity|]);
    unfold primary_region, shared_region; response_returned_tac.
Qed.

(** A per-property method that works on the decoded payload: once the
    answer decodes, the call is its tail [k] run on the payload. *)
Lemma reshaped_run w self suffix pid lid (k : pyval → M pyval) σ url p h rest r x :
  (∀ a, quiet (k a)) →
  events_since σ
    (snd ((params ←' property_params pid lid ;'
           response ←' request_property_data w self suffix params false ;'
           k response) σ)) = EvGet url p h :: rest →
  http_get w url p h = Ok r → http_failed r = false →
  json_loads w (str_slice_from 4 (text r)) = Some x →
  ∃ σ2, ticks σ2 = ticks σ
    ∧ (params ←' property_params pid lid ;'
       response ←' request_property_data w self suffix params false ;'
       k response) σ = k x σ2.
Proof.
  intros Hk Hev Hget Hf Hj.
  set (l := fresh (dom (heap σ))).
  set (σ1 := State (<[l := <["propertyId" := pid]> {["listingId" := lid]}]> (heap σ))
               (trace σ) (ticks σ)).
  change ((params ←' property_params pid lid ;'
           response ←' request_property_data w self suffix params false ;'
           k response) σ)
    with (bind (request_property_data w self suffix l false) k σ1) in Hev |- *.
  assert (events_since σ1 (snd (request_property_data w self suffix l false σ1))
          = EvGet url p h :: rest) as Hev1.
  { rewrite <- Hev. unfold events_since. by rewrite (trace_bind_quiet _ _ _ Hk). }
  destruct (payload_returned_property_data w self suffix l false σ1 url p h rest r x
              Hev1 Hget Hf Hj) as (σ2 & E & Ht & _).
  exists σ2. split; [exact Ht|]. by rewrite bind_run, E.
Qed.

Lemma dict_setitem_values k x items v :
  v ∈ (dict_setitem k x items).*2 → v = x ∨ v ∈ items.*2.
Proof.
  induction items as [|[k' x'] items IH]; simpl.
  - intros ->%list_elem_of_singleton. by left.
  - destruct (String.eqb k k'); simpl.
    + intros [->|H]%elem_of_cons; [by left | right; by right].
    + intros [->|H]%elem_of_cons; [right; left|].
      destruct (IH H) as [->|H']; [by left | right; by right].
Qed.

(** The comprehension over at most as many estimates as labels ends,
    whatever the labels are, and stores nothing but estimates. *)
Lemma foldM_zip_values ml ests n a acc σ :
  (a + n ≤ length ml)%nat → (a + n ≤ length ests)%nat →
  ∃ ts, foldM (zip_step ml (VList ests)) (seq a n) acc σ = (Ok ts, σ)
      ∧ ∀ v, v ∈ ts.*2 → v ∈ acc.*2 ∨ v ∈ ests.
Proof.
  revert a acc. induction n as [|n IH]; intros a acc Hm He.
  - exists acc. split; [reflexivity | by left].
  - cbn [seq foldM].
    destruct (lookup_lt_is_Some_2 ml a ltac:(lia)) as [key Hk].
    destruct (lookup_lt_is_Some_2 ests a ltac:(lia)) as [value Hv].
    rewrite bind_run, (zip_step_run ml ests acc a σ key value Hk Hv).
    destruct (IH (S a) (dict_setitem key value acc) ltac:(lia) ltac:(lia))
      as (ts & E & Hts).
    exists ts. split; [exact E|]. intros v Hin.
    destruct (Hts v Hin) as [H|H]; [|by right].
    destruct (dict_setitem_values _ _ _ _ H) as [->|H']; [right | by left].
    by eapply list_elem_of_lookup_2.
Qed.

(** C2, amended.  The methods built on [request_property_data] or
    [request_region_data] without further work, and [search], return
    the decoded payload: the value [json.loads] makes of the body text
    past its first four characters.  They do return it whenever the
    answer to their GET has no 4xx or 5xx status and decodes, and what
    they return is never anything else.  [get_property_images] and
    [get_property_timeseries_estimate] decode the same way and return a
    list, respectively a dict, built from that payload: the list of the
    photos' URLs whenever the payload holds photos that all have one,
    and a dict holding nothing but estimates whenever the payload holds
    at most 61 of them.  [primary_region] and [shared_region], like
    [redfin_request], return the response object as received whenever
    its status is not 4xx or 5xx; nothing is decoded.  (Every call
    does begin with its GET, so the answer spoken of always exists.) *)
Theorem methods_return (w : World) (self : Redfin) (m : method) (σ : state) :
  (passes_payload m = true →
     returns_decoded_payload w self m σ
     ∧ ∀ url p h rest r x,
         events_since σ (snd (invoke w self m σ)) = EvGet url p h :: rest →
         http_get w url p h = Ok r → ¬ (400 ≤ status_code r < 600) →
         json_loads w (str_slice_from 4 (text r)) = Some x →
         fst (invoke w self m σ) = Ok (RVal x)
         ∧ rest = [EvLoads (str_slice_from 4 (text r))])
  ∧ (passes_response m = true →
     (∀ o σ', invoke w self m σ = (Ok o, σ') →
        ∃ r url p h, o = RResponse r
          ∧ events_since σ σ' = [EvGet url p h] ∧ http_get w url p h = Ok r)
     ∧ ∀ url p h rest r,
         events_since σ (snd (invoke w self m σ)) = EvGet url p h :: rest →
         http_get w url p h = Ok r → ¬ (400 ≤ status_code r < 600) →
         fst (invoke w self m σ) = Ok (RResponse r) ∧ rest = [])
  ∧ (reshapes_payload m = true →
     ∀ o σ', invoke w self m σ = (Ok o, σ') →
       ∃ x url p h r,
         events_since σ σ' = [EvGet url p h; EvLoads (str_slice_from 4 (text r))]
         ∧ http_get w url p h = Ok r
         ∧ json_loads w (str_slice_from 4 (text r)) = Some x
         ∧ match m with
           | GetPropertyImages _ _ => ∃ l, o = RVal (VList l)
           | _ => ∃ items, o = RVal (VDict items)
           end)
  ∧ (∀ pid lid url p h rest r x payload media photos urls,
       m = GetPropertyImages pid lid →
       events_since σ (snd (invoke w self m σ)) = EvGet url p h :: rest →
       http_get w url p h = Ok r → ¬ (400 ≤ status_code r < 600) →
       json_loads w (str_slice_from 4 (text r)) = Some x →
       getitem_key x "payload" = Ok payload →
       getitem_key payload "mediaBrowserInfo" = Ok media →
       getitem_key media "photos" = Ok (VList photos) →
       Forall2 (λ photo u, photo_url photo = Ok u) photos urls →
       fst (invoke w self m σ) = Ok (RVal (VList urls)))
  ∧ (∀ pid lid url p h rest r x payload ests,
       m = GetPropertyTimeseriesEstimate pid lid →
       events_since σ (snd (invoke w self m σ)) = EvGet url p h :: rest →
       http_get w url p h = Ok r → ¬ (400 ≤ status_code r < 600) →
       json_loads w (str_slice_from 4 (text r)) = Some x →
       getitem_key x "payload" = Ok payload →
       getitem_key payload "propertyTimeSeries" = Ok (VList ests) →
       (length ests ≤ 61)%nat →
       (∀ j, (j < 61)%nat → reading_ok (clock w (ticks σ + j))) →
       ∃ items, fst (invoke w self m σ) = Ok (RVal (VDict items))
         ∧ ∀ v, v ∈ items.*2 → v ∈ ests)
  ∧ (∃ url p h rest,
       events_since σ (snd (invoke w self m σ)) = EvGet url p h :: rest).
Proof.
  split; [|split; [|split; [|split; [|split]]]].
  - intros Hm. destruct (invoke_payload w self m Hm) as (c & Hi & Hc & Hr). split.
    + intros o σ' E. rewrite Hi in E. apply fmap_ok_inv in E as (x & E & ->).
      exists x. split; [reflexivity|]. exact (Hc σ x σ' E).
    + intros url p h rest r x Hev Hget Hst Hj. rewrite Hi in Hev |- *.
      unfold fmap_M in Hev. rewrite snd_bind_ret in Hev.
      destruct (Hr σ url p h rest r x Hev Hget) as (σ' & E & _ & ->);
        [unfold http_failed; lia | exact Hj |].
      by rewrite fmap_M_run, E.
  - intros Hm. split.
    + intros o σ' E.
      destruct (invoke_response w self m Hm) as (c & Hi & Hc). rewrite Hi in E.
      apply fmap_ok_inv in E as (r & E & ->).
      destruct (Hc σ r σ' E) as (u & p & h & Hev & Hget).
      exists r, u, p, h. split; [reflexivity | split; assumption].
    + intros url p h rest r Hev Hget Hst.
      destruct (invoke_response_returned w self m Hm) as (c & Hi & Hc).
      rewrite Hi in Hev |- *. unfold fmap_M in Hev. rewrite snd_bind_ret in Hev.
      destruct (Hc σ url p h rest r Hev Hget) as [E ->]; [unfold http_failed; lia|].
      split; [|reflexivity]. rewrite fmap_M_run.
      destruct (c σ) as [[a|e] σ1]; cbn [fst] in E;
        [injection E as ->; reflexivity | discriminate E].
  - intros Hm o σ' E. destruct m; try discriminate Hm;
      apply fmap_ok_inv in E as (y & E & ->);
      apply bind_ok_inv in E as (params & σ0 & E0 & E);
      (eapply payload_call_reshaped in E;
         [| apply payload_call_property_data | intros; quiet_tac]);
      destruct E as (x & σ1 & url & p & h & r & Ek & Hev & Hget & Hj);
      exists x, url, p, h, r;
      (split; [rewrite <- Hev; symmetry; apply events_since_same;
               exact (quiet_run _ _ _ _ (quiet_new_dict _) E0)|]);
      (split; [exact Hget|]); (split; [exact Hj|]);
      repeat (apply bind_ok_inv in Ek as (? & ? & _ & Ek));
      injection Ek as <- _; eauto.
  - intros pid lid url p h rest r x payload media photos urls -> Hev Hget Hst Hj
      Hp Hm Hph Hurls.
    cbn [invoke] in Hev |- *. unfold fmap_M in Hev. rewrite snd_bind_ret in Hev.
    rewrite fmap_M_run. rewrite images_split in Hev |- *.
    destruct (reshaped_run w self "aboveTheFold" pid lid images_of σ url p h rest r x)
      as (σ2 & _ & ->); [intros; unfold images_of; quiet_tac | exact Hev | exact Hget
                        | unfold http_failed; lia | exact Hj |].
    unfold images_of.
    rewrite bind_run. unfold lift at 1. rewrite Hp.
    rewrite bind_run. unfold lift at 1. rewrite Hm.
    rewrite bind_run. unfold lift at 1. rewrite Hph.
    rewrite bind_run. unfold lift at 1. cbn [py_iter].
    rewrite bind_run, (foldM_images _ _ _ _ Hurls). reflexivity.
  - intros pid lid url p h rest r x payload ests -> Hev Hget Hst Hj Hp He Hn Hok.
    cbn [invoke] in Hev |- *. unfold fmap_M in Hev. rewrite snd_bind_ret in Hev.
    rewrite fmap_M_run. rewrite timeseries_split in Hev |- *.
    destruct (reshaped_run w self "avmHistoricalData" pid lid (timeseries_of w)
                σ url p h rest r x)
      as (σ2 & Ht & ->); [intros; unfold timeseries_of; quiet_tac | exact Hev | exact Hget
                         | unfold http_failed; lia | exact Hj |].
    rewrite (timeseries_of_run w x payload ests σ2 Hp He)
      by (intros j Hj'; rewrite Ht; by apply Hok).
    destruct (foldM_zip_values
                (reverse (imap (λ j i, month_label_at w (ticks σ2 + j) i) month_range))
                ests (length ests) 0 [] (tick_n 61 σ2)) as (ts & -> & Hts).
    + rewrite length_reverse, length_imap.
      change (length month_range) with 61%nat. lia.
    + lia.
    + exists ts. split; [reflexivity|]. intros v Hin.
      destruct (Hts v Hin) as [F|H]; [|exact H]. by apply elem_of_nil in F.
  - destruct (one_request_invoke w self m σ) as (url & p & h & docs & Ht & _).
    exists url, p, h, (map EvLoads docs). by apply events_since_app.
Qed.

Lemma methods_return_witness :
  fst (invoke (fixed_world (response_of 200 "{}&&{}") (Build_datetime 2026 11 4))
         (__init__ None) (GetRegionTrends (SInt 2) (SInt 8729) (SStr "")) module_state)
    = Ok (RVal (VDict []))
  ∧ fst (invoke (fixed_world (response_of 200 "{}&&{}") (Build_datetime 2026 11 4))
           (__init__ None) (PrimaryRegion "/NY/Albany/363-Elk-St-12206/home/97942731")
           module_state)
    = Ok (RResponse (response_of 200 "{}&&{}"))
  ∧ fst (invoke (fixed_world (response_of 200 (images_body ["a.jpg"; "b.jpg"]))
                   (Build_datetime 2026 11 4))
           (__init__ None) (GetPropertyImages (SInt 9701815) (SStr "")) module_state)
    = Ok (RVal (VList [VStr "a.jpg"; VStr "b.jpg"]))
  ∧ ∃ items,
      fst (invoke (fixed_world
                     (response_of 200 (timeseries_body ["412000"; "null"; "415500"]))
                     (Build_datetime 2026 11 4))
             (__init__ None) (GetPropertyTimeseriesEstimate (SInt 9701815) (SStr ""))
             module_state)
      = Ok (RVal (VDict items))
      ∧ ∀ v, v ∈ items.*2 → v ∈ [VInt 412000; VNone; VInt 415500].
Proof.
  split; [|split; [|split]].
  - destruct (methods_return
                (fixed_world (response_of 200 "{}&&{}") (Build_datetime 2026 11 4))
                (__init__ None) (GetRegionTrends (SInt 2) (SInt 8729) (SStr ""))
                module_state) as (HA & _).
    destruct (HA eq_refl) as [_ HA'].
    refine (proj1 (HA' "https://redfin.com/stingray/api/region/2/8729/trends"
                     ∅ {["user-agent" := SStr ""]} [EvLoads "{}"]
                     (response_of 200 "{}&&{}") (VDict []) _ _ _ _)).
    + vm_compute. reflexivity.
    + reflexivity.
    + simpl. lia.
    + vm_compute. reflexivity.
  - destruct (methods_return
                (fixed_world (response_of 200 "{}&&{}") (Build_datetime 2026 11 4))
                (__init__ None) (PrimaryRegion "/NY/Albany/363-Elk-St-12206/home/97942731")
                module_state) as (_ & HB & _).
    destruct (HB eq_refl) as [_ HB'].
    refine (proj1 (HB' "https://redfin.com/stingray/api/home/details/primaryRegionInfo"
                     {["path" := SStr "/NY/Albany/363-Elk-St-12206/home/97942731"]}
                     {["user-agent" := SStr ""]} []
                     (response_of 200 "{}&&{}") _ _ _)).
    + vm_compute. reflexivity.
    + reflexivity.
    + simpl. lia.
  - destruct (methods_return
                (fixed_world (response_of 200 (images_body ["a.jpg"; "b.jpg"]))
                   (Build_datetime 2026 11 4))
                (__init__ None) (GetPropertyImages (SInt 9701815) (SStr ""))
                module_state) as (_ & _ & _ & HD & _).
    refine (HD (SInt 9701815) (SStr "")
              "https://redfin.com/stingray/api/home/details/aboveTheFold"
              (property_query (SInt 9701815) (SStr "")) {["user-agent" := SStr ""]}
              [EvLoads (str_slice_from 4 (images_body ["a.jpg"; "b.jpg"]))]
              (response_of 200 (images_body ["a.jpg"; "b.jpg"]))
              (VDict [("payload",
                 VDict [("mediaBrowserInfo",
                   VDict [("photos", VList [photo_of "a.jpg"; photo_of "b.jpg"])])])])
              (VDict [("mediaBrowserInfo",
                   VDict [("photos", VList [photo_of "a.jpg"; photo_of "b.jpg"])])])
              (VDict [("photos", VList [photo_of "a.jpg"; photo_of "b.jpg"])])
              [photo_of "a.jpg"; photo_of "b.jpg"] [VStr "a.jpg"; VStr "b.jpg"]
              eq_refl _ _ _ _ eq_refl eq_refl eq_refl _).
    + vm_compute. reflexivity.
    + reflexivity.
    + simpl. lia.
    + vm_compute. reflexivity.
    + repeat constructor.
  - destruct (methods_return
                (fixed_world
                   (response_of 200 (timeseries_body ["412000"; "null"; "415500"]))
                   (Build_datetime 2026 11 4))
                (__init__ None) (GetPropertyTimeseriesEstimate (SInt 9701815) (SStr ""))
                module_state) as (_ & _ & _ & _ & HE & _).
    refine (HE (SInt 9701815) (SStr "")
              "https://redfin.com/stingray/api/home/details/avmHistoricalData"
              (timeseries_query (SInt 9701815) (SStr "")) {["user-agent" := SStr ""]}
              [EvLoads (str_slice_from 4 (timeseries_body ["412000"; "null"; "415500"]))]
              (response_of 200 (timeseries_body ["412000"; "null"; "415500"]))
              (VDict [("payload",
                       VDict [("propertyTimeSeries",
                               VList [VInt 412000; VNone; VInt 415500])])])
              (VDict [("propertyTimeSeries", VList [VInt 412000; VNone; VInt 415500])])
              [VInt 412000; VNone; VInt 415500]
              eq_refl _ _ _ _ eq_refl eq_refl _ _).
    + vm_compute. reflexivity.
    + reflexivity.
    + simpl. lia.
    + vm_compute. reflexivity.
    + simpl. lia.
    + intros j _. split; simpl; lia.
Defined.
